(** * motive2d: segment planning, materialisation, scheduling and merging

    A shallow embedding of the orchestration scripts of the repository,
    [run_yolo_docker.py] and [combine_coords.py], and the properties their
    design document states about them.

    Conventions of the embedding.
    - Python [int] is [Z]; Python [float] is the kernel's binary64 [float].
    - Python [str] is [string], read as UTF-8 text; the built-ins below are
      the ASCII fragment of their Python counterparts.
    - [int] and [str] convert without the interpreter's limit on the number
      of digits (4300 by default); the statements about names and files the
      program is given bound their length, so that they hold with the limit.
    - A raised exception is a value of [exn], named by its built-in class,
      [OSError] standing for its subclasses too; fallible code returns
      [result].
    - The file system of the line-oriented merge maps a path to what it
      names: a text file, a file whose bytes do not decode, or a directory.
      Text is read with universal newlines and written as it is. Access
      rights are not modelled. The disk of the materializer maps a path to
      the bytes of a file; an external process is a function of the disk
      given as a parameter.
    - [print] is a list of structured messages, one constructor per format
      string of the source. *)

From Stdlib Require Import ZArith Lia List String Ascii Floats.
From Stdlib Require Import DecimalString DecimalPos.
From Equations Require Import Equations.
From stdpp Require Import base gmap strings list sorting.
Import ListNotations.

Open Scope string_scope.

(** ** Exceptions *)

Inductive exn : Type :=
| SystemExit (msg : string)
| ValueError
| OverflowError
| IndexError
| ZeroDivisionError
| OSError
| UnicodeDecodeError.

Inductive result (A : Type) : Type :=
| Ok (a : A)
| Raise (e : exn).

Arguments Ok {A} a.
Arguments Raise {A} e.

#[global] Instance result_ret : MRet result := fun A a => Ok a.

#[global] Instance result_bind : MBind result := fun A B k r =>
  match r with
  | Ok a => k a
  | Raise e => Raise e
  end.

(** ** Python built-ins *)

Module Py.

Definition TAB : ascii := "009"%char.
Definition NL : ascii := "010"%char.
Definition CR : ascii := "013"%char.

Definition is_digit (c : ascii) : bool :=
  let n := nat_of_ascii c in (48 <=? n)%nat && (n <=? 57)%nat.

Definition digit_value (c : ascii) : Z := Z.of_nat (nat_of_ascii c) - 48.

(** [str.isspace] on the ASCII range: TAB..CR, FS..US and the blank. *)
Definition is_space (c : ascii) : bool :=
  let n := nat_of_ascii c in
  ((9 <=? n)%nat && (n <=? 13)%nat) || ((28 <=? n)%nat && (n <=? 32)%nat).

Definition is_newline (c : ascii) : bool := Ascii.eqb c NL.

Fixpoint lstrip_chars (p : ascii -> bool) (s : string) : string :=
  match s with
  | String c s' => if p c then lstrip_chars p s' else s
  | EmptyString => EmptyString
  end.

Fixpoint rstrip_chars (p : ascii -> bool) (s : string) : string :=
  match s with
  | EmptyString => EmptyString
  | String c s' =>
      match rstrip_chars p s' with
      | EmptyString => if p c then EmptyString else String c EmptyString
      | r => String c r
      end
  end.

(** [s.strip()] *)
Definition strip (s : string) : string :=
  rstrip_chars is_space (lstrip_chars is_space s).

(** [s.startswith(p)] and [s.endswith(p)] *)
Definition startswith (s p : string) : bool := String.prefix p s.

Definition endswith (s p : string) : bool :=
  let n := String.length s in
  let k := String.length p in
  (k <=? n)%nat && String.eqb (substring (n - k) k s) p.

(** [s.split(sep)] for a one-character separator: never the empty list. *)
Fixpoint split (sep : ascii) (s : string) : list string :=
  match s with
  | EmptyString => [EmptyString]
  | String c s' =>
      if Ascii.eqb c sep then EmptyString :: split sep s'
      else match split sep s' with
           | h :: t => String c h :: t
           | [] => [String c EmptyString]
           end
  end.

(** [s.split()]: the maximal runs of non-blank characters. *)
Fixpoint split_ws (s : string) : list string :=
  match s with
  | EmptyString => []
  | String c s' =>
      if is_space c then split_ws s'
      else match s' with
           | String c' _ =>
               if is_space c' then String c EmptyString :: split_ws s'
               else match split_ws s' with
                    | h :: t => String c h :: t
                    | [] => [String c EmptyString]
                    end
           | EmptyString => [String c EmptyString]
           end
  end.

(** [sep.join(parts)] *)
Definition join (sep : string) (parts : list string) : string :=
  String.concat sep parts.

(** Text mode reads with universal newlines: a carriage return followed by
    a line feed, and a carriage return on its own, are handed over as one
    line feed. *)
Fixpoint universal_newlines (text : string) : string :=
  match text with
  | EmptyString => EmptyString
  | String c s' =>
      if Ascii.eqb c CR then
        match s' with
        | String c' s'' =>
            if Ascii.eqb c' NL then String NL (universal_newlines s'')
            else String NL (universal_newlines s')
        | EmptyString => String NL EmptyString
        end
      else String c (universal_newlines s')
  end.

(** The lines of a text, each with its line feed. *)
Fixpoint keepends (text : string) : list string :=
  match text with
  | EmptyString => []
  | String c s' =>
      if is_newline c then String c EmptyString :: keepends s'
      else match keepends s' with
           | l :: ls => String c l :: ls
           | [] => [String c EmptyString]
           end
  end.

(** [f.readlines()], and the lines [for line in f] yields, for a file opened
    in text mode whose characters are [text]: every line keeps its
    terminator, which is a line feed. *)
Definition readlines (text : string) : list string :=
  keepends (universal_newlines text).

(** [enumerate(l)] *)
Definition enumerate {A : Type} (l : list A) : list (nat * A) :=
  combine (seq 0 (List.length l)) l.

(** [s.isdigit()] *)
Fixpoint all_digits (s : string) : bool :=
  match s with
  | EmptyString => true
  | String c s' => is_digit c && all_digits s'
  end.

Definition isdigit (s : string) : bool :=
  match s with
  | EmptyString => false
  | _ => all_digits s
  end.

(** [int(s)]: white space around (the characters 9 to 13 and 32, fewer than
    [str.strip] removes), an optional sign, then decimal digits, where single
    underscores may separate digits. [None] is [ValueError]. *)
Inductive int_lex : Type := AtStart | AfterDigit | AfterUnderscore.

Fixpoint int_digits (st : int_lex) (acc : Z) (s : string) : option Z :=
  match s with
  | EmptyString => match st with AfterDigit => Some acc | _ => None end
  | String c s' =>
      if is_digit c then int_digits AfterDigit (10 * acc + digit_value c) s'
      else if Ascii.eqb c "_" then
        match st with
        | AfterDigit => int_digits AfterUnderscore acc s'
        | _ => None
        end
      else None
  end.

Definition is_int_space (c : ascii) : bool :=
  let n := nat_of_ascii c in
  ((9 <=? n)%nat && (n <=? 13)%nat) || (n =? 32)%nat.

Definition py_int (s : string) : option Z :=
  match rstrip_chars is_int_space (lstrip_chars is_int_space s) with
  | String "-" r => option_map Z.opp (int_digits AtStart 0 r)
  | String "+" r => int_digits AtStart 0 r
  | r => int_digits AtStart 0 r
  end.

(** [str(n)] *)
Definition py_str (n : Z) : string := NilZero.string_of_int (Z.to_int n).

(** [sorted(l, key=...)]: a stable sort, written as a stable insertion
    sort; [le a b] compares the keys. *)
Fixpoint insert_sorted {A : Type} (le : A -> A -> bool) (x : A) (l : list A)
  : list A :=
  match l with
  | [] => [x]
  | y :: l' => if le x y then x :: y :: l' else y :: insert_sorted le x l'
  end.

Fixpoint sorted {A : Type} (le : A -> A -> bool) (l : list A) : list A :=
  match l with
  | [] => []
  | x :: l' => insert_sorted le x (sorted le l')
  end.

(** *** [pathlib.PurePosixPath] *)

Definition path_parts (p : string) : list string :=
  List.filter (fun c => negb (String.eqb c "") && negb (String.eqb c "."))
              (split "/" p).

Definition path_root (p : string) : string :=
  match p with
  | String "/" (String "/" (String "/" _)) => "/"
  | String "/" (String "/" _) => "//"
  | String "/" _ => "/"
  | _ => ""
  end.

(** [str(Path(p))] *)
Definition Path (p : string) : string :=
  match path_root p, path_parts p with
  | EmptyString, [] => "."
  | root, parts => root ++ join "/" parts
  end.

(** [Path(p).name] *)
Definition path_name (p : string) : string := List.last (path_parts p) "".

(** [Path(p).stem]: the name without its last suffix. *)
Fixpoint rfind_dot (s : string) (i : nat) (found : option nat) : option nat :=
  match s with
  | EmptyString => found
  | String c s' =>
      rfind_dot s' (S i) (if Ascii.eqb c "." then Some i else found)
  end.

Definition stem_of_name (name : string) : string :=
  match rfind_dot name 0 None with
  | Some i =>
      if (0 <? i)%nat && (i <? String.length name - 1)%nat
      then substring 0 i name else name
  | None => name
  end.

Definition path_stem (p : string) : string := stem_of_name (path_name p).

(** [Path(p) / name], for a single-component [name]. *)
Definition path_join (p name : string) : string :=
  match path_root p, path_parts p with
  | root, [] => root ++ name
  | root, parts => root ++ join "/" parts ++ "/" ++ name
  end.

(** [Path(p).with_name(name)] for a path that has a name; on a path without
    one the call raises [ValueError], which its caller [schedule_job]
    accounts for. *)
Definition with_name (p name : string) : string :=
  match path_root p, removelast (path_parts p) with
  | root, [] => root ++ name
  | root, parts => root ++ join "/" parts ++ "/" ++ name
  end.

(** *** The pattern [segment_(\d+)_(\d+)]

    One attempt at the head of [s]: the text [segment_], a maximal run of
    digits, an underscore and a second maximal run of digits; the two runs
    and what follows them. *)
Fixpoint take_digits (s : string) : string * string :=
  match s with
  | String c s' =>
      if is_digit c
      then let '(d, r) := take_digits s' in (String c d, r)
      else (EmptyString, s)
  | EmptyString => (EmptyString, EmptyString)
  end.

Fixpoint strip_prefix (p s : string) : option string :=
  match p, s with
  | EmptyString, _ => Some s
  | String a p', String b s' =>
      if Ascii.eqb a b then strip_prefix p' s' else None
  | String _ _, EmptyString => None
  end.

Definition match_segment_at (s : string) : option (string * string * string) :=
  match strip_prefix "segment_" s with
  | Some r1 =>
      match take_digits r1 with
      | (EmptyString, _) => None
      | (d1, String "_" r2) =>
          match take_digits r2 with
          | (EmptyString, _) => None
          | (d2, r3) => Some (d1, d2, r3)
          end
      | _ => None
      end
  | None => None
  end.


(** [Path(p).parent] *)
Definition path_parent (p : string) : string :=
  match path_root p, removelast (path_parts p) with
  | EmptyString, [] => "."
  | root, parts => root ++ join "/" parts
  end.

(** [s[n:]] *)
Fixpoint drop_chars (n : nat) (s : string) : string :=
  match n, s with
  | S n', String _ s' => drop_chars n' s'
  | _, _ => s
  end.

(** [s[:-n]] when [s] has at least [n] characters. *)
Definition drop_last_chars (n : nat) (s : string) : string :=
  substring 0 (String.length s - n) s.

(** A value for [float(s)] on plain numerals: an optional sign, digits and
    an optional fraction, [N / 10^k] with [N < 2^53] and [k <= 15], where
    one binary64 division of two exact operands is the correctly rounded
    value. It declines ([None]) everything else; the examples instantiate
    the interpreter's [float] with it. *)
Definition float_of_unsigned (s : string) : option float :=
  let '(ip, fp) :=
    match split "." s with
    | [ip] => (ip, EmptyString)
    | [ip; fp] => (ip, fp)
    | _ => (EmptyString, EmptyString)
    end in
  let ds := ip ++ fp in
  let k := String.length fp in
  if isdigit ds && (List.length (split "." s) <=? 2)%nat && (k <=? 15)%nat then
    match int_digits AtStart 0 ds with
    | Some n =>
        if (n <? 2 ^ 53)%Z
        then Some (PrimFloat.of_uint63 (Uint63.of_Z n)
                   / PrimFloat.of_uint63 (Uint63.of_Z (10 ^ Z.of_nat k)))%float
        else None
    | None => None
    end
  else None.

Definition float_of_decimal (s : string) : option float :=
  match strip s with
  | String "-" r => option_map PrimFloat.opp (float_of_unsigned r)
  | String "+" r => float_of_unsigned r
  | r => float_of_unsigned r
  end.

(** *** Files

    What a path names: a regular file whose bytes decode to a text, a
    regular file whose bytes do not decode, or a directory. A path that
    names nothing is not in the map; the working directory [.] and the root
    [/] are always there. *)
Inductive node : Type :=
| TextFile (text : string)
| BinaryFile
| Directory.

(** [open(path, 'r')] and [f.readlines()] on what the path names:
    [IsADirectoryError] is an [OSError]. *)
Definition read_lines (n : node) : result (list string) :=
  match n with
  | TextFile text => Ok (readlines text)
  | BinaryFile => Raise UnicodeDecodeError
  | Directory => Raise OSError
  end.

(** What a path names, if anything: [path.exists()] is whether it names
    something. *)
Definition lookup_path (fs : gmap string node) (p : string) : option node :=
  match fs !! p with
  | Some found => Some found
  | None =>
      if String.eqb p "." || String.eqb p "/" then Some Directory else None
  end.

(** [path.is_dir()] *)
Definition is_directory (fs : gmap string node) (p : string) : bool :=
  match lookup_path fs p with
  | Some Directory => true
  | _ => false
  end.

(** [open(path, 'w')] and [f.write(text)]: the path must not name a
    directory ([IsADirectoryError]) and its parent must be one
    ([FileNotFoundError], [NotADirectoryError]); a file that is there is
    replaced. *)
Definition write_text (fs : gmap string node) (p text : string)
  : result (gmap string node) :=
  if is_directory fs p then Raise OSError
  else if is_directory fs (path_parent p)
       then Ok (<[p := TextFile text]> fs)
       else Raise OSError.

End Py.

(** ** [combine_coords.py] *)

Module CombineCoords.
Import Py.

(** [re.search(r'segment_(\d+)_(\d+)', filename)]: the leftmost place where
    the pattern matches. *)
Fixpoint search_segment (s : string) : option (string * string) :=
  match match_segment_at s with
  | Some (d1, d2, _) => Some (d1, d2)
  | None =>
      match s with
      | String _ s' => search_segment s'
      | EmptyString => None
      end
  end.

(** [None] stands for the [ValueError] the function raises. *)
Definition parse_segment_filename (filename : string) : option (Z * Z) :=
  match search_segment filename with
  | None => None
  | Some (d1, d2) =>
      match py_int d1, py_int d2 with
      | Some start, Some end_ => Some (start, end_)
      | _, _ => None
      end
  end.

(** What the function prints. *)
Inductive message : Type :=
| WarnNotFound (coord_path : string)
    (* "Warning: Coordinate file not found: {coord_path}" *)
| WarnSkipping (coord_path : string)
    (* "Warning: {e}, skipping {coord_path}" *)
| Processing (name : string) (start_frame : Z)
    (* "Processing {coord_path.name} (offset: +{start_frame})" *)
| WarnMalformed (name : string) (lineno : nat) (line : string)
    (* "Warning: Malformed line in {name} line {i+1}: {line}" *)
| WarnInvalidFrame (name : string) (lineno : nat) (part : string)
    (* "Warning: Invalid frame number in {name} line {i+1}: {parts[0]}" *)
| Combined (n : nat) (output_path : string)
    (* "Combined {len(coord_files)} coordinate files into {output_path}" *)
| TotalFrames (n : Z).
    (* "Total frames: {len(combined_lines) - (1 if header_written else 0)}" *)

(** The locals the loops update. *)
Record merge_state : Type := MergeState {
  combined_lines : list string;
  header_written : bool;
  printed : list message
}.

Definition say (m : message) (st : merge_state) : merge_state :=
  MergeState (combined_lines st) (header_written st) (printed st ++ [m]).

Definition emit (line : string) (st : merge_state) : merge_state :=
  MergeState (combined_lines st ++ [line]) (header_written st) (printed st).

(** The body of [for i, line in enumerate(lines)]. *)
Definition process_line (name : string) (start_frame : Z)
    (st : merge_state) (il : nat * string) : merge_state :=
  let '(i, raw) := il in
  let line := rstrip_chars is_newline raw in
  if String.eqb line "" then st
  else if startswith line "#" then
    if header_written st then st
    else MergeState (combined_lines st ++ [line]) true (printed st)
  else
    let parts := split TAB line in
    if negb (List.length parts =? 7)%nat
    then say (WarnMalformed name (i + 1) line) st
    else
      match parts with
      | p0 :: rest =>
          match py_int p0 with
          | Some original_frame =>
              let adjusted_frame := (original_frame + start_frame)%Z in
              emit (join (String TAB "") (py_str adjusted_frame :: rest)) st
          | None => say (WarnInvalidFrame name (i + 1) p0) st
          end
      | [] => st
      end.

(** The body of [for coord_file in sorted(coord_files)]: a path that
    exists and has a segment name is opened and read, outside the two
    [try] blocks, so what that raises ends the call. *)
Definition process_file (fs : gmap string node)
    (st : merge_state) (coord_file : string) : result merge_state :=
  let coord_path := Path coord_file in
  match lookup_path fs coord_path with
  | None => Ok (say (WarnNotFound coord_path) st)
  | Some found =>
      match parse_segment_filename (path_name coord_file) with
      | None => Ok (say (WarnSkipping coord_path) st)
      | Some (start_frame, _) =>
          let name := path_name coord_file in
          let st := say (Processing name start_frame) st in
          lines ← read_lines found;
          mret (fold_left (process_line name start_frame)
                          (enumerate lines) st)
      end
  end.

Fixpoint merge_loop (fs : gmap string node) (files : list string)
    (st : merge_state) : result merge_state :=
  match files with
  | [] => Ok st
  | coord_file :: rest =>
      st' ← process_file fs st coord_file;
      merge_loop fs rest st'
  end.

(** Lines 20-67: the locals after the loop over the sorted files. *)
Definition merge_files (fs : gmap string node) (coord_files : list string)
  : result merge_state :=
  merge_loop fs (sorted String.leb coord_files) (MergeState [] false []).

(** The text written to [output_path]. *)
Definition output_text (st : merge_state) : string :=
  join (String NL "") (combined_lines st).

(** [combine_coordinate_files(coord_files, output_path)]: the file system
    after the call and what the call printed, when it returns. *)
Definition combine_coordinate_files (fs : gmap string node)
    (coord_files : list string) (output_path : string)
  : result (gmap string node * list message) :=
  st ← merge_files fs coord_files;
  fs' ← write_text fs output_path (output_text st);
  let total := (Z.of_nat (List.length (combined_lines st))
                - (if header_written st then 1 else 0))%Z in
  mret (fs', (printed st ++ [Combined (List.length coord_files) output_path;
                             TotalFrames total])%list).

End CombineCoords.

(** ** [run_yolo_docker.py] *)

Module RunYoloDocker.
Import Py.

(** *** Python floats *)

(** [int(x)] for a float: truncation toward zero; an infinity raises
    [OverflowError] and a NaN [ValueError]. *)
Definition int_of_float (x : float) : result Z :=
  match Prim2SF x with
  | S754_zero _ => Ok 0%Z
  | S754_finite s m e =>
      let magnitude := Z.shiftl (Z.pos m) e in
      Ok (if s then (- magnitude)%Z else magnitude)
  | S754_infinity _ => Raise OverflowError
  | S754_nan => Raise ValueError
  end.

(** [bool(x)] for a float: false for the two zeros only. *)
Definition float_truthy (x : float) : bool := negb (PrimFloat.eqb x 0%float).

(** [int(max(1, x))]: [max] keeps its first argument, the integer 1, unless
    the second is greater. *)
Definition int_max_1 (x : float) : result Z :=
  if PrimFloat.ltb 1%float x then int_of_float x else Ok 1%Z.

(** [value.split("/", 1)] when ["/" in value]. *)
Fixpoint partition_slash (s : string) : option (string * string) :=
  match s with
  | EmptyString => None
  | String c s' =>
      if Ascii.eqb c "/" then Some (EmptyString, s')
      else match partition_slash s' with
           | Some (a, b) => Some (String c a, b)
           | None => None
           end
  end.

(** A media segment: [(start, end, count)], both ends inclusive. *)
Definition segment : Type := Z * Z * Z.

(** ffprobe's JSON, decoded: the ["streams"] list when the key is there,
    each stream an object of text fields. *)
Definition stream_info : Type := gmap string string.
Definition probe_info : Type := option (list stream_info).

(** [x or default] on an optional text field. *)
Definition field_or (v : option string) (default : string) : string :=
  match v with
  | Some (String c s) => String c s
  | _ => default
  end.

(** [nb_frames and nb_frames not in ("N/A", "0")] *)
Definition usable_nb_frames (v : option string) : option string :=
  match v with
  | Some (String c s) =>
      let t := String c s in
      if String.eqb t "N/A" || String.eqb t "0" then None else Some t
  | _ => None
  end.

(** [info.get("streams", [{}])[0]] *)
Definition selected_stream (info : probe_info) : result stream_info :=
  match info with
  | None => Ok (∅ : stream_info)
  | Some (stream :: _) => Ok stream
  | Some [] => Raise IndexError
  end.

Definition NO_FRAME_COUNT : string :=
  "Unable to determine frame count for segmentation".

Section Probe.
(** [float(s)] on text is the interpreter's; [None] is [ValueError]. *)
Variable py_float : string -> option float.

Definition float_of_text (s : string) : result float :=
  match py_float s with
  | Some x => Ok x
  | None => Raise ValueError
  end.

Definition parse_fps (value : string) : float :=
  match partition_slash value with
  | Some (num, den) =>
      match py_float den with
      | Some den =>
          if PrimFloat.eqb den 0%float then 0%float
          else match py_float num with
               | Some num => (num / den)%float
               | None => 0%float
               end
      | None => 0%float
      end
  | None =>
      match py_float value with
      | Some x => x
      | None => 0%float
      end
  end.

(** [float(stream.get("duration") or 0.0)] *)
Definition stream_duration (stream : stream_info) : result float :=
  match stream !! "duration" with
  | Some (String c s) => float_of_text (String c s)
  | _ => Ok 0%float
  end.

(** The frame rate of lines 156-159: parsed from [avg_frame_rate], 30 when
    that gives a zero. *)
Definition stream_fps (stream : stream_info) : float :=
  let fps_raw := field_or (stream !! "avg_frame_rate") "0/1" in
  let fps := parse_fps fps_raw in
  if float_truthy fps then fps else 30%float.

(** [probe_video], from the decoded output of ffprobe on. *)
Definition probe_video (info : probe_info) : result (Z * float) :=
  stream ← selected_stream info;
  duration ← stream_duration stream;
  let nb_frames := stream !! "nb_frames" in
  let fps := stream_fps stream in
  frames ← match usable_nb_frames nb_frames with
           | Some nb => x ← float_of_text nb; int_of_float x
           | None =>
               if PrimFloat.ltb 0%float duration
               then int_max_1 (duration * fps)%float
               else Raise (SystemExit NO_FRAME_COUNT)
           end;
  mret (frames, fps).

End Probe.

(** [max(1, frames // workers + (1 if frames % workers else 0))] *)
Definition chunk_size (frames workers : Z) : Z :=
  Z.max 1 (frames / workers + (if (frames mod workers =? 0)%Z then 0 else 1)).

(** The [while start < frames] loop; it ends because [per_chunk] is
    positive. *)
Equations? segments_loop (frames per_chunk : Z) (Hpos : (1 <= per_chunk)%Z)
    (start : Z) : list segment by wf (Z.to_nat (frames - start)) lt :=
segments_loop frames per_chunk Hpos start with Z_lt_dec start frames := {
  | left _ =>
      let end_ := Z.min (frames - 1) (start + per_chunk - 1) in
      let count := (end_ - start + 1)%Z in
      (start, end_, count) :: segments_loop frames per_chunk Hpos (end_ + 1)
  | right _ => [] }.
Proof. lia. Qed.

(** Lines 187-194: the plan for a known frame count. *)
Definition plan_segments (frames workers : Z) : result (list segment) :=
  if (workers =? 0)%Z then Raise ZeroDivisionError
  else Ok (segments_loop frames (chunk_size frames workers)
                         (Z.le_max_l 1 _) 0).

(** [compute_segments(video, workers)], the video given by what ffprobe
    reports about it. *)
Definition compute_segments (py_float : string -> option float)
    (info : probe_info) (workers : Z) : result (list segment * float) :=
  '(frames, fps) ← probe_video py_float info;
  segments ← plan_segments frames workers;
  mret (segments, fps).

(** *** [create_segment_files] *)

Definition path_exists (fs : gmap string string) (p : string) : bool :=
  match fs !! p with
  | Some _ => true
  | None => false
  end.

(** What the function prints, and the processes it starts. *)
Inductive segment_event : Type :=
| SkippingExisting (out_path : string) (start end_ : Z)
    (* "[segment] Skipping existing {out_path} (frames {start}-{end})" *)
| Creating (out_path : string) (start end_ : Z)
    (* "[segment] Creating {out_path} (frames {start}-{end})" *)
| Command (ffmpeg_cmd : list string)
    (* "[segment] command: {shlex.join(ffmpeg_cmd)}" *)
| Transcode (ffmpeg_cmd : list string) (log_path : string)
    (* subprocess.run(ffmpeg_cmd, stdout=log_file, stderr=STDOUT) *)
| FfmpegFailed (out_path log_path : string)
    (* "[segment] ffmpeg failed for {out_path} (see {log_path})" *)
| Created (out_path : string) (size : nat).
    (* "[segment] Created {out_path} ({size} bytes)" *)

Record materializer : Type := Materializer {
  disk : gmap string string;
  jobs : list string;
  events : list segment_event
}.

Definition segment_file (tmp_dir : string) (start end_ : Z) (ext : string)
  : string :=
  path_join tmp_dir
    ("segment_" ++ py_str start ++ "_" ++ py_str end_ ++ "." ++ ext).

Section Materialize.
(** [f"{fps:.6f}"] *)
Variable format_6f : float -> string.
(** The transcoder started on a command line and a file system: its exit
    status and the file system it leaves, or [None] when it cannot be
    started and [subprocess.run] raises. *)
Variable run_ffmpeg :
  list string -> gmap string string -> option (Z * gmap string string).

Definition ffmpeg_command (video : string) (start end_ count : Z)
    (fps : float) (out_path : string) : list string :=
  [ "ffmpeg"; "-y"; "-i"; video;
    "-vf";
    "select='between(n," ++ py_str start ++ "," ++ py_str end_ ++ ")'";
    "-frames:v"; py_str count;
    "-loglevel"; "error";
    "-c:v"; "libx264";
    "-preset"; "ultrafast";
    "-crf"; "24";
    "-pix_fmt"; "yuv420p";
    "-movflags"; "+faststart";
    "-reset_timestamps"; "1";
    "-avoid_negative_ts"; "make_zero";
    "-an";
    "-r"; format_6f fps;
    out_path ].

(** The body of [for idx, (start, end, count) in enumerate(segments)]. *)
Definition materialize_segment (video : string) (fps : float)
    (tmp_dir : string) (st : materializer) (seg : segment)
  : result materializer :=
  let '(start, end_, count) := seg in
  let out_path := segment_file tmp_dir start end_ "mp4" in
  let ffmpeg_cmd := ffmpeg_command video start end_ count fps out_path in
  if path_exists (disk st) out_path then
    Ok (Materializer (disk st) (jobs st ++ [out_path])
          (events st ++ [SkippingExisting out_path start end_]))
  else
    let log_path := segment_file tmp_dir start end_ "log" in
    let opened := <[log_path := EmptyString]> (disk st) in
    let started := (events st ++ [Creating out_path start end_;
                                  Command ffmpeg_cmd;
                                  Transcode ffmpeg_cmd log_path])%list in
    match run_ffmpeg ffmpeg_cmd opened with
    | None => Raise OSError
    | Some (returncode, after) =>
        if negb (returncode =? 0)%Z || negb (path_exists after out_path)
        then
          Ok (Materializer
                (if path_exists after out_path
                 then delete out_path after else after)
                (jobs st)
                (started ++ [FfmpegFailed out_path log_path]))
        else
          let size := String.length (default EmptyString (after !! out_path)) in
          Ok (Materializer after (jobs st ++ [out_path])
                (started ++ [Created out_path size]))
    end.

Fixpoint materialize_all (video : string) (fps : float) (tmp_dir : string)
    (segments : list segment) (st : materializer) : result materializer :=
  match segments with
  | [] => Ok st
  | seg :: rest =>
      st' ← materialize_segment video fps tmp_dir st seg;
      materialize_all video fps tmp_dir rest st'
  end.

(** [create_segment_files(video, segments, fps, tmp_dir)] on a file
    system: the returned [jobs], with the file system and the events the
    call leaves behind. *)
Definition create_segment_files (fs : gmap string string) (video : string)
    (segments : list segment) (fps : float) (tmp_dir : string)
  : result materializer :=
  materialize_all video fps tmp_dir segments (Materializer fs [] []).

End Materialize.

(** *** The scheduling loop of [main] *)

Record arguments : Type := MkArguments {
  videos : list string;
  workers : Z;
  pose : bool;
  model : option string;
  coords : option string
}.

Definition truthy (v : option string) : bool :=
  match v with
  | Some (String _ _) => true
  | _ => false
  end.

Definition get_model_tag (args : arguments) : string :=
  if pose args then "pose"
  else match model args with
       | Some (String c m) => path_stem (String c m)
       | _ => "detect"
       end.

(** One [executor.submit(run_job, idx, video, args, output_dir,
    coords_host, model_tag, ...)]. *)
Record submission : Type := Submission {
  job_idx : nat;
  job_video : string;
  job_output_dir : string;
  job_coords_host : string;
  job_model_tag : string
}.

Inductive schedule_event : Type :=
| SkippingMissing (idx : nat) (video : string)
    (* "[job {idx}] skipping missing video {video}" *)
| FoundExisting (idx : nat) (coords_host video : string).
    (* "[job {idx}] found existing coords {coords_host}; skipping
       inference for {video}" *)

(** The loop runs while the jobs it has submitted run: every [exists()]
    reads the file system of its own instant. [clock] counts the tests made
    so far; [failed] holds the exception that ended the loop, if one did. *)
Record scheduler : Type := Scheduler {
  clock : nat;
  submitted : list submission;
  reported : list schedule_event;
  failed : option exn
}.

Section Schedule.
(** [Path(p).resolve()] *)
Variable resolve : string -> string.
(** [exists_at t p]: what the [t]-th call of [exists()] answers for [p]. *)
Variable exists_at : nat -> string -> bool.

Definition coords_host_of (args : arguments) (model_tag video : string)
  : string :=
  match coords args with
  | Some (String c p) => resolve (Path (String c p))
  | _ => with_name video (path_stem video ++ "_" ++ model_tag ++ "_coords.txt")
  end.

(** The body of [for idx, video in enumerate(job_videos)]. On a video
    path without a name (the root), [video.with_name] raises [ValueError]
    when [--coords] is not given: the exception leaves the loop, and no
    later video is looked at. *)
Definition schedule_job (args : arguments) (model_tag : string)
    (st : scheduler) (job : nat * string) : scheduler :=
  let '(idx, video) := job in
  match failed st with
  | Some _ => st
  | None =>
      if negb (exists_at (clock st) video) then
        Scheduler (S (clock st)) (submitted st)
                  (reported st ++ [SkippingMissing idx video]) None
      else if negb (truthy (coords args)) && String.eqb (path_name video) ""
      then
        Scheduler (S (clock st)) (submitted st) (reported st)
                  (Some ValueError)
      else
        let coords_host := coords_host_of args model_tag video in
        if exists_at (S (clock st)) coords_host then
          Scheduler (S (S (clock st))) (submitted st)
                    (reported st ++ [FoundExisting idx coords_host video])
                    None
        else
          let output_dir := path_parent video in
          Scheduler (S (S (clock st)))
                    (submitted st ++
                       [Submission idx video output_dir coords_host model_tag])
                    (reported st) None
  end.

(** Lines 354-382 of [main]: the jobs handed to the pool. *)
Definition schedule_jobs (args : arguments) (job_videos : list string)
  : scheduler :=
  fold_left (schedule_job args (get_model_tag args))
            (enumerate job_videos) (Scheduler 0 [] [] None).

End Schedule.

(** *** The structured merge *)

Definition POSE_DIR_SUFFIX : string := "_pose".

(** A pose directory as the merge reads it: its name, and the entries of its
    [labels] sub-directory in the order [glob] yields them, each with its
    text ([None] when opening it raises [OSError], which the reader
    catches); no listing when [labels] is not a directory. A label file
    whose bytes do not decode raises [UnicodeDecodeError] out of the merge:
    the listings are those of the runs that get past reading. *)
Record pose_dir : Type := PoseDir {
  dir_name : string;
  labels : option (list (string * option string))
}.

(** [base_name], suffix removed. *)
Definition pose_base_name (name : string) : string :=
  if endswith name POSE_DIR_SUFFIX
  then drop_last_chars (String.length POSE_DIR_SUFFIX) name
  else name.

(** [SEGMENT_DIR_RE.match(base_name)], the pattern anchored at both ends;
    [$] also matches before a final newline. *)
Definition match_segment_dir (base_name : string) : option (string * string) :=
  match match_segment_at base_name with
  | Some (d1, d2, rest) =>
      if String.eqb rest "" || String.eqb rest (String NL "")
      then Some (d1, d2) else None
  | None => None
  end.

Definition of_option {A : Type} (o : option A) (e : exn) : result A :=
  match o with
  | Some a => Ok a
  | None => Raise e
  end.

Definition segment_start_offset (d : pose_dir) : result Z :=
  match match_segment_dir (pose_base_name (dir_name d)) with
  | Some (d1, _) => of_option (py_int d1) ValueError
  | None => Ok 0%Z
  end.

(** The digits of a label file's name that give its frame: the file is a
    [*.txt] whose stem is [prefix] followed by digits. *)
Definition label_frame_part (prefix name : string) : option string :=
  if endswith name ".txt" then
    let stem := stem_of_name name in
    if startswith stem prefix then
      let frame_part := drop_chars (String.length prefix) stem in
      if isdigit frame_part then Some frame_part else None
    else None
  else None.

Fixpoint label_files (prefix : string)
    (listing : list (string * option string))
  : result (list (Z * (string * option string))) :=
  match listing with
  | [] => Ok []
  | (name, text) :: rest =>
      match label_frame_part prefix name with
      | Some frame_part =>
          frame_index ← of_option (py_int frame_part) ValueError;
          more ← label_files prefix rest;
          mret ((frame_index, (name, text)) :: more)
      | None => label_files prefix rest
      end
  end.

Section Pose.
Variable py_float : string -> option float.

Fixpoint floats_of (tokens : list string) : option (list float) :=
  match tokens with
  | [] => Some []
  | t :: ts =>
      match py_float t, floats_of ts with
      | Some x, Some xs => Some (x :: xs)
      | _, _ => None
      end
  end.

(** One line of a label file: the entries it adds. *)
Definition line_entries (abs_frame : Z) (line : string)
  : list (Z * list float) :=
  let payload := strip line in
  if String.eqb payload "" then []
  else match floats_of (split_ws payload) with
       | Some instance => [(abs_frame, instance)]
       | None => []
       end.

Definition file_entries (start_offset : Z)
    (file : Z * (string * option string)) : list (Z * list float) :=
  let '(frame_index, (_, text)) := file in
  let abs_frame := (start_offset + frame_index)%Z in
  match text with
  | Some text => flat_map (line_entries abs_frame) (readlines text)
  | None => []
  end.

(** [read_pose_entries(pose_dir)]; what it prints is left out. *)
Definition read_pose_entries (d : pose_dir)
  : result (list (Z * list float)) :=
  let base_name := pose_base_name (dir_name d) in
  start_offset ← segment_start_offset d;
  match labels d with
  | None => Ok []
  | Some listing =>
      files ← label_files (base_name ++ "_") listing;
      let files := sorted (fun a b => (fst a <=? fst b)%Z) files in
      mret (flat_map (file_entries start_offset) files)
  end.

Fixpoint read_all (pose_dirs : list pose_dir)
  : result (list (Z * list float)) :=
  match pose_dirs with
  | [] => Ok []
  | d :: rest =>
      entries ← read_pose_entries d;
      more ← read_all rest;
      mret (entries ++ more)%list
  end.

(** One record of the combined JSON array. *)
Record pose_record : Type := PoseRecord {
  frame : Z;
  pose_values : list float
}.

(** The body of [for video in videos] in [combine_pose_outputs], from the
    directories [collect_pose_dirs] returned: the array written to the
    video's [_coords.json], or [None] when nothing is written. *)
Definition combine_pose_outputs (pose_dirs : list pose_dir)
  : result (option (list pose_record)) :=
  match pose_dirs with
  | [] => Ok None
  | _ =>
      entries ← read_all pose_dirs;
      match entries with
      | [] => Ok None
      | _ =>
          let entries := sorted (fun a b => (fst a <=? fst b)%Z) entries in
          Ok (Some (List.map (fun e => PoseRecord (fst e) (snd e)) entries))
      end
  end.

End Pose.

(** *** [map_to_container_path] and the configuration of [run_job] *)

Definition CONTAINER_WORKDIR : string := "/work".

(** One entry of the [volumes] dict: [{"bind": ..., "mode": ...}]. *)
Record volume : Type := Volume {
  vol_bind : string;
  vol_mode : string
}.

(** The parts that follow the parts [base], when [base] leads. *)
Fixpoint strip_parts (base parts : list string) : option (list string) :=
  match base, parts with
  | [], _ => Some parts
  | b :: base', p :: parts' =>
      if String.eqb b p then strip_parts base' parts' else None
  | _ :: _, [] => None
  end.

(** [host_path.relative_to(base)], as the parts of the relative path;
    [None] is [ValueError]. *)
Definition relative_to (host_path base : string) : option (list string) :=
  if String.eqb (path_root host_path) (path_root base)
  then strip_parts (path_parts base) (path_parts host_path)
  else None.

(** [str(CONTAINER_WORKDIR / rel_path)] *)
Definition container_path (rel_path : list string) : string :=
  match rel_path with
  | [] => CONTAINER_WORKDIR
  | _ => CONTAINER_WORKDIR ++ "/" ++ join "/" rel_path
  end.

(** [map_to_container_path(host_path, volumes, write)] with the working
    directory [workdir] of the host: the path in the container, and the
    [volumes] dict as the call leaves it. *)
Definition map_to_container_path (workdir host_path : string)
    (volumes : gmap string volume) (write : bool)
  : string * gmap string volume :=
  match relative_to host_path workdir with
  | Some rel_path => (container_path rel_path, volumes)
  | None =>
      let host_str := Path host_path in
      let mode := if write then "rw" else "ro" in
      match volumes !! host_str with
      | Some entry =>
          if write && negb (String.eqb (vol_mode entry) "rw")
          then (host_str,
                <[host_str := Volume (vol_bind entry) "rw"]> volumes)
          else (host_str, volumes)
      | None => (host_str, <[host_str := Volume host_str mode]> volumes)
      end
  end.

(** The part of [config] that [run_job] computes from paths: the command,
    the volumes, and the entries [PROJECT], [NAME], [OUT] and [COORDS] of
    the environment. *)
Record job_config : Type := JobConfig {
  cfg_command : list string;
  cfg_volumes : gmap string volume;
  cfg_project : string;
  cfg_name : string;
  cfg_out : string;
  cfg_coords : string
}.

(** [run_job(idx, video, args, output_dir, coords_host, model_tag)] up to
    the call of [run_container], for a model tag that is a single path
    component. *)
Definition run_job (workdir video : string) (args : arguments)
    (output_dir coords_host model_tag : string) : job_config :=
  let command := if pose args then ["--pose"] else [] in
  let volumes : gmap string volume :=
    {[ Path workdir := Volume CONTAINER_WORKDIR "rw" ]} in
  let '(container_video, volumes) :=
    map_to_container_path workdir video volumes false in
  let command := (command ++ [container_video])%list in
  let command :=
    match model args with
    | Some (String c m) => (command ++ [String c m])%list
    | _ => command
    end in
  let '(project_path, volumes) :=
    map_to_container_path workdir output_dir volumes true in
  let name := path_stem video ++ "_" ++ model_tag in
  let out_path :=
    path_join output_dir (path_stem video ++ "_" ++ model_tag ++ "_yolo11.mp4") in
  let '(out, volumes) :=
    map_to_container_path workdir out_path volumes true in
  let '(coords, volumes) :=
    map_to_container_path workdir coords_host volumes true in
  JobConfig command volumes project_path name out coords.

(** *** [collect_pose_dirs] *)

Section Collect.
(** [p.is_dir()], [p.iterdir()] as the paths of the entries in the order
    the system lists them, and [p.resolve()]. *)
Variable is_dir : string -> bool.
Variable iterdir : string -> list string.
Variable resolve : string -> string.



End Collect.

End RunYoloDocker.

(** ** Vocabulary of the properties *)

Import Py CombineCoords RunYoloDocker.

Definition seg_start (s : segment) : Z := fst (fst s).
Definition seg_end (s : segment) : Z := snd (fst s).
Definition seg_count (s : segment) : Z := snd s.

(** An inclusive range that holds at least one frame, with its count. *)
Definition well_formed_segment (s : segment) : Prop :=
  (seg_start s <= seg_end s)%Z /\ seg_count s = (seg_end s - seg_start s + 1)%Z.

(** Each segment starts one frame after [prev_end], the end of the one
    before it. *)
Fixpoint chained (prev_end : Z) (segs : list segment) : Prop :=
  match segs with
  | [] => True
  | s :: rest => seg_start s = (prev_end + 1)%Z /\ chained (seg_end s) rest
  end.

Definition contiguous (segs : list segment) : Prop :=
  match segs with
  | [] => True
  | s :: rest => chained (seg_end s) rest
  end.

(** Two segments at different places of the plan share no frame: the earlier
    one ends before the later one starts. *)
Definition non_overlapping (segs : list segment) : Prop :=
  forall (i j : nat) (a b : segment),
    (i < j)%nat -> segs !! i = Some a -> segs !! j = Some b ->
    (seg_end a < seg_start b)%Z.

Definition in_segment (k : Z) (s : segment) : Prop :=
  (seg_start s <= k <= seg_end s)%Z.

(** The frames of the plan are exactly [0 .. frames - 1]. *)
Definition covers (frames : Z) (segs : list segment) : Prop :=
  forall k : Z, (0 <= k < frames)%Z <-> exists s, In s segs /\ in_segment k s.

(** *** Sample inputs *)

(** ffprobe's answer for a stream of 100 frames with no frame rate. *)
Definition probe_100_frames : probe_info :=
  Some [ <["nb_frames" := "100"]> (∅ : stream_info) ].

(** The plan the code makes for 100 frames and 3 workers, and the first plan
    the design document lists for them. *)
Definition plan_100_3 : list segment :=
  [(0, 33, 34); (34, 67, 34); (68, 99, 32)]%Z.

Definition plan_100_3_listed_first : list segment :=
  [(0, 33, 34); (34, 66, 33); (67, 99, 33)]%Z.

(** Per-segment coordinate files: a header and one record each. *)
Definition tab : string := String TAB "".
Definition newline : string := String NL "".

Definition sample_header : string :=
  join tab ["#frame"; "x"; "y"; "w"; "h"; "id"; "cls"].

Definition sample_record (frame_field : string) : string :=
  join tab [frame_field; "0.5"; "0.5"; "0.2"; "0.1"; "1"; "0"].

Definition sample_coords : gmap string node :=
  <["run" := Directory]>
  (<["run/segment_0_9_coords.txt" :=
       TextFile (sample_header ++ newline ++ sample_record "2" ++ newline)]>
  (<["run/segment_10_19_coords.txt" :=
       TextFile (sample_header ++ newline ++ sample_record "2" ++ newline)]>
  (<["run/segment_120_239_coords.txt" := TextFile (sample_record "5")]> ∅))).

(** The same directory with the pose directory of the first segment, as a
    pose run leaves it beside the clips. *)
Definition sample_coords_directory : gmap string node :=
  <["run/segment_0_9_pose" := Directory]> sample_coords.

(** The lines a path gives the merge when reading it does not fail. *)
Definition lines_of_node (found : node) : list string :=
  match found with
  | TextFile text => readlines text
  | _ => []
  end.

(** The step of the merge when reading does not fail, and the state the
    merge then reaches: what [process_file] and [merge_files] return when
    they return. *)
Definition file_step (fs : gmap string node) (st : merge_state)
    (coord_file : string) : merge_state :=
  match lookup_path fs (Path coord_file) with
  | None => say (WarnNotFound (Path coord_file)) st
  | Some found =>
      match parse_segment_filename (path_name coord_file) with
      | None => say (WarnSkipping (Path coord_file)) st
      | Some (start_frame, _) =>
          fold_left (process_line (path_name coord_file) start_frame)
                    (enumerate (lines_of_node found))
                    (say (Processing (path_name coord_file) start_frame) st)
      end
  end.

Definition merged (fs : gmap string node) (coord_files : list string)
  : merge_state :=
  fold_left (file_step fs) (sorted String.leb coord_files)
            (MergeState [] false []).


(** The interpreter converts between text and integers of at most 4300
    digits ([sys.int_max_str_digits]); [py_int] and [py_str] have no such
    limit. Names and lines of at most that many characters stay clear of
    it: a frame field and a start frame read from them, and their sum, have
    fewer digits. *)
Definition INT_MAX_STR_DIGITS : nat := 4300.

Definition within_digit_limit (fs : gmap string node)
    (coord_files : list string) : bool :=
  forallb
    (fun coord_file =>
       (String.length (path_name coord_file) <=? INT_MAX_STR_DIGITS)%nat
       && forallb
            (fun line => (String.length line <=? INT_MAX_STR_DIGITS)%nat)
            (match lookup_path fs (Path coord_file) with
             | Some found => lines_of_node found
             | None => []
             end))
    coord_files.

(** A header line of a coordinate file. *)
Definition is_header (line : string) : bool := startswith line "#".

(** The lines the merge reads from one file, newline removed: none when the
    file is missing or its name gives no segment range. *)
Definition lines_of_file (fs : gmap string node) (coord_file : string)
  : list string :=
  match lookup_path fs (Path coord_file),
        parse_segment_filename (path_name coord_file) with
  | Some found, Some _ =>
      List.map (rstrip_chars is_newline) (lines_of_node found)
  | _, _ => []
  end.

(** All the lines the merge reads, in the order it reads them. *)
Definition lines_read (fs : gmap string node) (coord_files : list string)
  : list string :=
  flat_map (lines_of_file fs) (sorted String.leb coord_files).

(** The headers kept so far are the first header read so far, and the flag
    says whether there is one. *)
Definition header_invariant (st : merge_state) (seen : list string) : Prop :=
  List.filter is_header (combined_lines st)
  = firstn 1 (List.filter is_header seen)
  /\ (header_written st = true <-> List.filter is_header seen <> []).

(** The records of the output: its lines other than the header. *)
Definition data_lines (st : merge_state) : list string :=
  List.filter (fun l => negb (is_header l)) (combined_lines st).

(** The record a raw line of a segment file contributes, if any: seven
    tab-separated fields whose first reads as an integer, that integer moved
    by the segment's start frame. *)
Definition corrected_record (start_frame : Z) (raw : string) : option string :=
  let line := rstrip_chars is_newline raw in
  if is_header line then None
  else match split TAB line with
       | p0 :: rest =>
           if (List.length rest =? 6)%nat then
             match py_int p0 with
             | Some n => Some (join tab (py_str (n + start_frame) :: rest))
             | None => None
             end
           else None
       | [] => None
       end.

Definition records_of_file (fs : gmap string node) (coord_file : string)
  : list string :=
  match lookup_path fs (Path coord_file),
        parse_segment_filename (path_name coord_file) with
  | Some found, Some (start_frame, _) =>
      flat_map (fun raw => option_list (corrected_record start_frame raw))
               (lines_of_node found)
  | _, _ => []
  end.

(** Where a record [l] of the line-oriented output comes from: a line of the
    file [coord_file], named for the segment starting at [start_frame], whose
    first field reads [n]; [l] is that line with [n + start_frame] as its
    first field. *)
Definition line_record_origin (fs : gmap string node) (coord_file : string)
    (l : string) : Prop :=
  exists (text : string) (start_frame end_frame : Z) (raw p0 : string)
         (rest : list string) (n : Z),
    fs !! Path coord_file = Some (TextFile text)
    /\ parse_segment_filename (path_name coord_file)
       = Some (start_frame, end_frame)
    /\ In raw (readlines text)
    /\ is_header (rstrip_chars is_newline raw) = false
    /\ split TAB (rstrip_chars is_newline raw) = p0 :: rest
    /\ List.length rest = 6%nat
    /\ py_int p0 = Some n
    /\ l = join tab (py_str (n + start_frame) :: rest).

(** The value of a decimal numeral read after the digits that gave [acc]. *)
Fixpoint uint_value (d : Decimal.uint) (acc : Z) : Z :=
  match d with
  | Decimal.Nil => acc
  | Decimal.D0 d => uint_value d (10 * acc + 0)
  | Decimal.D1 d => uint_value d (10 * acc + 1)
  | Decimal.D2 d => uint_value d (10 * acc + 2)
  | Decimal.D3 d => uint_value d (10 * acc + 3)
  | Decimal.D4 d => uint_value d (10 * acc + 4)
  | Decimal.D5 d => uint_value d (10 * acc + 5)
  | Decimal.D6 d => uint_value d (10 * acc + 6)
  | Decimal.D7 d => uint_value d (10 * acc + 7)
  | Decimal.D8 d => uint_value d (10 * acc + 8)
  | Decimal.D9 d => uint_value d (10 * acc + 9)
  end%Z.

(** The first field of a record. *)
Definition frame_field (l : string) : string := hd EmptyString (split TAB l).

(** No character of [s] is a tab. *)
Fixpoint tab_free (s : string) : bool :=
  match s with
  | EmptyString => true
  | String c s' => negb (Ascii.eqb c TAB) && tab_free s'
  end.

(** Where an entry [e = (frame, values)] of the structured merge comes from:
    a line of a label file of the pose directory [d], the file named for the
    local frame [frame_index]; the entry's frame is the directory's start
    offset plus that local frame. *)
Definition pose_entry_origin (py_float : string -> option float)
    (d : pose_dir) (e : Z * list float) : Prop :=
  exists (listing : list (string * option string)) (name text frame_part : string)
         (frame_index start_offset : Z) (line : string),
    segment_start_offset d = Ok start_offset
    /\ labels d = Some listing
    /\ In (name, Some text) listing
    /\ label_frame_part (pose_base_name (dir_name d) ++ "_") name
       = Some frame_part
    /\ py_int frame_part = Some frame_index
    /\ In line (readlines text)
    /\ strip line <> EmptyString
    /\ floats_of py_float (split_ws (strip line)) = Some (snd e)
    /\ fst e = (start_offset + frame_index)%Z.

(** The pose directory of the segment that starts at frame 120, with the
    label file of its local frame 5. *)
Definition sample_pose_dir : pose_dir :=
  PoseDir "segment_120_239_pose"
          (Some [("segment_120_239_5.txt", Some "0 0.5 0.5 0.25 0.125")]).

Definition sample_pose_values : list float :=
  [0; 0.5; 0.5; 0.25; 0.125]%float.

(** The clip the materializer keeps for a segment. *)
Definition clip_path (tmp_dir : string) (seg : segment) : string :=
  segment_file tmp_dir (seg_start seg) (seg_end seg) "mp4".

Definition skip_event (tmp_dir : string) (seg : segment) : segment_event :=
  SkippingExisting (clip_path tmp_dir seg) (seg_start seg) (seg_end seg).

(** A transcoder that exits with status 1 and writes nothing. *)
Definition failing_ffmpeg (cmd : list string) (fs : gmap string string)
  : option (Z * gmap string string) := Some (1%Z, fs).

(** A transcoder that cannot be started. *)
Definition missing_ffmpeg (cmd : list string) (fs : gmap string string)
  : option (Z * gmap string string) := None.

Definition fixed_6f (fps : float) : string := "30.000000".

(** A segment directory where the clips of the plan for 100 frames and 3
    workers are already there. *)
Definition sample_clips : gmap string string :=
  <["/data/run_yolo11_segments/segment_0_33.mp4" := "clip-a"]>
  (<["/data/run_yolo11_segments/segment_34_67.mp4" := "clip-b"]>
  (<["/data/run_yolo11_segments/segment_68_99.mp4" := "clip-c"]> ∅)).

(** The same directory with the first clip only. *)
Definition sample_first_clip : gmap string string :=
  <["/data/run_yolo11_segments/segment_0_33.mp4" := "clip-a"]> ∅.

Definition sample_video : string := "/data/video.mp4".
Definition sample_tmp_dir : string := "/data/run_yolo11_segments".

(** The materializer after the first segment of the plan, its clip reused. *)
Definition sample_after_first : materializer :=
  Materializer sample_first_clip
    ["/data/run_yolo11_segments/segment_0_33.mp4"]
    [SkippingExisting "/data/run_yolo11_segments/segment_0_33.mp4" 0 33].

(** What the scheduling loop has established about the jobs it submitted,
    after the jobs [processed]: each is one of them, its coordinates path is
    the one computed for its video, and some test made so far found no file
    at that path. *)
Definition submitted_were_absent (resolve : string -> string)
    (exists_at : nat -> string -> bool) (args : arguments)
    (st : scheduler) (processed : list (nat * string)) : Prop :=
  (clock st <= 2 * List.length processed)%nat
  /\ Forall (fun sub =>
               In (job_idx sub, job_video sub) processed
               /\ job_coords_host sub
                  = coords_host_of resolve args (get_model_tag args)
                                   (job_video sub)
               /\ exists t, (t < clock st)%nat
                            /\ exists_at t (job_coords_host sub) = false)
            (submitted st).

(** A run on one video that was processed before: the video and its
    coordinates file are there. *)
Definition sample_done : gmap string string :=
  <["/data/video.mp4" := "video"]>
  (<["/data/video_detect_coords.txt" := "coords"]> ∅).

Definition sample_args : arguments :=
  MkArguments ["/data/video.mp4"] 1 false None None.

(** *** Rounding a float to an integer *)

(** The greatest integer not above a finite float, and the least integer not
    below it: a finite float is [m * 2^e], negated when its sign is set. *)
Definition float_floor (x : float) : option Z :=
  match Prim2SF x with
  | S754_zero _ => Some 0%Z
  | S754_finite s m e =>
      Some (Z.shiftl (if s then Z.neg m else Z.pos m) e)
  | _ => None
  end.

Definition float_ceil (x : float) : option Z :=
  match Prim2SF x with
  | S754_zero _ => Some 0%Z
  | S754_finite s m e =>
      Some (- Z.shiftl (if s then Z.pos m else Z.neg m) e)%Z
  | _ => None
  end.

(** ffprobe's answer for a clip of half a second at 25 frames a second whose
    container gives no frame count. *)
Definition probe_half_second : probe_info :=
  Some [ <["duration" := "0.500000"]>
         (<["avg_frame_rate" := "25/1"]> (∅ : stream_info)) ].

Definition half_second_stream : stream_info :=
  <["duration" := "0.500000"]> (<["avg_frame_rate" := "25/1"]> ∅).

(** The frames a plan holds, by its counts. *)
Definition total_frames (segs : list segment) : Z :=
  fold_right Z.add 0%Z (List.map seg_count segs).

(** ffprobe's answer for a stream of 3 frames. *)
Definition probe_3_frames : probe_info :=
  Some [ <["nb_frames" := "3"]> (∅ : stream_info) ].

(** [r] does not go on with a digit. *)
Definition no_leading_digit (r : string) : bool :=
  match r with
  | String c _ => negb (is_digit c)
  | EmptyString => true
  end.

(** The name [segment_{start}_{end}] that the materializer gives a clip,
    before its extension. *)
Definition segment_label (start end_ : Z) : string :=
  "segment_" ++ py_str start ++ "_" ++ py_str end_.

(** No character of [s] is [c]. *)
Fixpoint char_free (c : ascii) (s : string) : bool :=
  match s with
  | EmptyString => true
  | String x s' => negb (Ascii.eqb x c) && char_free c s'
  end.

(** A path component as [pathlib] keeps it: not empty, not [.], no slash. *)
Definition plain_part (s : string) : bool :=
  negb (String.eqb s "") && negb (String.eqb s ".") && char_free "/" s.

(** A transcoder that always starts, exits with status 0, leaves every file
    in place and leaves a file at its last argument, the clip. *)
Definition well_behaved
    (run_ffmpeg : list string -> gmap string string
                  -> option (Z * gmap string string)) : Prop :=
  forall cmd fs,
    exists after,
      run_ffmpeg cmd fs = Some (0%Z, after)
      /\ (forall p, path_exists fs p = true -> path_exists after p = true)
      /\ path_exists after (List.last cmd EmptyString) = true.

(** Such a transcoder: it writes the clip and nothing else. *)
Definition writing_ffmpeg (cmd : list string) (fs : gmap string string)
  : option (Z * gmap string string) :=
  Some (0%Z, <[List.last cmd EmptyString := "clip"]> fs).

(** The events that start a transcoder. *)
Definition is_transcode (e : segment_event) : bool :=
  match e with
  | Transcode _ _ => true
  | _ => false
  end.

(** The job a message of the scheduling loop is about. *)
Definition event_idx (e : schedule_event) : nat :=
  match e with
  | SkippingMissing idx _ => idx
  | FoundExisting idx _ _ => idx
  end.

(** The place of a submitted job in [enumerate(job_videos)]. *)
Definition submission_job (sub : submission) : nat * string :=
  (job_idx sub, job_video sub).


(** Two pose directories, listed with the later segment first, and the
    array the structured merge makes of them. *)
Definition sample_pose_dirs : list pose_dir :=
  [PoseDir "segment_10_19_pose"
     (Some [("segment_10_19_0.txt", Some "0 0.5")]);
   PoseDir "segment_0_9_pose"
     (Some [("segment_0_9_3.txt", Some "0 0.25")])].

Definition sample_pose_out : list pose_record :=
  [PoseRecord 3 [0; 0.25]%float; PoseRecord 10 [0; 0.5]%float].

(** ffprobe's answer for a stream with a frame count and no known
    duration. *)
Definition probe_no_duration : probe_info :=
  Some [ <["duration" := "N/A"]>
         (<["nb_frames" := "100"]> (∅ : stream_info)) ].

(** How a host path is reached in the container: under [/work] when it lies
    in the working directory, otherwise at its own path through a volume
    bound there, with write access when [write] asks for it. *)
Definition reaches (workdir : string) (volumes : gmap string volume)
    (write : bool) (host_path p : string) : Prop :=
  match relative_to host_path workdir with
  | Some rel_path => p = container_path rel_path
  | None =>
      p = Path host_path
      /\ exists entry,
           volumes !! p = Some entry
           /\ vol_bind entry = p
           /\ (if write then vol_mode entry = "rw" else True)
  end.

(** The volumes [run_job] may hold: the working directory, bound to [/work]
    for writing, and host paths bound to themselves. *)
Definition job_volumes (workdir : string) (volumes : gmap string volume)
  : Prop :=
  volumes !! Path workdir = Some (Volume CONTAINER_WORKDIR "rw")
  /\ forall k entry,
       volumes !! k = Some entry -> k <> Path workdir -> vol_bind entry = k.

(** A video outside the working directory [/home/user/run]. *)
Definition sample_workdir : string := "/home/user/run".
Definition sample_volumes : gmap string volume :=
  <["/data/video.mp4" := Volume "/data/video.mp4" "ro"]>
  ({[ "/home/user/run" := Volume "/work" "rw" ]}).

(** A frame-rate text that gives no usable rate: the text, or its
    denominator or numerator, is not a number; the denominator is zero; or
    the value is zero. *)
Definition unusable_rate (py_float : string -> option float)
    (value : string) : bool :=
  match partition_slash value with
  | Some (num, den) =>
      match py_float den with
      | None => true
      | Some d =>
          PrimFloat.eqb d 0%float
          || match py_float num with
             | None => true
             | Some n => PrimFloat.eqb (n / d)%float 0%float
             end
      end
  | None =>
      match py_float value with
      | None => true
      | Some x => PrimFloat.eqb x 0%float
      end
  end.

(** ** Segment planner *)

Section PlannerFacts.
Open Scope Z_scope.

Lemma segments_loop_unfold frames per_chunk (Hpos : 1 <= per_chunk) start :
  segments_loop frames per_chunk Hpos start =
    if start <? frames then
      let end_ := Z.min (frames - 1) (start + per_chunk - 1) in
      (start, end_, end_ - start + 1)
        :: segments_loop frames per_chunk Hpos (end_ + 1)
    else [].
Proof.
  simp segments_loop.
  destruct (Z_lt_dec start frames) as [Hlt | Hge]; simpl.
  - apply Z.ltb_lt in Hlt. now rewrite Hlt.
  - apply Z.nlt_ge, Z.ltb_ge in Hge. now rewrite Hge.
Qed.

(** Everything the loop guarantees from a cursor [start] on, by induction on
    the number of frames left. *)
Lemma segments_loop_spec frames per_chunk (Hpos : 1 <= per_chunk) :
  forall (n : nat) (start : Z),
    Z.to_nat (frames - start) = n ->
    let segs := segments_loop frames per_chunk Hpos start in
    chained (start - 1) segs
    /\ Forall well_formed_segment segs
    /\ (forall k, start <= k < frames <->
                  exists s, In s segs /\ in_segment k s)
    /\ (start < frames ->
        (Z.of_nat (List.length segs) - 1) * per_chunk < frames - start).
Proof.
  induction n as [n IH] using lt_wf_ind.
  intros start Hn segs. subst segs.
  rewrite segments_loop_unfold.
  destruct (start <? frames) eqn:Hlt.
  - apply Z.ltb_lt in Hlt. cbv zeta.
    set (end_ := Z.min (frames - 1) (start + per_chunk - 1)).
    assert (Hend : start <= end_ <= frames - 1) by (unfold end_; lia).
    destruct (IH (Z.to_nat (frames - (end_ + 1))) ltac:(lia) (end_ + 1) eq_refl)
      as (Hch & Hwf & Hcov & Hlen).
    replace (end_ + 1 - 1) with end_ in Hch by lia.
    repeat split.
    + unfold seg_start; simpl; lia.
    + exact Hch.
    + constructor; [ | exact Hwf].
      unfold well_formed_segment, seg_start, seg_end, seg_count; simpl; lia.
    + intros Hk.
      destruct (Z_le_dec k end_) as [Hle | Hgt].
      * exists (start, end_, end_ - start + 1). split; [now left | ].
        unfold in_segment, seg_start, seg_end; simpl; lia.
      * destruct (proj1 (Hcov k) ltac:(lia)) as (s & Hin & Hs).
        exists s. split; [now right | exact Hs].
    + destruct H as (s & [<- | Hin] & Hs).
      * unfold in_segment, seg_start, seg_end in Hs; simpl in Hs; lia.
      * pose proof (proj2 (Hcov k) (ex_intro _ s (conj Hin Hs))); lia.
    + destruct H as (s & [<- | Hin] & Hs).
      * unfold in_segment, seg_start, seg_end in Hs; simpl in Hs; lia.
      * pose proof (proj2 (Hcov k) (ex_intro _ s (conj Hin Hs))); lia.
    + intros _. simpl List.length.
      destruct (Z_lt_dec (end_ + 1) frames) as [Hmore | Hdone].
      * specialize (Hlen Hmore).
        assert (end_ = start + per_chunk - 1) by (unfold end_; lia).
        nia.
      * rewrite segments_loop_unfold.
        assert (Hge : (end_ + 1 <? frames) = false) by (apply Z.ltb_ge; lia).
        rewrite Hge. simpl. lia.
  - apply Z.ltb_ge in Hlt. split; [exact I | ]. split; [constructor | ].
    split; [ | lia].
    intros k. split; [lia | ]. intros (s & Hin & _). destruct Hin.
Qed.

(** In a chain of well-formed segments every segment lies after the end the
    chain hangs on. *)
Lemma chained_after prev_end segs :
  chained prev_end segs -> Forall well_formed_segment segs ->
  Forall (fun s => prev_end < seg_start s) segs.
Proof.
  revert prev_end. induction segs as [ | s rest IH]; intros prev_end Hch Hwf.
  - constructor.
  - destruct Hch as [Hs Hch]. inversion Hwf as [ | ? ? [Hle _] Hwf']; subst.
    constructor; [lia | ].
    eapply Forall_impl; [exact (IH _ Hch Hwf') | ].
    simpl. intros b Hb. lia.
Qed.

Lemma chained_non_overlapping prev_end segs :
  chained prev_end segs -> Forall well_formed_segment segs ->
  non_overlapping segs.
Proof.
  revert prev_end. induction segs as [ | s rest IH]; intros prev_end Hch Hwf.
  - intros i j a b _ Hi. rewrite lookup_nil in Hi. discriminate.
  - destruct Hch as [Hs Hch]. inversion Hwf as [ | ? ? Hws Hwf']; subst.
    intros i j a b Hij Hi Hj.
    destruct j as [ | j]; [lia | ]. simpl in Hj.
    destruct i as [ | i]; simpl in Hi.
    + injection Hi as <-.
      pose proof (chained_after _ _ Hch Hwf') as Hafter.
      rewrite List.Forall_forall in Hafter.
      apply Hafter. apply list_elem_of_In. eapply list_elem_of_lookup_2; eauto.
    + eapply (IH _ Hch Hwf' i j); eauto. lia.
Qed.

Lemma chained_contiguous prev_end segs : chained prev_end segs -> contiguous segs.
Proof. destruct segs; simpl; tauto. Qed.

(** The chunk size is large enough for [workers] chunks to hold all frames. *)
Lemma chunk_size_enough frames workers :
  1 <= workers -> frames <= workers * chunk_size frames workers.
Proof.
  intros Hw. unfold chunk_size.
  pose proof (Z.div_mod frames workers ltac:(lia)) as Hdm.
  pose proof (Z.mod_pos_bound frames workers ltac:(lia)) as Hmod.
  destruct (frames mod workers =? 0) eqn:Hz.
  - apply Z.eqb_eq in Hz. nia.
  - apply Z.eqb_neq in Hz. nia.
Qed.

Lemma plan_segments_spec frames workers :
  1 <= frames -> 1 <= workers ->
  exists segs,
    plan_segments frames workers = Ok segs
    /\ Forall well_formed_segment segs
    /\ contiguous segs
    /\ non_overlapping segs
    /\ covers frames segs
    /\ Z.of_nat (List.length segs) <= workers.
Proof.
  intros Hf Hw. unfold plan_segments.
  assert (Hw0 : (workers =? 0) = false) by (apply Z.eqb_neq; lia).
  rewrite Hw0. eexists. split; [reflexivity | ].
  destruct (segments_loop_spec frames (chunk_size frames workers)
              (Z.le_max_l 1 _) _ 0 eq_refl) as (Hch & Hwf & Hcov & Hlen).
  split; [exact Hwf | ].
  split; [eapply chained_contiguous; exact Hch | ].
  split; [eapply chained_non_overlapping; eassumption | ].
  split; [exact Hcov | ].
  - specialize (Hlen ltac:(lia)).
    pose proof (chunk_size_enough frames workers Hw).
    assert (1 <= chunk_size frames workers) by (unfold chunk_size; lia).
    nia.
Qed.

End PlannerFacts.

(** C1. For a probed frame count of at least 1 and at least one worker,
    [compute_segments] returns a plan of well-formed inclusive ranges, in
    order, each starting one frame after the previous one ends, no two
    sharing a frame, whose frames are exactly [0 .. frame_count - 1], and
    with at most [workers] segments. *)
Theorem compute_segments_partition
    (py_float : string -> option float) (info : probe_info)
    (workers frames : Z) (fps : float) :
  probe_video py_float info = Ok (frames, fps) ->
  (1 <= frames)%Z -> (1 <= workers)%Z ->
  exists segs,
    compute_segments py_float info workers = Ok (segs, fps)
    /\ Forall well_formed_segment segs
    /\ contiguous segs
    /\ non_overlapping segs
    /\ covers frames segs
    /\ (Z.of_nat (List.length segs) <= workers)%Z.
Proof.
  intros Hprobe Hf Hw.
  destruct (plan_segments_spec frames workers Hf Hw) as (segs & Hplan & Hrest).
  exists segs. split; [ | exact Hrest].
  unfold compute_segments. rewrite Hprobe. simpl. rewrite Hplan. reflexivity.
Qed.

Lemma compute_segments_partition_witness :
  probe_video float_of_decimal probe_100_frames = Ok (100%Z, 30%float)
  /\ exists segs,
       compute_segments float_of_decimal probe_100_frames 3 = Ok (segs, 30%float)
       /\ Forall well_formed_segment segs
       /\ contiguous segs
       /\ non_overlapping segs
       /\ covers 100 segs
       /\ (Z.of_nat (List.length segs) <= 3)%Z.
Proof.
  split; [vm_compute; reflexivity | ].
  apply (compute_segments_partition float_of_decimal probe_100_frames 3 100 30%float);
    [vm_compute; reflexivity | lia | lia].
Defined.

(** C8, as the code has it. For 100 frames and 3 workers the chunk size is
    [ceil(100 / 3) = 34] and [compute_segments] returns [0,33], [34,67],
    [68,99], of 34, 34 and 32 frames. *)
Theorem compute_segments_100_3
    (py_float : string -> option float) (info : probe_info) (fps : float) :
  probe_video py_float info = Ok (100%Z, fps) ->
  chunk_size 100 3 = 34%Z
  /\ compute_segments py_float info 3 = Ok (plan_100_3, fps).
Proof.
  intros Hprobe. split; [reflexivity | ].
  unfold compute_segments. rewrite Hprobe. reflexivity.
Qed.

Lemma compute_segments_100_3_witness :
  probe_video float_of_decimal probe_100_frames = Ok (100%Z, 30%float)
  /\ chunk_size 100 3 = 34%Z
  /\ compute_segments float_of_decimal probe_100_frames 3
     = Ok (plan_100_3, 30%float).
Proof.
  split; [vm_compute; reflexivity | ].
  apply (compute_segments_100_3 float_of_decimal probe_100_frames 30%float).
  vm_compute; reflexivity.
Defined.

(** C8, as listed first: the plan [0,33], [34,66], [67,99] is not what
    [compute_segments] returns for 100 frames and 3 workers. *)
Lemma compute_segments_100_3_not_listed_first :
  compute_segments float_of_decimal probe_100_frames 3
    = Ok (plan_100_3, 30%float)
  /\ compute_segments float_of_decimal probe_100_frames 3
     <> Ok (plan_100_3_listed_first, 30%float).
Proof.
  split; [vm_compute; reflexivity | ].
  vm_compute. intros H. discriminate H.
Qed.

(** ** Facts about [sorted] *)

Section SortedFacts.
Context {A : Type} (le : A -> A -> bool).

Lemma insert_sorted_permutation (x : A) (l : list A) :
  insert_sorted le x l ≡ₚ x :: l.
Proof.
  induction l as [ | y l IH]; simpl.
  - reflexivity.
  - destruct (le x y); [reflexivity | ].
    rewrite IH. apply Permutation_swap.
Qed.

Lemma sorted_permutation (l : list A) : sorted le l ≡ₚ l.
Proof.
  induction l as [ | x l IH]; simpl.
  - reflexivity.
  - rewrite insert_sorted_permutation. now rewrite IH.
Qed.

Hypothesis le_total : forall a b, le a b = true \/ le b a = true.

Lemma insert_sorted_Sorted (x : A) (l : list A) :
  Sorted (fun a b => Is_true (le a b)) l ->
  Sorted (fun a b => Is_true (le a b)) (insert_sorted le x l).
Proof.
  induction l as [ | y l IH]; simpl; intros Hs.
  - repeat constructor.
  - destruct (le x y) eqn:Hxy.
    + constructor; [exact Hs | ]. constructor. now rewrite Hxy.
    + inversion Hs as [ | ? ? Hs' Hhd]; subst.
      constructor; [now apply IH | ].
      assert (Hyx : Is_true (le y x)).
      { destruct (le_total x y) as [H | H]; [congruence | now rewrite H]. }
      destruct l as [ | z l]; simpl.
      * now constructor.
      * destruct (le x z); constructor; [exact Hyx | ].
        now inversion Hhd.
Qed.

Lemma sorted_Sorted (l : list A) :
  Sorted (fun a b => Is_true (le a b)) (sorted le l).
Proof.
  induction l as [ | x l IH]; simpl.
  - constructor.
  - now apply insert_sorted_Sorted.
Qed.

End SortedFacts.

(** [sorted] returns the same list for every order of the same paths. *)
Lemma sorted_paths_permutation (l1 l2 : list string) :
  l1 ≡ₚ l2 -> sorted String.leb l1 = sorted String.leb l2.
Proof.
  intros Hp.
  apply (Sorted_unique String.le).
  - apply (sorted_Sorted String.leb String.leb_total).
  - apply (sorted_Sorted String.leb String.leb_total).
  - now rewrite !sorted_permutation.
Qed.

(** ** Line-oriented merge *)

(** C3. The line-oriented merge does not depend on the order in which the
    files are handed to it: for the same files with the same contents, every
    permutation of the list gives the same file system after the call, hence
    the same bytes in the output file, and the same messages. *)
Theorem combine_coordinate_files_order_independent
    (fs : gmap string node) (files1 files2 : list string)
    (output_path : string) :
  Permutation files1 files2 ->
  combine_coordinate_files fs files1 output_path
  = combine_coordinate_files fs files2 output_path.
Proof.
  intros Hp. unfold combine_coordinate_files, merge_files.
  rewrite (sorted_paths_permutation files1 files2 Hp).
  now rewrite (Permutation_length Hp).
Qed.

Lemma combine_coordinate_files_order_independent_witness :
  Permutation ["run/segment_10_19_coords.txt"; "run/segment_0_9_coords.txt"]
              ["run/segment_0_9_coords.txt"; "run/segment_10_19_coords.txt"]
  /\ combine_coordinate_files sample_coords
       ["run/segment_10_19_coords.txt"; "run/segment_0_9_coords.txt"]
       "run/combined_coords.txt"
     = combine_coordinate_files sample_coords
         ["run/segment_0_9_coords.txt"; "run/segment_10_19_coords.txt"]
         "run/combined_coords.txt".
Proof.
  split; [apply Permutation_swap | ].
  apply combine_coordinate_files_order_independent. apply Permutation_swap.
Defined.

(** When the merge returns, it has made the steps [file_step]; it returns
    when every path it opens can be read as text. *)
Lemma process_file_ok (fs : gmap string node) (st st' : merge_state)
    (coord_file : string) :
  process_file fs st coord_file = Ok st' -> st' = file_step fs st coord_file.
Proof.
  unfold process_file, file_step.
  destruct (lookup_path fs (Path coord_file)) as [found | ]; [ | now intros [= <-]].
  destruct (parse_segment_filename (path_name coord_file))
    as [[start_frame end_frame] | ]; [ | now intros [= <-]].
  destruct found as [text | | ]; cbn [read_lines mbind result_bind];
    [ | discriminate ..].
  now intros [= <-].
Qed.

Lemma merge_loop_ok (fs : gmap string node) (files : list string) :
  forall st st',
    merge_loop fs files st = Ok st' -> st' = fold_left (file_step fs) files st.
Proof.
  induction files as [ | f files IH]; intros st st' Hloop.
  - now injection Hloop as <-.
  - cbn [merge_loop fold_left] in *.
    destruct (process_file fs st f) as [st1 | e] eqn:Hf;
      [ | discriminate Hloop].
    cbn [mbind result_bind] in Hloop.
    rewrite <- (process_file_ok _ _ _ _ Hf). now apply IH.
Qed.

Lemma merge_files_ok (fs : gmap string node) (coord_files : list string)
    (st : merge_state) :
  merge_files fs coord_files = Ok st -> st = merged fs coord_files.
Proof. apply merge_loop_ok. Qed.








(** C10. The line-oriented merge does not write its output file for every
    input list: a listed path that exists, has a segment name and names a
    directory is opened outside the two [try] blocks, so the call raises
    there, before the output is written, and returns nothing. The structured
    merge catches the same error where it opens a label file. *)
Lemma combine_coordinate_files_raises_on_directory :
  sample_coords_directory !! Path "run/segment_0_9_pose" = Some Directory
  /\ parse_segment_filename (path_name "run/segment_0_9_pose")
     = Some (0%Z, 9%Z)
  /\ is_directory sample_coords_directory "run/combined_coords.txt" = false
  /\ is_directory sample_coords_directory
       (path_parent "run/combined_coords.txt") = true
  /\ sample_coords_directory !! "run/combined_coords.txt" = None
  /\ combine_coordinate_files sample_coords_directory
       ["run/segment_0_9_coords.txt"; "run/segment_0_9_pose"]
       "run/combined_coords.txt"
     = Raise OSError.
Proof. repeat split; vm_compute; reflexivity. Qed.

(** *** Header lines *)

Lemma py_str_head (n : Z) :
  exists c s, py_str n = String c s /\ (is_digit c = true \/ c = "-"%char).
Proof.
  unfold py_str. destruct n as [ | p | p]; simpl.
  - exists "0"%char, EmptyString. split; [reflexivity | now left].
  - destruct (Pos.to_uint p); simpl; eauto 6.
  - unfold NilZero.string_of_int, NilZero.string_of_uint.
    eexists _, _. split; [reflexivity | now right].
Qed.

Lemma join_cons_head (sep : string) (c : ascii) (s : string) (rest : list string) :
  exists s', join sep (String c s :: rest) = String c s'.
Proof.
  unfold join. destruct rest as [ | r rest]; simpl; eauto.
Qed.

(** A corrected record is never a header line. *)
Lemma corrected_record_not_header (n : Z) (rest : list string) :
  is_header (join (String TAB "") (py_str n :: rest)) = false.
Proof.
  destruct (py_str_head n) as (c & s & -> & Hc).
  destruct (join_cons_head (String TAB "") c s rest) as (s' & ->).
  unfold is_header, startswith. cbn [String.prefix].
  destruct (ascii_dec "#" c) as [<- | Hne]; [ | reflexivity].
  destruct Hc as [Hd | Hm]; discriminate.
Qed.

Lemma header_invariant_same (st st' : merge_state) (seen : list string)
    (line : string) :
  combined_lines st' = combined_lines st ->
  header_written st' = header_written st ->
  is_header line = false ->
  header_invariant st seen -> header_invariant st' (seen ++ [line]).
Proof.
  intros Hc Hh Hline [Hkept Hflag]. unfold header_invariant.
  rewrite Hc, Hh, List.filter_app. simpl. rewrite Hline, app_nil_r.
  now split.
Qed.

Lemma header_invariant_line (name : string) (start_frame : Z)
    (st : merge_state) (seen : list string) (i : nat) (raw : string) :
  header_invariant st seen ->
  header_invariant (process_line name start_frame st (i, raw))
                   (seen ++ [rstrip_chars is_newline raw]).
Proof.
  intros Hinv. unfold process_line.
  set (line := rstrip_chars is_newline raw).
  destruct (String.eqb line "") eqn:Hempty.
  { apply String.eqb_eq in Hempty. rewrite Hempty.
    now apply (header_invariant_same st). }
  destruct (startswith line "#") eqn:Hhash.
  - assert (Hl : is_header line = true) by exact Hhash.
    assert (Hf : List.filter is_header (seen ++ [line])
                 = (List.filter is_header seen ++ [line])%list).
    { rewrite List.filter_app. simpl. now rewrite Hl. }
    destruct Hinv as [Hkept Hflag].
    destruct (header_written st) eqn:Hw; unfold header_invariant; rewrite Hf.
    + rewrite Hw, Hkept.
      destruct (List.filter is_header seen) as [ | h t].
      * exfalso. now apply (proj1 Hflag).
      * split; [reflexivity | ]. split; [easy | reflexivity].
    + simpl. rewrite List.filter_app, Hkept. simpl. rewrite Hl.
      destruct (List.filter is_header seen) as [ | h t].
      * split; [reflexivity | ]. split; [easy | reflexivity].
      * exfalso. assert (false = true) by (now apply (proj2 Hflag)).
        discriminate.
  - destruct (negb (List.length (split TAB line) =? 7)%nat).
    { now apply (header_invariant_same st). }
    destruct (split TAB line) as [ | p0 rest].
    { now apply (header_invariant_same st). }
    destruct (py_int p0) as [n | ].
    + destruct Hinv as [Hkept Hflag]. unfold header_invariant, emit.
      cbn [combined_lines header_written].
      assert (Hline : is_header line = false) by exact Hhash.
      rewrite !List.filter_app. cbn [List.filter].
      rewrite corrected_record_not_header, Hline, !app_nil_r. now split.
    + now apply (header_invariant_same st).
Qed.

Lemma header_invariant_lines (name : string) (start_frame : Z)
    (ils : list (nat * string)) :
  forall (st : merge_state) (seen : list string),
    header_invariant st seen ->
    header_invariant (fold_left (process_line name start_frame) ils st)
      (seen ++ List.map (fun il => rstrip_chars is_newline (snd il)) ils).
Proof.
  induction ils as [ | [i raw] ils IH]; intros st seen Hinv; simpl.
  - now rewrite app_nil_r.
  - rewrite (cons_middle _ seen), app_assoc.
    apply IH. now apply header_invariant_line.
Qed.

Lemma map_snd_enumerate {A B : Type} (f : A -> B) (l : list A) :
  List.map (fun il => f (snd il)) (enumerate l) = List.map f l.
Proof.
  unfold enumerate. generalize 0%nat.
  induction l as [ | x l IH]; intros n; simpl; [reflexivity | ].
  now rewrite IH.
Qed.

Lemma header_invariant_file (fs : gmap string node) (st : merge_state)
    (seen : list string) (coord_file : string) :
  header_invariant st seen ->
  header_invariant (file_step fs st coord_file)
                   (seen ++ lines_of_file fs coord_file).
Proof.
  intros Hinv. unfold file_step, lines_of_file.
  destruct (lookup_path fs (Path coord_file)) as [found | ]; [ | now rewrite app_nil_r].
  destruct (parse_segment_filename (path_name coord_file)) as [[start_frame ?] | ];
    [ | now rewrite app_nil_r].
  rewrite <- (map_snd_enumerate (rstrip_chars is_newline)).
  apply header_invariant_lines. exact Hinv.
Qed.

Lemma header_invariant_files (fs : gmap string node) (files : list string) :
  forall (st : merge_state) (seen : list string),
    header_invariant st seen ->
    header_invariant (fold_left (file_step fs) files st)
                     (seen ++ flat_map (lines_of_file fs) files).
Proof.
  induction files as [ | f files IH]; intros st seen Hinv; simpl.
  - now rewrite app_nil_r.
  - rewrite app_assoc. apply IH. now apply header_invariant_file.
Qed.

(** C6. Of all the header lines the merge reads, over all files in the order
    it processes them, the output keeps exactly the first: when the merge
    returns, the header lines of the output are the first header line read,
    if there is one, and nothing else. Names and lines are taken of at most
    4300 characters, within the interpreter's limit for [int]. *)
Theorem combine_keeps_first_header
    (fs : gmap string node) (coord_files : list string) (st : merge_state) :
  within_digit_limit fs coord_files = true ->
  merge_files fs coord_files = Ok st ->
  List.filter is_header (combined_lines st)
  = firstn 1 (List.filter is_header (lines_read fs coord_files))
  /\ (header_written st = true
      <-> List.filter is_header (lines_read fs coord_files) <> []).
Proof.
  intros _ Hmerge. rewrite (merge_files_ok _ _ _ Hmerge).
  unfold merged, lines_read.
  apply (header_invariant_files fs (sorted String.leb coord_files)
           (MergeState [] false []) []).
  split; [reflexivity | ]. simpl. split; [discriminate | easy].
Qed.

(** C6 on the two files of the design document, both with a header: the
    output has one. *)
Lemma combine_keeps_first_header_witness :
  within_digit_limit sample_coords
    ["run/segment_10_19_coords.txt"; "run/segment_0_9_coords.txt"] = true
  /\ exists st,
       merge_files sample_coords
         ["run/segment_10_19_coords.txt"; "run/segment_0_9_coords.txt"]
       = Ok st
       /\ List.filter is_header
            (lines_read sample_coords
               ["run/segment_10_19_coords.txt"; "run/segment_0_9_coords.txt"])
          = [sample_header; sample_header]
       /\ List.filter is_header (combined_lines st) = [sample_header].
Proof.
  assert (Hlimit : within_digit_limit sample_coords
                     ["run/segment_10_19_coords.txt";
                      "run/segment_0_9_coords.txt"] = true)
    by (vm_compute; reflexivity).
  split; [exact Hlimit | ].
  eexists. split; [vm_compute; reflexivity | ].
  split; [vm_compute; reflexivity | ].
  match goal with
  | |- List.filter is_header (combined_lines ?st) = _ =>
      rewrite (proj1 (combine_keeps_first_header sample_coords
                        ["run/segment_10_19_coords.txt";
                         "run/segment_0_9_coords.txt"] st Hlimit eq_refl))
  end.
  vm_compute. reflexivity.
Defined.

(** The two-file scenario of the design document: the record of the segment
    at offset 10 starts with 12, and the second header is not repeated. *)
Example combine_two_segment_files :
  match combine_coordinate_files sample_coords
          ["run/segment_10_19_coords.txt"; "run/segment_0_9_coords.txt"]
          "run/combined_coords.txt" with
  | Ok (fs', _) => fs' !! "run/combined_coords.txt"
  | Raise _ => None
  end
  = Some (TextFile (sample_header ++ newline ++ sample_record "2"
                    ++ newline ++ sample_record "12")).
Proof. vm_compute. reflexivity. Qed.

(** *** Frame-offset correction, line by line *)

Lemma corrected_record_origin (start_frame : Z) (raw l : string) :
  corrected_record start_frame raw = Some l <->
  exists p0 rest n,
    is_header (rstrip_chars is_newline raw) = false
    /\ split TAB (rstrip_chars is_newline raw) = p0 :: rest
    /\ List.length rest = 6%nat
    /\ py_int p0 = Some n
    /\ l = join tab (py_str (n + start_frame) :: rest).
Proof.
  unfold corrected_record.
  destruct (is_header (rstrip_chars is_newline raw)) eqn:Hh.
  { split; [discriminate | ]. intros (? & ? & ? & H & _). discriminate H. }
  destruct (split TAB (rstrip_chars is_newline raw)) as [ | p0 rest] eqn:Hs.
  { split; [discriminate | ]. intros (? & ? & ? & _ & H & _). discriminate H. }
  destruct (List.length rest =? 6)%nat eqn:Hlen.
  - apply Nat.eqb_eq in Hlen. destruct (py_int p0) as [n | ] eqn:Hn.
    + split.
      * intros [= <-]. exists p0, rest, n. repeat split; assumption.
      * intros (p0' & rest' & n' & _ & [= <- <-] & _ & Hn' & ->).
        congruence.
    + split; [discriminate | ].
      intros (p0' & rest' & n' & _ & [= <- <-] & _ & Hn' & _). congruence.
  - apply Nat.eqb_neq in Hlen. split; [discriminate | ].
    intros (p0' & rest' & n' & _ & [= <- <-] & Hl & _). contradiction.
Qed.

Lemma data_lines_line (name : string) (start_frame : Z) (st : merge_state)
    (i : nat) (raw : string) :
  data_lines (process_line name start_frame st (i, raw))
  = (data_lines st ++ option_list (corrected_record start_frame raw))%list.
Proof.
  unfold process_line, corrected_record, data_lines.
  set (line := rstrip_chars is_newline raw).
  destruct (String.eqb line "") eqn:Hempty.
  { apply String.eqb_eq in Hempty. rewrite Hempty. simpl.
    now rewrite app_nil_r. }
  fold (is_header line).
  destruct (is_header line) eqn:Hh.
  { destruct (header_written st); cbn [combined_lines option_list];
      rewrite ?List.filter_app; cbn [List.filter]; rewrite ?Hh; simpl;
      now rewrite ?app_nil_r. }
  destruct (split TAB line) as [ | p0 rest] eqn:Hs.
  { simpl. now rewrite app_nil_r. }
  cbn [List.length]. change (S (List.length rest) =? 7)%nat
    with (List.length rest =? 6)%nat.
  destruct (List.length rest =? 6)%nat; cbn [negb].
  - destruct (py_int p0) as [n | ]; cbn [say emit combined_lines option_list].
    + rewrite List.filter_app. cbn [List.filter]. unfold tab.
      now rewrite corrected_record_not_header.
    + now rewrite app_nil_r.
  - cbn [say combined_lines option_list]. now rewrite app_nil_r.
Qed.

Lemma data_lines_lines (name : string) (start_frame : Z)
    (ils : list (nat * string)) :
  forall st : merge_state,
    data_lines (fold_left (process_line name start_frame) ils st)
    = (data_lines st
       ++ flat_map (fun il => option_list (corrected_record start_frame (snd il)))
                   ils)%list.
Proof.
  induction ils as [ | [i raw] ils IH]; intros st.
  - simpl. now rewrite app_nil_r.
  - cbn [fold_left flat_map snd]. rewrite IH, data_lines_line.
    now rewrite <- app_assoc.
Qed.

Lemma flat_map_snd_enumerate {A B : Type} (f : A -> list B) (l : list A) :
  flat_map (fun il => f (snd il)) (enumerate l) = flat_map f l.
Proof.
  unfold enumerate. generalize 0%nat.
  induction l as [ | x l IH]; intros n; simpl; [reflexivity | ].
  now rewrite IH.
Qed.

Lemma data_lines_file (fs : gmap string node) (st : merge_state)
    (coord_file : string) :
  data_lines (file_step fs st coord_file)
  = (data_lines st ++ records_of_file fs coord_file)%list.
Proof.
  unfold file_step, records_of_file.
  destruct (lookup_path fs (Path coord_file)) as [found | ]; [ | now rewrite app_nil_r].
  destruct (parse_segment_filename (path_name coord_file)) as [[start_frame ?] | ];
    [ | now rewrite app_nil_r].
  rewrite data_lines_lines.
  now rewrite (flat_map_snd_enumerate
                 (fun raw => option_list (corrected_record start_frame raw))).
Qed.

Lemma data_lines_files (fs : gmap string node) (files : list string) :
  forall st : merge_state,
    data_lines (fold_left (file_step fs) files st)
    = (data_lines st ++ flat_map (records_of_file fs) files)%list.
Proof.
  induction files as [ | f files IH]; intros st; simpl.
  - now rewrite app_nil_r.
  - rewrite IH, data_lines_file. now rewrite <- app_assoc.
Qed.

(** The records of the output are the corrected records of the files, file
    after file in sorted order, line after line. *)
Lemma data_lines_merge (fs : gmap string node) (coord_files : list string) :
  data_lines (merged fs coord_files)
  = flat_map (records_of_file fs) (sorted String.leb coord_files).
Proof.
  unfold merged. now rewrite data_lines_files.
Qed.

Lemma lookup_path_text (fs : gmap string node) (p text : string) :
  lookup_path fs p = Some (TextFile text) <-> fs !! p = Some (TextFile text).
Proof.
  unfold lookup_path. destruct (fs !! p) as [found | ]; [reflexivity | ].
  destruct (String.eqb p "." || String.eqb p "/"); split; discriminate.
Qed.

Lemma records_of_file_origin (fs : gmap string node) (coord_file l : string) :
  In l (records_of_file fs coord_file) <-> line_record_origin fs coord_file l.
Proof.
  unfold records_of_file, line_record_origin.
  setoid_rewrite <- lookup_path_text.
  destruct (lookup_path fs (Path coord_file)) as [found | ].
  2: { split; [intros [] | ]. intros (? & ? & ? & ? & ? & ? & ? & H & _).
       discriminate H. }
  destruct (parse_segment_filename (path_name coord_file)) as [[start_frame e] | ].
  2: { split; [intros [] | ]. intros (? & ? & ? & ? & ? & ? & ? & _ & H & _).
       discriminate H. }
  destruct found as [text | | ]; cbn [lines_of_node flat_map].
  2, 3: split; [intros [] | ];
        intros (? & ? & ? & ? & ? & ? & ? & H & _); discriminate H.
  rewrite in_flat_map. split.
  - intros (raw & Hraw & Hl).
    assert (Hrec : corrected_record start_frame raw = Some l).
    { destruct (corrected_record start_frame raw); simpl in Hl;
        [destruct Hl as [-> | []]; reflexivity | destruct Hl]. }
    apply corrected_record_origin in Hrec.
    destruct Hrec as (p0 & rest & n & Hh & Hs & Hlen & Hn & ->).
    exists text, start_frame, e, raw, p0, rest, n. repeat split; assumption.
  - intros (text' & s' & e' & raw & p0 & rest & n
            & [= <-] & [= <- <-] & Hraw & Hh & Hs & Hlen & Hn & ->).
    exists raw. split; [exact Hraw | ].
    assert (Hrec : corrected_record start_frame raw
                   = Some (join tab (py_str (n + start_frame) :: rest))).
    { apply corrected_record_origin. exists p0, rest, n.
      repeat split; assumption. }
    rewrite Hrec. now left.
Qed.

(** A line of the output is a record exactly when it is the corrected form of
    a line of one of the files. *)
Lemma merged_record_origin (fs : gmap string node) (coord_files : list string)
    (l : string) :
  In l (combined_lines (merged fs coord_files)) /\ is_header l = false
  <-> exists coord_file,
        In coord_file coord_files /\ line_record_origin fs coord_file l.
Proof.
  assert (Hdata : In l (combined_lines (merged fs coord_files))
                  /\ is_header l = false
                  <-> In l (data_lines (merged fs coord_files))).
  { unfold data_lines. rewrite List.filter_In.
    destruct (is_header l); simpl; intuition congruence. }
  rewrite Hdata, data_lines_merge, in_flat_map.
  split; intros (f & Hf & Hl); exists f; split.
  - eapply Permutation_in; [apply sorted_permutation | exact Hf].
  - now apply records_of_file_origin.
  - eapply Permutation_in; [symmetry; apply sorted_permutation | exact Hf].
  - now apply records_of_file_origin.
Qed.

(** *** [int(str(n)) = n] *)

Lemma int_digits_numeral (d : Decimal.uint) :
  forall (st : int_lex) (acc : Z),
    d <> Decimal.Nil \/ st = AfterDigit ->
    int_digits st acc (NilEmpty.string_of_uint d) = Some (uint_value d acc).
Proof.
  induction d; intros st acc Hst; cbn [NilEmpty.string_of_uint int_digits uint_value];
    try (change (is_digit _) with true; cbv iota;
         rewrite IHd by (now right); reflexivity).
  destruct Hst as [Hd | ->]; [now contradiction Hd | reflexivity].
Qed.

Lemma uint_value_acc (d : Decimal.uint) :
  forall acc : positive,
    uint_value d (Z.pos acc) = Z.pos (Pos.of_uint_acc d acc).
Proof.
  induction d; intros acc; cbn [uint_value Pos.of_uint_acc];
    try reflexivity;
    match goal with
    | |- uint_value _ ?z = _ =>
        match goal with
        | |- _ = Z.pos (Pos.of_uint_acc _ ?q) =>
            replace z with (Z.pos q) by lia; apply IHd
        end
    end.
Qed.

Lemma uint_value_of_uint (d : Decimal.uint) :
  uint_value d 0 = Z.of_N (Pos.of_uint d).
Proof.
  induction d; cbn [uint_value Pos.of_uint]; try reflexivity;
    try exact IHd;
    match goal with
    | |- uint_value _ ?z = Z.of_N (N.pos (Pos.of_uint_acc _ ?q)) =>
        change z with (Z.pos q); apply uint_value_acc
    end.
Qed.

Lemma uint_value_to_uint (p : positive) : uint_value (Pos.to_uint p) 0 = Z.pos p.
Proof.
  rewrite uint_value_of_uint, DecimalPos.Unsigned.of_to. reflexivity.
Qed.

Lemma to_uint_not_nil (p : positive) : Pos.to_uint p <> Decimal.Nil.
Proof.
  intros Hnil. pose proof (DecimalPos.Unsigned.of_to p) as H.
  rewrite Hnil in H. discriminate H.
Qed.

Lemma numeral_all_digits (d : Decimal.uint) :
  all_digits (NilEmpty.string_of_uint d) = true.
Proof. induction d; simpl; auto. Qed.

Lemma digit_not_space (c : ascii) :
  is_digit c = true -> is_int_space c = false.
Proof.
  unfold is_digit, is_int_space. intros H.
  apply andb_true_iff in H. destruct H as [H1 H2].
  apply Nat.leb_le in H1. apply Nat.leb_le in H2.
  apply orb_false_iff. split.
  - apply andb_false_iff. right. apply Nat.leb_gt. lia.
  - apply Nat.eqb_neq. lia.
Qed.

Lemma rstrip_digits (s : string) :
  all_digits s = true -> rstrip_chars is_int_space s = s.
Proof.
  induction s as [ | c s IH]; simpl; [reflexivity | ].
  intros H. apply andb_true_iff in H. destruct H as [Hc Hs].
  rewrite (IH Hs). destruct s; [ | reflexivity].
  now rewrite (digit_not_space c Hc).
Qed.

Lemma lstrip_digits (s : string) :
  all_digits s = true -> lstrip_chars is_int_space s = s.
Proof.
  destruct s as [ | c s]; simpl; [reflexivity | ].
  intros H. apply andb_true_iff in H. destruct H as [Hc _].
  now rewrite (digit_not_space c Hc).
Qed.

Lemma py_int_numeral (d : Decimal.uint) :
  d <> Decimal.Nil ->
  py_int (NilEmpty.string_of_uint d) = Some (uint_value d 0).
Proof.
  intros Hd. unfold py_int.
  rewrite (lstrip_digits _ (numeral_all_digits d)).
  rewrite (rstrip_digits _ (numeral_all_digits d)).
  rewrite <- (int_digits_numeral d AtStart 0 (or_introl Hd)).
  destruct d; [now contradiction Hd | reflexivity ..].
Qed.

Lemma py_int_negated_numeral (d : Decimal.uint) :
  d <> Decimal.Nil ->
  py_int (String "-" (NilEmpty.string_of_uint d)) = Some (- uint_value d 0)%Z.
Proof.
  intros Hd. unfold py_int.
  assert (Hstrip : rstrip_chars is_int_space
                     (lstrip_chars is_int_space
                        (String "-" (NilEmpty.string_of_uint d)))
                   = String "-" (NilEmpty.string_of_uint d)).
  { cbn [lstrip_chars]. change (is_int_space "-") with false. cbv iota.
    cbn [rstrip_chars]. rewrite (rstrip_digits _ (numeral_all_digits d)).
    destruct d; [now contradiction Hd | reflexivity ..]. }
  rewrite Hstrip. cbv iota beta.
  now rewrite (int_digits_numeral d AtStart 0 (or_introl Hd)).
Qed.

(** Reading back what [str] printed gives the number. *)
Lemma py_int_py_str (n : Z) : py_int (py_str n) = Some n.
Proof.
  destruct n as [ | p | p]; [reflexivity | | ].
  - unfold py_str. cbn [Z.to_int NilZero.string_of_int].
    pose proof (to_uint_not_nil p) as Hd.
    replace (NilZero.string_of_uint (Pos.to_uint p))
      with (NilEmpty.string_of_uint (Pos.to_uint p))
      by (unfold NilZero.string_of_uint; destruct (Pos.to_uint p);
          [now contradiction Hd | reflexivity ..]).
    now rewrite (py_int_numeral _ Hd), uint_value_to_uint.
  - unfold py_str. cbn [Z.to_int NilZero.string_of_int].
    pose proof (to_uint_not_nil p) as Hd.
    replace (NilZero.string_of_uint (Pos.to_uint p))
      with (NilEmpty.string_of_uint (Pos.to_uint p))
      by (unfold NilZero.string_of_uint; destruct (Pos.to_uint p);
          [now contradiction Hd | reflexivity ..]).
    now rewrite (py_int_negated_numeral _ Hd), uint_value_to_uint.
Qed.

Lemma digit_not_tab (c : ascii) : is_digit c = true -> Ascii.eqb c TAB = false.
Proof.
  intros Hc. destruct (Ascii.eqb c TAB) eqn:Heq; [ | reflexivity].
  apply Ascii.eqb_eq in Heq. subst c. discriminate Hc.
Qed.

Lemma digits_tab_free (s : string) : all_digits s = true -> tab_free s = true.
Proof.
  induction s as [ | c s IH]; simpl; [reflexivity | ].
  intros H. apply andb_true_iff in H. destruct H as [Hc Hs].
  now rewrite (digit_not_tab c Hc), (IH Hs).
Qed.

Lemma py_str_tab_free (n : Z) : tab_free (py_str n) = true.
Proof.
  unfold py_str.
  destruct n as [ | p | p]; cbn [Z.to_int NilZero.string_of_int];
    [reflexivity | | ].
  - unfold NilZero.string_of_uint.
    destruct (Pos.to_uint p) eqn:Hd; try reflexivity;
      rewrite <- Hd; apply digits_tab_free, numeral_all_digits.
  - cbn [tab_free]. change (Ascii.eqb "-" TAB) with false. cbn [negb andb].
    unfold NilZero.string_of_uint.
    destruct (Pos.to_uint p) eqn:Hd; try reflexivity;
      rewrite <- Hd; apply digits_tab_free, numeral_all_digits.
Qed.

Lemma split_tab_free_head (x y : string) :
  tab_free x = true ->
  hd EmptyString (split TAB (x ++ String TAB y)) = x
  /\ hd EmptyString (split TAB x) = x.
Proof.
  induction x as [ | c x IH]; intros Hx.
  - split; reflexivity.
  - simpl in Hx. apply andb_true_iff in Hx. destruct Hx as [Hc Hx].
    apply negb_true_iff in Hc. destruct (IH Hx) as [IH1 IH2].
    change (String c x ++ String TAB y) with (String c (x ++ String TAB y)).
    cbn [split]. rewrite Hc. split.
    + destruct (split TAB (x ++ String TAB y)); simpl in *; congruence.
    + destruct (split TAB x); simpl in *; congruence.
Qed.

(** The frame field of a corrected record reads as the corrected frame. *)
Lemma frame_field_corrected (n : Z) (rest : list string) :
  py_int (frame_field (join tab (py_str n :: rest))) = Some n.
Proof.
  unfold frame_field, join, tab.
  destruct rest as [ | r rest]; cbn [String.concat].
  - rewrite (proj2 (split_tab_free_head (py_str n) "" (py_str_tab_free n))).
    apply py_int_py_str.
  - change (String TAB "" ++ ?t) with (String TAB t).
    rewrite (proj1 (split_tab_free_head (py_str n) _ (py_str_tab_free n))).
    apply py_int_py_str.
Qed.

(** ** Structured merge *)

Lemma label_files_origin (prefix : string)
    (listing : list (string * option string)) :
  forall files,
    label_files prefix listing = Ok files ->
    forall (k : Z) (name : string) (text : option string),
      In (k, (name, text)) files <->
      In (name, text) listing
      /\ exists frame_part,
           label_frame_part prefix name = Some frame_part
           /\ py_int frame_part = Some k.
Proof.
  induction listing as [ | [name0 text0] listing IH]; intros files Hfiles k name text.
  - injection Hfiles as <-. simpl. tauto.
  - cbn [label_files] in Hfiles.
    destruct (label_frame_part prefix name0) as [fp0 | ] eqn:Hpart.
    + destruct (py_int fp0) as [k0 | ] eqn:Hint; [ | discriminate Hfiles].
      cbn in Hfiles.
      destruct (label_files prefix listing) as [more | ]; [ | discriminate Hfiles].
      cbn in Hfiles. injection Hfiles as <-.
      specialize (IH more eq_refl k name text). simpl. rewrite IH. split.
      * intros [[= <- <- <-] | [Hin Hfp]]; [ | tauto].
        split; [now left | eauto].
      * intros [[[= <- <-] | Hin] (fp & Hfp & Hk)]; [ | right; eauto].
        left. congruence.
    + rewrite (IH files Hfiles k name text). simpl. split; [tauto | ].
      intros [[[= <- <-] | Hin] (fp & Hfp & Hk)]; [congruence | eauto].
Qed.

Section PoseFacts.
Variable py_float : string -> option float.

Lemma line_entries_origin (abs_frame : Z) (line : string) (e : Z * list float) :
  In e (line_entries py_float abs_frame line) <->
  strip line <> EmptyString
  /\ floats_of py_float (split_ws (strip line)) = Some (snd e)
  /\ fst e = abs_frame.
Proof.
  unfold line_entries.
  destruct (String.eqb (strip line) "") eqn:Hempty.
  - apply String.eqb_eq in Hempty. simpl. tauto.
  - apply String.eqb_neq in Hempty.
    destruct (floats_of py_float (split_ws (strip line))) as [instance | ]; simpl.
    + destruct e as [f v]. simpl. split.
      * intros [[= <- <-] | []]. auto.
      * intros (_ & [= <-] & <-). now left.
    + split; [tauto | ]. intros (_ & H & _). discriminate H.
Qed.

Lemma file_entries_origin (start_offset k : Z) (name : string)
    (text : option string) (e : Z * list float) :
  In e (file_entries py_float start_offset (k, (name, text))) <->
  exists t line,
    text = Some t /\ In line (readlines t)
    /\ strip line <> EmptyString
    /\ floats_of py_float (split_ws (strip line)) = Some (snd e)
    /\ fst e = (start_offset + k)%Z.
Proof.
  unfold file_entries. destruct text as [t | ].
  - rewrite in_flat_map. split.
    + intros (line & Hline & He). apply line_entries_origin in He.
      exists t, line. tauto.
    + intros (t' & line & [= <-] & Hline & He). exists line.
      split; [exact Hline | ]. now apply line_entries_origin.
  - simpl. split; [tauto | ]. intros (t & line & H & _). discriminate H.
Qed.

Lemma read_pose_entries_origin (d : pose_dir) (entries : list (Z * list float)) :
  read_pose_entries py_float d = Ok entries ->
  forall e, In e entries <-> pose_entry_origin py_float d e.
Proof.
  unfold read_pose_entries, pose_entry_origin. intros Hread e.
  destruct (segment_start_offset d) as [off | ]; [ | discriminate Hread].
  cbn in Hread.
  destruct (labels d) as [listing | ].
  2: { injection Hread as <-. split; [intros [] | ].
       intros (? & ? & ? & ? & ? & ? & ? & _ & H & _). discriminate H. }
  destruct (label_files (pose_base_name (dir_name d) ++ "_") listing)
    as [files | ] eqn:Hfiles; [ | discriminate Hread].
  cbn in Hread. injection Hread as <-.
  rewrite in_flat_map. split.
  - intros ([k [name text]] & Hin & He).
    apply (Permutation_in _ (sorted_permutation _ files)) in Hin.
    apply (label_files_origin _ _ _ Hfiles) in Hin.
    destruct Hin as [Hlist (fp & Hfp & Hk)].
    apply file_entries_origin in He.
    destruct He as (t & line & -> & Hline & Hne & Hfl & Hfr).
    exists listing, name, t, fp, k, off, line. repeat split; assumption.
  - intros (listing' & name & t & fp & k & off' & line
            & [= <-] & [= <-] & Hlist & Hfp & Hk & Hline & Hne & Hfl & Hfr).
    exists (k, (name, Some t)). split.
    + apply (Permutation_in _ (Permutation_sym (sorted_permutation _ files))).
      apply (label_files_origin _ _ _ Hfiles). eauto.
    + apply file_entries_origin. exists t, line. repeat split; assumption.
Qed.

Lemma read_all_origin (pose_dirs : list pose_dir) :
  forall entries,
    read_all py_float pose_dirs = Ok entries ->
    forall e, In e entries <->
              exists d, In d pose_dirs /\ pose_entry_origin py_float d e.
Proof.
  induction pose_dirs as [ | d rest IH]; intros entries Hread e.
  - injection Hread as <-. split; [intros [] | intros (? & [] & _)].
  - cbn [read_all] in Hread.
    destruct (read_pose_entries py_float d) as [here | ] eqn:Hd;
      [ | discriminate Hread].
    cbn in Hread.
    destruct (read_all py_float rest) as [more | ]; [ | discriminate Hread].
    cbn in Hread. injection Hread as <-.
    rewrite in_app_iff, (read_pose_entries_origin d here Hd e),
      (IH more eq_refl e).
    split.
    + intros [Ho | (d' & Hin & Ho)]; [exists d | exists d']; simpl; auto.
    + intros (d' & [<- | Hin] & Ho); [now left | right; eauto].
Qed.

(** Every record of the combined array is an entry of one of the pose
    directories, and conversely. *)
Lemma combine_pose_outputs_origin (pose_dirs : list pose_dir)
    (out : list pose_record) :
  combine_pose_outputs py_float pose_dirs = Ok (Some out) ->
  forall r : pose_record,
    In r out <->
    exists d, In d pose_dirs
              /\ pose_entry_origin py_float d (frame r, pose_values r).
Proof.
  unfold combine_pose_outputs. intros Hout r.
  destruct pose_dirs as [ | d0 rest]; [discriminate Hout | ].
  destruct (read_all py_float (d0 :: rest)) as [entries | ] eqn:Hread;
    [ | discriminate Hout].
  unfold mbind, result_bind in Hout.
  pose proof (sorted_permutation (fun a b => (fst a <=? fst b)%Z) entries)
    as Hperm.
  set (ordered := sorted (fun a b => (fst a <=? fst b)%Z) entries) in *.
  clearbody ordered.
  destruct entries as [ | e0 entries]; [discriminate Hout | ].
  injection Hout as <-.
  rewrite <- (read_all_origin _ _ Hread (frame r, pose_values r)).
  rewrite in_map_iff. split.
  - intros ([f v] & <- & Hin). cbn [frame pose_values fst snd].
    eapply Permutation_in; [exact Hperm | exact Hin].
  - intros Hin. exists (frame r, pose_values r). split; [now destruct r | ].
    eapply Permutation_in; [symmetry; exact Hperm | exact Hin].
Qed.

End PoseFacts.

(** ** Frame-offset correction *)

(** C2. In both merges the frame of a merged record is its local frame plus
    the start offset of the segment it comes from.
    - Line-oriented merge: when the merge returns, the records of the output
      (its lines other than the header) are exactly the lines
      [str(n + start_frame)], tab, the six other fields, for the seven-field
      lines of the files whose first field reads [n], [start_frame] being
      parsed from the file's name; and the first field of such a record
      reads back as [n + start_frame].
    - Structured merge: the records of the combined array are exactly the
      entries [(start_offset + frame_index, values)] for the lines of the
      label files, [frame_index] being the local frame in the file's name and
      [start_offset] the offset in the directory's name.
    The names and lines of the line-oriented merge are taken of at most 4300
    characters, within the interpreter's limit for [int] and [str]. *)
Theorem merged_frame_is_local_plus_offset :
  (forall (fs : gmap string node) (coord_files : list string)
          (st : merge_state),
      within_digit_limit fs coord_files = true ->
      merge_files fs coord_files = Ok st ->
      forall l : string,
        In l (combined_lines st) /\ is_header l = false
        <-> exists coord_file,
              In coord_file coord_files /\ line_record_origin fs coord_file l)
  /\ (forall (n start_frame : Z) (rest : list string),
         (String.length (py_str (n + start_frame)) <= INT_MAX_STR_DIGITS)%nat ->
         py_int (frame_field (join tab (py_str (n + start_frame) :: rest)))
         = Some (n + start_frame)%Z)
  /\ (forall (py_float : string -> option float) (pose_dirs : list pose_dir)
             (out : list pose_record),
         combine_pose_outputs py_float pose_dirs = Ok (Some out) ->
         forall r : pose_record,
           In r out <->
           exists d, In d pose_dirs
                     /\ pose_entry_origin py_float d (frame r, pose_values r)).
Proof.
  split; [ | split].
  - intros fs coord_files st _ Hmerge l.
    rewrite (merge_files_ok _ _ _ Hmerge). apply merged_record_origin.
  - intros n start_frame rest _. apply frame_field_corrected.
  - exact combine_pose_outputs_origin.
Qed.

(** C2, the instance of the design document: local frame 5 of the segment
    that starts at frame 120 is frame 125 of the merged output, in the
    line-oriented merge and in the structured merge. *)
Lemma merged_frame_is_local_plus_offset_witness :
  within_digit_limit sample_coords ["run/segment_120_239_coords.txt"] = true
  /\ (String.length (py_str (5 + 120)) <= INT_MAX_STR_DIGITS)%nat
  /\ (exists st,
        merge_files sample_coords ["run/segment_120_239_coords.txt"] = Ok st
        /\ In (sample_record "125") (combined_lines st)
        /\ is_header (sample_record "125") = false)
  /\ py_int (frame_field (sample_record "125")) = Some 125%Z
  /\ exists out,
       combine_pose_outputs float_of_decimal [sample_pose_dir] = Ok (Some out)
       /\ In (PoseRecord 125 sample_pose_values) out.
Proof.
  destruct merged_frame_is_local_plus_offset as (Hline & Hback & Hpose).
  assert (Hlimit : within_digit_limit sample_coords
                     ["run/segment_120_239_coords.txt"] = true)
    by (vm_compute; reflexivity).
  assert (Hdigits : (String.length (py_str (5 + 120))
                     <= INT_MAX_STR_DIGITS)%nat)
    by (vm_compute; lia).
  split; [exact Hlimit | ]. split; [exact Hdigits | ].
  split; [ | split].
  - eexists. split; [vm_compute; reflexivity | ].
    apply (Hline sample_coords ["run/segment_120_239_coords.txt"] _ Hlimit
                 eq_refl (sample_record "125")).
    exists "run/segment_120_239_coords.txt". split; [now left | ].
    exists (sample_record "5"), 120%Z, 239%Z, (sample_record "5"), "5",
      ["0.5"; "0.5"; "0.2"; "0.1"; "1"; "0"], 5%Z.
    repeat split; try reflexivity. now left.
  - exact (Hback 5%Z 120%Z ["0.5"; "0.5"; "0.2"; "0.1"; "1"; "0"] Hdigits).
  - eexists. split; [vm_compute; reflexivity | ].
    apply (Hpose float_of_decimal [sample_pose_dir] _ eq_refl
                 (PoseRecord 125 sample_pose_values)).
    exists sample_pose_dir. split; [now left | ].
    exists [("segment_120_239_5.txt", Some "0 0.5 0.5 0.25 0.125")],
      "segment_120_239_5.txt", "0 0.5 0.5 0.25 0.125", "5", 5%Z, 120%Z,
      "0 0.5 0.5 0.25 0.125".
    repeat split; try reflexivity; try (now left). discriminate.
Defined.

(** ** Segment materializer *)

Section MaterializerFacts.
Variable format_6f : float -> string.
Variable run_ffmpeg :
  list string -> gmap string string -> option (Z * gmap string string).
Variables (video : string) (fps : float) (tmp_dir : string).

Local Abbreviation step :=
  (materialize_segment format_6f run_ffmpeg video fps tmp_dir).
Local Abbreviation run_all :=
  (materialize_all format_6f run_ffmpeg video fps tmp_dir).

Lemma materialize_all_app (pre post : list segment) :
  forall st, run_all (pre ++ post) st = (st' ← run_all pre st; run_all post st').
Proof.
  induction pre as [ | seg pre IH]; intros st; [reflexivity | ].
  cbn [app materialize_all].
  destruct (materialize_segment format_6f run_ffmpeg video fps tmp_dir st seg)
    as [st1 | e]; [ | reflexivity].
  apply IH.
Qed.

(** A step only appends to the job list and to the events. *)
Lemma materialize_segment_grows (st st' : materializer) (seg : segment) :
  step st seg = Ok st' ->
  exists more_jobs more_events,
    jobs st' = (jobs st ++ more_jobs)%list
    /\ events st' = (events st ++ more_events)%list.
Proof.
  unfold materialize_segment. destruct seg as [[start end_] count].
  destruct (path_exists (disk st) (segment_file tmp_dir start end_ "mp4")).
  { intros [= <-]. simpl. eauto. }
  destruct (run_ffmpeg _ _) as [[returncode after] | ]; [ | discriminate].
  destruct (negb (returncode =? 0)%Z
            || negb (path_exists after (segment_file tmp_dir start end_ "mp4"))).
  - intros [= <-]. cbn [jobs events]. exists [].
    rewrite app_nil_r, <- app_assoc. eauto.
  - intros [= <-]. cbn [jobs events]. rewrite <- app_assoc. eauto.
Qed.

Lemma materialize_all_grows (segs : list segment) :
  forall st final,
    run_all segs st = Ok final ->
    exists more_jobs more_events,
      jobs final = (jobs st ++ more_jobs)%list
      /\ events final = (events st ++ more_events)%list.
Proof.
  induction segs as [ | seg segs IH]; intros st final Hrun.
  - injection Hrun as <-. exists [], []. now rewrite !app_nil_r.
  - cbn [materialize_all] in Hrun.
    destruct (materialize_segment format_6f run_ffmpeg video fps tmp_dir st seg)
      as [st1 | e] eqn:Hstep; [ | discriminate Hrun].
    destruct (materialize_segment_grows _ _ _ Hstep) as (j1 & e1 & Hj1 & He1).
    destruct (IH _ _ Hrun) as (j2 & e2 & Hj2 & He2).
    exists (j1 ++ j2)%list, (e1 ++ e2)%list.
    rewrite Hj2, He2, Hj1, He1, <- !app_assoc. now split.
Qed.

(** A segment whose clip is there: one message, no process, the clip added to
    the jobs. *)
Lemma materialize_existing (st : materializer) (seg : segment) :
  path_exists (disk st) (clip_path tmp_dir seg) = true ->
  step st seg
  = Ok (Materializer (disk st) (jobs st ++ [clip_path tmp_dir seg])
                     (events st ++ [skip_event tmp_dir seg])).
Proof.
  unfold materialize_segment, clip_path, skip_event.
  destruct seg as [[start end_] count]. cbn [seg_start seg_end fst snd].
  now intros ->.
Qed.

Lemma materialize_all_existing (segs : list segment) :
  forall st,
    Forall (fun seg => path_exists (disk st) (clip_path tmp_dir seg) = true) segs ->
    run_all segs st
    = Ok (Materializer (disk st)
            (jobs st ++ List.map (clip_path tmp_dir) segs)
            (events st ++ List.map (skip_event tmp_dir) segs)).
Proof.
  induction segs as [ | seg segs IH]; intros st Hall.
  - simpl. rewrite !app_nil_r. now destruct st.
  - inversion Hall as [ | ? ? Hseg Hrest]; subst.
    cbn [materialize_all]. rewrite (materialize_existing st seg Hseg).
    cbn [mbind result_bind]. rewrite IH by exact Hrest.
    cbn [disk jobs events List.map]. now rewrite <- !app_assoc.
Qed.

(** C4. Materialization reuses what is there. When the clip of a segment is
    on disk as the loop reaches it, the step starts no transcoder, prints the
    one "Skipping existing" message, leaves the disk as it is, adds the clip
    to the jobs and raises nothing; the call goes on with the segments after
    it, and the clip is in the job list it returns. When the clips of all the
    segments are there, the call returns them all, in order, and its only
    events are the "Skipping existing" messages. *)
Theorem create_segment_files_reuses_existing :
  (forall (fs : gmap string string) (pre post : list segment) (seg : segment)
          (st : materializer),
      run_all pre (Materializer fs [] []) = Ok st ->
      path_exists (disk st) (clip_path tmp_dir seg) = true ->
      let st' := Materializer (disk st) (jobs st ++ [clip_path tmp_dir seg])
                              (events st ++ [skip_event tmp_dir seg]) in
      step st seg = Ok st'
      /\ create_segment_files format_6f run_ffmpeg fs video
           (pre ++ seg :: post) fps tmp_dir
         = run_all post st'
      /\ forall final,
           create_segment_files format_6f run_ffmpeg fs video
             (pre ++ seg :: post) fps tmp_dir = Ok final ->
           exists later_jobs later_events,
             jobs final = (jobs st ++ [clip_path tmp_dir seg] ++ later_jobs)%list
             /\ events final
                = (events st ++ [skip_event tmp_dir seg] ++ later_events)%list)
  /\ (forall (fs : gmap string string) (segments : list segment),
         Forall (fun seg => path_exists fs (clip_path tmp_dir seg) = true)
                segments ->
         create_segment_files format_6f run_ffmpeg fs video segments fps tmp_dir
         = Ok (Materializer fs (List.map (clip_path tmp_dir) segments)
                 (List.map (skip_event tmp_dir) segments))).
Proof.
  split.
  - intros fs pre post seg st Hpre Hthere st'.
    assert (Hstep : step st seg = Ok st') by now apply materialize_existing.
    assert (Hcall : create_segment_files format_6f run_ffmpeg fs video
                      (pre ++ seg :: post) fps tmp_dir = run_all post st').
    { unfold create_segment_files.
      rewrite materialize_all_app, Hpre. cbn [mbind result_bind].
      cbn [materialize_all]. now rewrite Hstep. }
    split; [exact Hstep | ]. split; [exact Hcall | ].
    intros final Hfinal. rewrite Hcall in Hfinal.
    destruct (materialize_all_grows _ _ _ Hfinal) as (j & e & Hj & He).
    exists j, e. subst st'. cbn [jobs events] in Hj, He.
    now rewrite Hj, He, <- !app_assoc.
  - intros fs segments Hall. unfold create_segment_files.
    now rewrite materialize_all_existing.
Qed.

(** The jobs of a call are clips of its segments. *)
Lemma materialize_segment_jobs (st st' : materializer) (seg : segment) :
  step st seg = Ok st' ->
  forall j, In j (jobs st') -> In j (jobs st) \/ j = clip_path tmp_dir seg.
Proof.
  unfold materialize_segment, clip_path. destruct seg as [[start end_] count].
  cbn [seg_start seg_end fst snd].
  destruct (path_exists (disk st) (segment_file tmp_dir start end_ "mp4")).
  { intros [= <-] j. cbn [jobs]. rewrite in_app_iff. simpl. intuition. }
  destruct (run_ffmpeg _ _) as [[returncode after] | ]; [ | discriminate].
  destruct (negb (returncode =? 0)%Z
            || negb (path_exists after (segment_file tmp_dir start end_ "mp4"))).
  - intros [= <-] j. cbn [jobs]. auto.
  - intros [= <-] j. cbn [jobs]. rewrite in_app_iff. simpl. intuition.
Qed.

Lemma materialize_all_jobs (segs : list segment) :
  forall st final,
    run_all segs st = Ok final ->
    forall j, In j (jobs final) ->
              In j (jobs st) \/ In j (List.map (clip_path tmp_dir) segs).
Proof.
  induction segs as [ | seg segs IH]; intros st final Hrun j Hj.
  - injection Hrun as <-. now left.
  - cbn [materialize_all] in Hrun.
    destruct (step st seg) as [st1 | e] eqn:Hstep; [ | discriminate Hrun].
    destruct (IH _ _ Hrun j Hj) as [H1 | Hlater]; [ | right; now right].
    destruct (materialize_segment_jobs _ _ _ Hstep j H1) as [H0 | ->];
      [now left | right; now left].
Qed.

(** C9. A failed transcode drops its segment and nothing else. When the clip
    of a segment is not on disk as the loop reaches it and the transcoder
    exits with a non-zero status, or exits leaving no clip, the step prints
    the "ffmpeg failed" warning, removes whatever partial clip there is, adds
    nothing to the jobs and raises nothing; the call goes on with the
    segments after it, so the jobs it returns are those of the segments
    before and those of the segments after, and the failed clip is not among
    them unless another segment of the batch names the same clip. *)
Theorem create_segment_files_drops_failed
    (fs : gmap string string) (pre post : list segment)
    (start end_ count : Z) (st : materializer)
    (returncode : Z) (after : gmap string string) :
  let seg : segment := (start, end_, count) in
  let out_path := clip_path tmp_dir seg in
  let log_path := segment_file tmp_dir start end_ "log" in
  let ffmpeg_cmd :=
    ffmpeg_command format_6f video start end_ count fps out_path in
  let st' :=
    Materializer (delete out_path after) (jobs st)
      (events st ++ [Creating out_path start end_; Command ffmpeg_cmd;
                     Transcode ffmpeg_cmd log_path;
                     FfmpegFailed out_path log_path]) in
  run_all pre (Materializer fs [] []) = Ok st ->
  path_exists (disk st) out_path = false ->
  run_ffmpeg ffmpeg_cmd (<[log_path := EmptyString]> (disk st))
    = Some (returncode, after) ->
  returncode <> 0%Z \/ path_exists after out_path = false ->
  step st seg = Ok st'
  /\ create_segment_files format_6f run_ffmpeg fs video
       (pre ++ seg :: post) fps tmp_dir
     = run_all post st'
  /\ forall final,
       create_segment_files format_6f run_ffmpeg fs video
         (pre ++ seg :: post) fps tmp_dir = Ok final ->
       (exists later_jobs later_events,
           run_all post st' = Ok final
           /\ jobs final = (jobs st ++ later_jobs)%list
           /\ events final = (events st' ++ later_events)%list)
       /\ (~ In out_path (List.map (clip_path tmp_dir) (pre ++ post)) ->
           ~ In out_path (jobs final)).
Proof.
  intros seg out_path log_path ffmpeg_cmd st' Hpre Habsent Hrun Hfail.
  assert (Hstep : step st seg = Ok st').
  { unfold materialize_segment, seg.
    change (segment_file tmp_dir start end_ "mp4") with out_path.
    fold log_path. fold ffmpeg_cmd. rewrite Habsent, Hrun.
    subst st'.
    destruct Hfail as [Hrc | Hgone].
    - apply Z.eqb_neq in Hrc. rewrite Hrc. cbn [negb orb].
      rewrite <- app_assoc. cbn [app].
      destruct (path_exists after out_path) eqn:Hthere; [reflexivity | ].
      unfold path_exists in Hthere.
      destruct (after !! out_path) eqn:Hlook; [discriminate Hthere | ].
      now rewrite (delete_id _ _ Hlook).
    - rewrite Hgone, orb_true_r. rewrite <- app_assoc. cbn [app].
      unfold path_exists in Hgone.
      destruct (after !! out_path) eqn:Hlook; [discriminate Hgone | ].
      now rewrite (delete_id _ _ Hlook). }
  assert (Hcall : create_segment_files format_6f run_ffmpeg fs video
                    (pre ++ seg :: post) fps tmp_dir = run_all post st').
  { unfold create_segment_files.
    rewrite materialize_all_app, Hpre. cbn [mbind result_bind].
    cbn [materialize_all]. now rewrite Hstep. }
  split; [exact Hstep | ]. split; [exact Hcall | ].
  intros final Hfinal. rewrite Hcall in Hfinal. split.
  - destruct (materialize_all_grows _ _ _ Hfinal) as (j & e & Hj & He).
    exists j, e. split; [exact Hfinal | ]. split; [exact Hj | exact He].
  - intros Hfresh Hin. apply Hfresh.
    rewrite List.map_app, in_app_iff.
    destruct (materialize_all_jobs _ _ _ Hfinal _ Hin) as [Hold | Hlater];
      [left | now right].
    subst st'. cbn [jobs] in Hold.
    destruct (materialize_all_jobs _ _ _ Hpre _ Hold) as [[] | Hpre_in].
    exact Hpre_in.
Qed.

End MaterializerFacts.

(** C4 on the plan for 100 frames and 3 workers with its three clips on disk:
    the call returns the three clips although no transcoder can be started. *)
Lemma create_segment_files_reuses_existing_witness :
  Forall (fun seg => path_exists sample_clips (clip_path sample_tmp_dir seg) = true)
         plan_100_3
  /\ create_segment_files fixed_6f missing_ffmpeg sample_clips sample_video
       plan_100_3 30%float sample_tmp_dir
     = Ok (Materializer sample_clips
             ["/data/run_yolo11_segments/segment_0_33.mp4";
              "/data/run_yolo11_segments/segment_34_67.mp4";
              "/data/run_yolo11_segments/segment_68_99.mp4"]
             [SkippingExisting "/data/run_yolo11_segments/segment_0_33.mp4" 0 33;
              SkippingExisting "/data/run_yolo11_segments/segment_34_67.mp4" 34 67;
              SkippingExisting "/data/run_yolo11_segments/segment_68_99.mp4" 68 99]).
Proof.
  assert (Hall : Forall (fun seg => path_exists sample_clips
                                      (clip_path sample_tmp_dir seg) = true)
                        plan_100_3)
    by (repeat constructor).
  split; [exact Hall | ].
  exact (proj2 (create_segment_files_reuses_existing fixed_6f missing_ffmpeg
                  sample_video 30%float sample_tmp_dir)
               sample_clips plan_100_3 Hall).
Defined.

(** C9 on the same plan with the first clip on disk and a transcoder that
    exits with status 1: the second and third segments are dropped, the call
    returns the first clip. *)
Lemma create_segment_files_drops_failed_witness :
  materialize_all fixed_6f failing_ffmpeg sample_video 30%float sample_tmp_dir
    [(0, 33, 34)%Z] (Materializer sample_first_clip [] [])
  = Ok sample_after_first
  /\ path_exists (disk sample_after_first)
       (clip_path sample_tmp_dir (34, 67, 34)%Z) = false
  /\ (1 <> 0)%Z
  /\ exists final,
       create_segment_files fixed_6f failing_ffmpeg sample_first_clip
         sample_video plan_100_3 30%float sample_tmp_dir = Ok final
       /\ jobs final = ["/data/run_yolo11_segments/segment_0_33.mp4"]
       /\ ~ In "/data/run_yolo11_segments/segment_34_67.mp4" (jobs final).
Proof.
  assert (Hpre : materialize_all fixed_6f failing_ffmpeg sample_video 30%float
                   sample_tmp_dir [(0, 33, 34)%Z]
                   (Materializer sample_first_clip [] [])
                 = Ok sample_after_first) by reflexivity.
  assert (Habsent : path_exists (disk sample_after_first)
                      (clip_path sample_tmp_dir (34, 67, 34)%Z) = false)
    by reflexivity.
  assert (Hrc : (1 <> 0)%Z) by discriminate.
  split; [exact Hpre | ]. split; [exact Habsent | ]. split; [exact Hrc | ].
  destruct (create_segment_files_drops_failed fixed_6f failing_ffmpeg
              sample_video 30%float sample_tmp_dir sample_first_clip
              [(0, 33, 34)%Z] [(68, 99, 32)%Z] 34 67 34 sample_after_first
              1%Z _ Hpre Habsent eq_refl (or_introl Hrc))
    as (_ & _ & Hfinal).
  eexists. split; [vm_compute; reflexivity | ].
  split; [reflexivity | ].
  apply (Hfinal _ eq_refl). vm_compute. intuition discriminate.
Defined.

(** ** Job scheduler *)

Section ScheduleFacts.
Variable resolve : string -> string.
Variable exists_at : nat -> string -> bool.
Variable args : arguments.

Local Abbreviation coords_of :=
  (coords_host_of resolve args (get_model_tag args)).
Local Abbreviation invariant := (submitted_were_absent resolve exists_at args).

Lemma schedule_job_invariant (st : scheduler) (processed : list (nat * string))
    (job : nat * string) :
  invariant st processed ->
  invariant (schedule_job resolve exists_at args (get_model_tag args) st job)
            (processed ++ [job]).
Proof.
  intros [Hclock Hsub]. destruct job as [idx video].
  assert (Hold : forall c, (clock st <= c)%nat ->
            Forall (fun sub =>
               In (job_idx sub, job_video sub) (processed ++ [(idx, video)])
               /\ job_coords_host sub = coords_of (job_video sub)
               /\ exists t, (t < c)%nat
                            /\ exists_at t (job_coords_host sub) = false)
                   (submitted st)).
  { intros c Hc. eapply Forall_impl; [exact Hsub | ].
    intros sub (Hin & Hco & t & Ht & Hex). split; [ | split; [exact Hco | ] ].
    - apply in_app_iff. now left.
    - exists t. split; [lia | exact Hex]. }
  unfold schedule_job, submitted_were_absent. rewrite length_app. cbn [List.length].
  destruct (failed st).
  { split; [lia | apply Hold; lia]. }
  destruct (exists_at (clock st) video); cbn [negb].
  - destruct (negb (truthy (coords args)) && String.eqb (path_name video) "").
    { cbn [clock submitted]. split; [lia | apply Hold; lia]. }
    destruct (exists_at (S (clock st)) (coords_of video)) eqn:Hcoords;
      cbn [clock submitted].
    + split; [lia | apply Hold; lia].
    + split; [lia | ]. apply Forall_app. split; [apply Hold; lia | ].
      constructor; [ | constructor]. cbn [job_idx job_video job_coords_host].
      split; [apply in_app_iff; right; now left | ].
      split; [reflexivity | ]. exists (S (clock st)). split; [lia | exact Hcoords].
  - cbn [clock submitted]. split; [lia | apply Hold; lia].
Qed.

Lemma schedule_fold_invariant (todo : list (nat * string)) :
  forall (st : scheduler) (processed : list (nat * string)),
    invariant st processed ->
    invariant (fold_left (schedule_job resolve exists_at args (get_model_tag args))
                         todo st)
              (processed ++ todo).
Proof.
  induction todo as [ | job todo IH]; intros st processed Hinv.
  - simpl. now rewrite app_nil_r.
  - cbn [fold_left]. rewrite (cons_middle job processed todo), app_assoc.
    apply IH. now apply schedule_job_invariant.
Qed.

Lemma schedule_jobs_invariant (job_videos : list string) :
  invariant (schedule_jobs resolve exists_at args job_videos)
            (enumerate job_videos).
Proof.
  unfold schedule_jobs.
  apply (schedule_fold_invariant (enumerate job_videos)
           (Scheduler 0 [] [] None) []).
  split; [simpl; lia | constructor].
Qed.

Lemma enumerate_length {A : Type} (l : list A) :
  List.length (enumerate l) = List.length l.
Proof.
  unfold enumerate. rewrite length_combine, length_seq. lia.
Qed.

(** C5. A job whose coordinates file is there is not run. If, at every test
    the scheduling loop makes, the coordinates path of a video holds a file,
    no submitted job is for that video; if that is so for every video of the
    run, nothing is submitted to the pool. *)
Theorem scheduler_skips_existing_coords (job_videos : list string) :
  let bound := (2 * List.length job_videos)%nat in
  let run := schedule_jobs resolve exists_at args job_videos in
  (forall video,
      (forall t, (t < bound)%nat -> exists_at t (coords_of video) = true) ->
      forall sub, In sub (submitted run) -> job_video sub <> video)
  /\ ((forall video, In video job_videos ->
         forall t, (t < bound)%nat -> exists_at t (coords_of video) = true) ->
      submitted run = []).
Proof.
  cbv zeta.
  destruct (schedule_jobs_invariant job_videos) as [Hclock Hsub].
  rewrite enumerate_length in Hclock. rewrite List.Forall_forall in Hsub.
  split.
  - intros video Hthere sub Hin Hvideo.
    destruct (Hsub sub Hin) as (_ & Hco & t & Ht & Habsent).
    rewrite Hco, Hvideo, Hthere in Habsent by lia. discriminate Habsent.
  - intros Hthere.
    destruct (submitted (schedule_jobs resolve exists_at args job_videos))
      as [ | sub rest] eqn:Hrun; [reflexivity | exfalso].
    destruct (Hsub sub (or_introl eq_refl)) as (Hjob & Hco & t & Ht & Habsent).
    apply in_combine_r in Hjob.
    rewrite Hco, (Hthere _ Hjob) in Habsent by lia. discriminate Habsent.
Qed.

End ScheduleFacts.

(** C5 on a second run over a video whose coordinates file the first run
    wrote: nothing is submitted. *)
Lemma scheduler_skips_existing_coords_witness :
  (forall video, In video ["/data/video.mp4"] ->
     forall t, (t < 2)%nat ->
       path_exists sample_done
         (coords_host_of (fun p => p) sample_args (get_model_tag sample_args) video)
       = true)
  /\ submitted (schedule_jobs (fun p => p) (fun _ => path_exists sample_done)
                              sample_args ["/data/video.mp4"]) = []
  /\ reported (schedule_jobs (fun p => p) (fun _ => path_exists sample_done)
                             sample_args ["/data/video.mp4"])
     = [FoundExisting 0 "/data/video_detect_coords.txt" "/data/video.mp4"].
Proof.
  assert (Hthere : forall video, In video ["/data/video.mp4"] ->
            forall t, (t < 2)%nat ->
              path_exists sample_done
                (coords_host_of (fun p => p) sample_args
                                (get_model_tag sample_args) video) = true).
  { intros video [<- | []] t _. reflexivity. }
  split; [exact Hthere | ]. split; [ | reflexivity].
  exact (proj2 (scheduler_skips_existing_coords (fun p => p)
                  (fun _ => path_exists sample_done) sample_args
                  ["/data/video.mp4"])
               Hthere).
Defined.

(** ** Media prober *)

Section FloatFacts.
Open Scope Z_scope.

Lemma digits2_pos_bounds (m : positive) :
  2 ^ (Z.pos (digits2_pos m) - 1) <= Z.pos m < 2 ^ Z.pos (digits2_pos m).
Proof.
  induction m as [m IH | m IH | ]; cbn [digits2_pos].
  - rewrite Pos2Z.inj_succ.
    replace (Z.succ (Z.pos (digits2_pos m)) - 1)
      with (Z.succ (Z.pos (digits2_pos m) - 1)) by lia.
    rewrite !Z.pow_succ_r by lia. lia.
  - rewrite Pos2Z.inj_succ.
    replace (Z.succ (Z.pos (digits2_pos m)) - 1)
      with (Z.succ (Z.pos (digits2_pos m) - 1)) by lia.
    rewrite !Z.pow_succ_r by lia. lia.
  - simpl. lia.
Qed.

(** A finite binary64 value is normal, with a mantissa of 53 bits, or
    subnormal, with the least exponent. *)
Lemma valid_finite (s : bool) (m : positive) (e : Z) :
  valid_binary (S754_finite s m e) = true ->
  e = Z.max (Z.pos (digits2_pos m) + e - 53) (-1074).
Proof.
  cbv [SpecFloat.valid_binary bounded canonical_mantissa fexp SpecFloat.emin
       prec emax].
  intros H. apply andb_true_iff in H. destruct H as [H _].
  apply Z.eqb_eq in H. lia.
Qed.

Lemma shiftl_at_least_1 (m : positive) (e : Z) :
  -52 <= e -> 2 ^ (- e) <= Z.pos m -> 1 <= Z.shiftl (Z.pos m) e.
Proof.
  intros He Hm. destruct (Z_le_dec 0 e) as [Hpos | Hneg].
  - rewrite Z.shiftl_mul_pow2 by lia.
    pose proof (Z.pow_pos_nonneg 2 e ltac:(lia) Hpos). nia.
  - rewrite Z.shiftl_div_pow2 by lia.
    apply Z.div_le_lower_bound; [apply Z.pow_pos_nonneg; lia | lia].
Qed.

(** [int(max(1, x))] is the floor of [x], raised to 1. *)
Lemma int_max_1_floor (x : float) (n : Z) :
  float_floor x = Some n -> int_max_1 x = Ok (Z.max 1 n).
Proof.
  unfold float_floor, int_max_1, int_of_float.
  rewrite FloatAxioms.ltb_spec.
  pose proof (FloatAxioms.Prim2SF_valid x) as Hvalid.
  change (Prim2SF 1%float) with (S754_finite false 4503599627370496 (-52)).
  destruct (Prim2SF x) as [s | s | | s m e]; try discriminate.
  - intros [= <-]. reflexivity.
  - intros [= <-]. apply valid_finite in Hvalid.
    pose proof (digits2_pos_bounds m) as Hdigits.
    destruct s.
    + cbn [SFltb SFcompare].
      assert (Z.shiftl (Z.neg m) e < 0).
      { destruct (Z_lt_dec (Z.shiftl (Z.neg m) e) 0) as [ | Hge]; [assumption | ].
        apply Z.nlt_ge, Z.shiftl_nonneg in Hge. lia. }
      f_equal. lia.
    + cbn [SFltb SFcompare].
      destruct (Z.compare_spec (-52) e) as [Heq | Hlt | Hgt].
      * subst e. clear Hvalid Hdigits.
        rewrite Pos.compare_cont_spec. cbn [Pos.switch_Eq].
        rewrite Z.shiftl_div_pow2 by lia.
        change (2 ^ (- -52)) with 4503599627370496.
        destruct (Pos.compare_spec 4503599627370496 m) as [Hm | Hm | Hm].
        -- subst m. reflexivity.
        -- assert (1 <= Z.pos m / 4503599627370496)
             by (apply Z.div_le_lower_bound; lia).
           f_equal. lia.
        -- assert (Hzero : Z.pos m / 4503599627370496 = 0).
           { apply Z.div_small. split; [apply Pos2Z.is_nonneg | ].
             exact Hm. }
           rewrite Hzero. reflexivity.
      * assert (Hnormal : Z.pos (digits2_pos m) = 53) by lia.
        rewrite Hnormal in Hdigits.
        assert (1 <= Z.shiftl (Z.pos m) e).
        { apply shiftl_at_least_1; [lia | ].
          destruct (Z_le_dec 0 e).
          - destruct (Z.eq_dec e 0) as [-> | Hne]; [change (2 ^ (- 0)) with 1; lia | ].
            rewrite Z.pow_neg_r by lia. lia.
          - assert (2 ^ (- e) <= 2 ^ 52) by (apply Z.pow_le_mono_r; lia).
            change (2 ^ (53 - 1)) with (2 ^ 52) in Hdigits. lia. }
        f_equal. lia.
      * assert (Hsmall : Z.pos (digits2_pos m) <= 53) by lia.
        assert (Z.shiftl (Z.pos m) e = 0).
        { rewrite Z.shiftl_div_pow2 by lia. apply Z.div_small.
          assert (2 ^ Z.pos (digits2_pos m) <= 2 ^ 53)
            by (apply Z.pow_le_mono_r; lia).
          assert (2 ^ 53 <= 2 ^ (- e)) by (apply Z.pow_le_mono_r; lia).
          lia. }
        f_equal. lia.
Qed.

End FloatFacts.

Lemma float_of_text_not_exit (py_float : string -> option float)
    (s msg : string) :
  float_of_text py_float s <> Raise (SystemExit msg).
Proof. unfold float_of_text. destruct (py_float s); discriminate. Qed.

Lemma int_of_float_not_exit (x : float) (msg : string) :
  int_of_float x <> Raise (SystemExit msg).
Proof. unfold int_of_float. destruct (Prim2SF x) as [ | | | [] ]; discriminate. Qed.

Lemma int_max_1_not_exit (x : float) (msg : string) :
  int_max_1 x <> Raise (SystemExit msg).
Proof.
  unfold int_max_1. destruct (PrimFloat.ltb 1 x);
    [apply int_of_float_not_exit | discriminate].
Qed.

(** C7, as the code has it. With no usable frame-count field and a positive
    duration, the frame count is the product of duration and frame rate
    rounded down (the floor of a finite product, not its ceiling) and raised
    to 1 when it is less. Probing stops with "Unable to determine frame count
    for segmentation" exactly when there is no usable frame-count field and
    the duration, absent or read from its field, is not positive. *)
Theorem probe_video_frame_count :
  (forall (py_float : string -> option float) (info : probe_info)
          (stream : stream_info) (duration : float) (n : Z),
      selected_stream info = Ok stream ->
      usable_nb_frames (stream !! "nb_frames") = None ->
      stream_duration py_float stream = Ok duration ->
      PrimFloat.ltb 0%float duration = true ->
      float_floor (duration * stream_fps py_float stream)%float = Some n ->
      probe_video py_float info
      = Ok (Z.max 1 n, stream_fps py_float stream))
  /\ (forall (py_float : string -> option float) (info : probe_info)
             (msg : string),
         probe_video py_float info = Raise (SystemExit msg) <->
         msg = NO_FRAME_COUNT
         /\ exists stream duration,
              selected_stream info = Ok stream
              /\ usable_nb_frames (stream !! "nb_frames") = None
              /\ stream_duration py_float stream = Ok duration
              /\ PrimFloat.ltb 0%float duration = false).
Proof.
  split.
  - intros py_float info stream duration n Hstream Hnb Hdur Hpos Hfloor.
    unfold probe_video. rewrite Hstream. cbn [mbind result_bind].
    rewrite Hdur. cbn [mbind result_bind]. rewrite Hnb, Hpos.
    now rewrite (int_max_1_floor _ _ Hfloor).
  - intros py_float info msg. unfold probe_video.
    destruct (selected_stream info) as [stream | e] eqn:Hstream;
      cbn [mbind result_bind].
    2: { split; [ | intros (_ & s0 & d0 & Hs & _); discriminate Hs].
         intros [= ->]. destruct info as [ [ | ] | ]; discriminate Hstream. }
    destruct (stream_duration py_float stream) as [duration | e] eqn:Hdur;
      cbn [mbind result_bind].
    2: { split.
         - intros [= ->]. unfold stream_duration in Hdur.
           destruct (stream !! "duration") as [ [ | c s] | ];
             try discriminate Hdur.
           now apply float_of_text_not_exit in Hdur.
         - intros (_ & s0 & d0 & Hs & _ & Hd & _).
           injection Hs as <-. rewrite Hdur in Hd. discriminate Hd. }
    destruct (usable_nb_frames (stream !! "nb_frames")) as [nb | ] eqn:Hnb.
    { split.
      - destruct (float_of_text py_float nb) as [x | e] eqn:Hx;
          cbn [mbind result_bind].
        + destruct (int_of_float x) as [k | e] eqn:Hk; cbn [mbind result_bind];
            [discriminate | ].
          intros [= ->]. now apply int_of_float_not_exit in Hk.
        + intros [= ->]. now apply float_of_text_not_exit in Hx.
      - intros (_ & s0 & d0 & Hs & Hn & _).
        injection Hs as <-. rewrite Hnb in Hn. discriminate Hn. }
    destruct (PrimFloat.ltb 0 duration) eqn:Hpos.
    { split.
      - destruct (int_max_1 (duration * stream_fps py_float stream))
          as [k | e] eqn:Hk; cbn [mbind result_bind]; [discriminate | ].
        intros [= ->]. now apply int_max_1_not_exit in Hk.
      - intros (_ & s0 & d0 & Hs & _ & Hd & Hp).
        injection Hs as <-. rewrite Hdur in Hd. injection Hd as <-.
        rewrite Hpos in Hp. discriminate Hp. }
    cbn [mbind result_bind]. split.
    + intros [= <-]. split; [reflexivity | ]. exists stream, duration. auto.
    + intros [-> _]. reflexivity.
Qed.

(** C7 on a clip of half a second at 25 frames a second: 12 frames. *)
Lemma probe_video_frame_count_witness :
  selected_stream probe_half_second = Ok half_second_stream
  /\ usable_nb_frames (half_second_stream !! "nb_frames") = None
  /\ stream_duration float_of_decimal half_second_stream = Ok 0.5%float
  /\ PrimFloat.ltb 0%float 0.5%float = true
  /\ float_floor (0.5 * stream_fps float_of_decimal half_second_stream)%float
     = Some 12%Z
  /\ probe_video float_of_decimal probe_half_second
     = Ok (Z.max 1 12, stream_fps float_of_decimal half_second_stream).
Proof.
  assert (H1 : selected_stream probe_half_second = Ok half_second_stream)
    by reflexivity.
  assert (H2 : usable_nb_frames (half_second_stream !! "nb_frames") = None)
    by (vm_compute; reflexivity).
  assert (H3 : stream_duration float_of_decimal half_second_stream
               = Ok 0.5%float) by (vm_compute; reflexivity).
  assert (H4 : PrimFloat.ltb 0%float 0.5%float = true) by reflexivity.
  assert (H5 : float_floor
                 (0.5 * stream_fps float_of_decimal half_second_stream)%float
               = Some 12%Z) by (vm_compute; reflexivity).
  repeat (split; [assumption | ]).
  exact (proj1 probe_video_frame_count float_of_decimal probe_half_second
               half_second_stream 0.5%float 12%Z H1 H2 H3 H4 H5).
Defined.

(** C7, as stated: for half a second at 25 frames a second the product is
    12.5, whose ceiling is 13, and [probe_video] returns 12 frames. *)
Lemma probe_video_rounds_down_not_up :
  stream_duration float_of_decimal half_second_stream = Ok 0.5%float
  /\ stream_fps float_of_decimal half_second_stream = 25%float
  /\ (0.5 * 25)%float = 12.5%float
  /\ option_map (Z.max 1) (float_ceil 12.5%float) = Some 13%Z
  /\ probe_video float_of_decimal probe_half_second = Ok (12%Z, 25%float).
Proof. repeat split; vm_compute; reflexivity. Qed.

(** ** More on the segment planner *)

Section PlannerSizes.
Open Scope Z_scope.

(** From a cursor on, every segment holds between 1 and [per_chunk] frames,
    every segment but the last holds [per_chunk], and the counts add up to
    the frames left. *)
Lemma segments_loop_sizes frames per_chunk (Hpos : 1 <= per_chunk) :
  forall (n : nat) (start : Z),
    Z.to_nat (frames - start) = n ->
    let segs := segments_loop frames per_chunk Hpos start in
    Forall (fun s => 1 <= seg_count s <= per_chunk) segs
    /\ (forall (i : nat) (s : segment),
           segs !! i = Some s -> (S i < List.length segs)%nat ->
           seg_count s = per_chunk)
    /\ total_frames segs = Z.max 0 (frames - start).
Proof.
  induction n as [n IH] using lt_wf_ind.
  intros start Hn segs. subst segs.
  rewrite segments_loop_unfold.
  destruct (start <? frames) eqn:Hlt.
  - apply Z.ltb_lt in Hlt. cbv zeta.
    set (end_ := Z.min (frames - 1) (start + per_chunk - 1)).
    assert (Hend : start <= end_ <= frames - 1) by (unfold end_; lia).
    destruct (IH (Z.to_nat (frames - (end_ + 1))) ltac:(lia) (end_ + 1) eq_refl)
      as (Hsize & Hfull & Htotal).
    split; [ | split].
    + constructor; [ | exact Hsize].
      unfold seg_count; simpl. unfold end_. lia.
    + intros i s Hi Hmore. destruct i as [ | i].
      * injection Hi as <-. unfold seg_count; simpl.
        simpl in Hmore.
        assert (Hnext : end_ + 1 < frames).
        { destruct (Z_lt_dec (end_ + 1) frames) as [ | Hdone]; [assumption | ].
          rewrite segments_loop_unfold in Hmore.
          assert (Hge : (end_ + 1 <? frames) = false) by (apply Z.ltb_ge; lia).
          rewrite Hge in Hmore. simpl in Hmore. lia. }
        unfold end_ in *. lia.
      * simpl in Hi, Hmore. apply (Hfull i s Hi). lia.
    + unfold total_frames in *. cbn [List.map fold_right].
      rewrite Htotal. unfold seg_count; simpl. lia.
  - apply Z.ltb_ge in Hlt. split; [constructor | ]. split.
    + intros i s Hi. rewrite lookup_nil in Hi. discriminate Hi.
    + unfold total_frames. simpl. lia.
Qed.

Lemma total_frames_bound (chunk : Z) (segs : list segment) :
  Forall (fun s => 1 <= seg_count s <= chunk) segs ->
  Z.of_nat (List.length segs) <= total_frames segs
  /\ total_frames segs <= Z.of_nat (List.length segs) * chunk.
Proof.
  unfold total_frames.
  induction 1 as [ | s segs Hs _ IH]; cbn [List.map fold_right List.length].
  - lia.
  - rewrite Nat2Z.inj_succ. lia.
Qed.

End PlannerSizes.

(** X1. The sizes of a plan. For any probed frame count and a non-zero worker
    count, [compute_segments] returns a plan in which every segment holds
    between 1 and [chunk_size] frames, every segment but the last holds
    exactly [chunk_size], and the counts add up to the frame count (to 0 when
    the frame count is not positive). *)
Theorem compute_segments_sizes
    (py_float : string -> option float) (info : probe_info)
    (workers frames : Z) (fps : float) :
  probe_video py_float info = Ok (frames, fps) ->
  workers <> 0%Z ->
  exists segs,
    compute_segments py_float info workers = Ok (segs, fps)
    /\ Forall (fun s => (1 <= seg_count s <= chunk_size frames workers)%Z) segs
    /\ (forall (i : nat) (s : segment),
           segs !! i = Some s -> (S i < List.length segs)%nat ->
           seg_count s = chunk_size frames workers)
    /\ total_frames segs = Z.max 0 frames.
Proof.
  intros Hprobe Hw.
  destruct (segments_loop_sizes frames (chunk_size frames workers)
              (Z.le_max_l 1 _) _ 0%Z eq_refl) as (Hsize & Hfull & Htotal).
  eexists. split; [ | split; [exact Hsize | split; [exact Hfull | ] ] ].
  - unfold compute_segments. rewrite Hprobe. cbn [mbind result_bind].
    unfold plan_segments.
    assert (Hw0 : (workers =? 0)%Z = false) by (now apply Z.eqb_neq).
    rewrite Hw0. reflexivity.
  - rewrite Htotal. f_equal. lia.
Qed.

Lemma compute_segments_sizes_witness :
  probe_video float_of_decimal probe_100_frames = Ok (100%Z, 30%float)
  /\ (3 <> 0)%Z
  /\ exists segs,
       compute_segments float_of_decimal probe_100_frames 3 = Ok (segs, 30%float)
       /\ Forall (fun s => (1 <= seg_count s <= chunk_size 100 3)%Z) segs
       /\ (forall (i : nat) (s : segment),
              segs !! i = Some s -> (S i < List.length segs)%nat ->
              seg_count s = chunk_size 100 3)
       /\ total_frames segs = Z.max 0 100.
Proof.
  split; [vm_compute; reflexivity | ]. split; [discriminate | ].
  apply (compute_segments_sizes float_of_decimal probe_100_frames 3 100 30%float);
    [vm_compute; reflexivity | discriminate].
Defined.

(** X2. More workers than frames. With at least as many workers as frames
    (and at least one frame) the chunk size is 1: the plan has one segment
    per frame, as many segments as frames. *)
Theorem compute_segments_one_frame_each
    (py_float : string -> option float) (info : probe_info)
    (workers frames : Z) (fps : float) :
  probe_video py_float info = Ok (frames, fps) ->
  (1 <= frames)%Z -> (frames <= workers)%Z ->
  exists segs,
    compute_segments py_float info workers = Ok (segs, fps)
    /\ Z.of_nat (List.length segs) = frames
    /\ Forall (fun s => seg_count s = 1%Z /\ seg_start s = seg_end s) segs.
Proof.
  intros Hprobe Hf Hw.
  assert (Hchunk : chunk_size frames workers = 1%Z).
  { unfold chunk_size.
    destruct (Z.eq_dec frames workers) as [-> | Hne].
    - rewrite Z.div_same, Z.mod_same by lia. reflexivity.
    - rewrite Z.div_small, Z.mod_small by lia.
      assert (Hz : (frames =? 0)%Z = false) by (apply Z.eqb_neq; lia).
      now rewrite Hz. }
  destruct (segments_loop_spec frames (chunk_size frames workers)
              (Z.le_max_l 1 _) _ 0%Z eq_refl) as (_ & Hwf & _).
  destruct (segments_loop_sizes frames (chunk_size frames workers)
              (Z.le_max_l 1 _) _ 0%Z eq_refl) as (Hsize & _ & Htotal).
  cbv zeta in Hwf, Hsize, Htotal.
  assert (Hone : Forall (fun s => (1 <= seg_count s <= 1)%Z)
                   (segments_loop frames (chunk_size frames workers)
                      (Z.le_max_l 1 _) 0)).
  { eapply Forall_impl; [exact Hsize | ]. intros s Hs. cbv beta in Hs. lia. }
  clear Hsize. rename Hone into Hsize.
  eexists. split; [ | split].
  - unfold compute_segments. rewrite Hprobe. cbn [mbind result_bind].
    unfold plan_segments.
    assert (Hw0 : (workers =? 0)%Z = false) by (apply Z.eqb_neq; lia).
    rewrite Hw0. reflexivity.
  - destruct (total_frames_bound 1 _ Hsize). lia.
  - rewrite List.Forall_forall in *. intros s Hs.
    destruct (Hwf s Hs) as [Hle Hcount]. specialize (Hsize s Hs). lia.
Qed.

Lemma compute_segments_one_frame_each_witness :
  probe_video float_of_decimal probe_3_frames = Ok (3%Z, 30%float)
  /\ (1 <= 3)%Z /\ (3 <= 5)%Z
  /\ exists segs,
       compute_segments float_of_decimal probe_3_frames 5 = Ok (segs, 30%float)
       /\ Z.of_nat (List.length segs) = 3%Z
       /\ Forall (fun s => seg_count s = 1%Z /\ seg_start s = seg_end s) segs.
Proof.
  split; [vm_compute; reflexivity | ]. split; [lia | ]. split; [lia | ].
  apply (compute_segments_one_frame_each float_of_decimal probe_3_frames 5 3
           30%float); [vm_compute; reflexivity | lia | lia].
Defined.

(** ** Segment names, written and read back *)

Lemma append_assoc (a b c : string) : (a ++ b) ++ c = a ++ (b ++ c).
Proof.
  induction a as [ | x a IH]; [reflexivity | ].
  change ((String x a ++ b) ++ c) with (String x ((a ++ b) ++ c)).
  now rewrite IH.
Qed.

Lemma length_append (a b : string) :
  String.length (a ++ b) = (String.length a + String.length b)%nat.
Proof.
  induction a as [ | x a IH]; [reflexivity | ].
  change (String x a ++ b) with (String x (a ++ b)).
  cbn [String.length]. now rewrite IH.
Qed.

Lemma take_digits_app (d r : string) :
  all_digits d = true -> no_leading_digit r = true ->
  take_digits (d ++ r) = (d, r).
Proof.
  intros Hd Hr. induction d as [ | c d IH].
  - destruct r as [ | c r]; [reflexivity | ].
    simpl in *. apply negb_true_iff in Hr. now rewrite Hr.
  - simpl in Hd. apply andb_true_iff in Hd. destruct Hd as [Hc Hd].
    change (String c d ++ r) with (String c (d ++ r)).
    cbn [take_digits]. now rewrite Hc, (IH Hd).
Qed.

Lemma py_str_nonneg_digits (n : Z) :
  (0 <= n)%Z ->
  all_digits (py_str n) = true
  /\ exists c s, py_str n = String c s.
Proof.
  intros Hn. destruct (py_str_head n) as (c & s & Hstr & _).
  split; [ | eauto].
  unfold py_str. destruct n as [ | p | p]; [reflexivity | | lia].
  cbn [Z.to_int NilZero.string_of_int]. unfold NilZero.string_of_uint.
  destruct (Pos.to_uint p) eqn:Hd; try reflexivity;
    rewrite <- Hd; apply numeral_all_digits.
Qed.

(** The pattern read at the head of a label gives back its two numbers. *)
Lemma match_segment_label (start end_ : Z) (rest : string) :
  (0 <= start)%Z -> (0 <= end_)%Z -> no_leading_digit rest = true ->
  match_segment_at (segment_label start end_ ++ rest)
  = Some (py_str start, py_str end_, rest).
Proof.
  intros Hs He Hrest. unfold match_segment_at, segment_label.
  destruct (py_str_nonneg_digits start Hs) as (Hds & cs & ss & Hcs).
  destruct (py_str_nonneg_digits end_ He) as (Hde & ce & se & Hce).
  set (ds := py_str start) in *. set (de := py_str end_) in *.
  assert (Hshape : ("segment_" ++ ds ++ "_" ++ de) ++ rest
                   = "segment_" ++ (ds ++ String "_" (de ++ rest))).
  { rewrite !append_assoc. reflexivity. }
  rewrite Hshape.
  change (strip_prefix "segment_" ("segment_" ++ ?r)) with (Some r).
  cbv beta match.
  rewrite (take_digits_app ds (String "_" (de ++ rest)) Hds eq_refl).
  rewrite (take_digits_app de rest Hde Hrest).
  rewrite Hcs, Hce. reflexivity.
Qed.

Lemma substring_prefix (a b : string) :
  substring 0 (String.length a) (a ++ b) = a.
Proof.
  induction a as [ | x a IH].
  - destruct b; reflexivity.
  - change (String x a ++ b) with (String x (a ++ b)).
    cbn [String.length substring]. now rewrite IH.
Qed.

Lemma substring_whole (b : string) : substring 0 (String.length b) b = b.
Proof.
  induction b as [ | x b IH]; [reflexivity | ].
  cbn [String.length substring]. now rewrite IH.
Qed.

Lemma substring_suffix (a b : string) :
  substring (String.length a) (String.length b) (a ++ b) = b.
Proof.
  induction a as [ | x a IH].
  - apply substring_whole.
  - change (String x a ++ b) with (String x (a ++ b)).
    cbn [String.length substring]. exact IH.
Qed.

Lemma endswith_append (a b : string) : endswith (a ++ b) b = true.
Proof.
  unfold endswith. rewrite length_append.
  replace (String.length a + String.length b - String.length b)%nat
    with (String.length a) by lia.
  rewrite substring_suffix, String.eqb_refl.
  apply andb_true_iff. split; [apply Nat.leb_le; lia | reflexivity].
Qed.

Lemma drop_last_chars_append (a b : string) :
  drop_last_chars (String.length b) (a ++ b) = a.
Proof.
  unfold drop_last_chars. rewrite length_append.
  replace (String.length a + String.length b - String.length b)%nat
    with (String.length a) by lia.
  apply substring_prefix.
Qed.

Lemma parse_segment_label (start end_ : Z) (rest : string) :
  (0 <= start)%Z -> (0 <= end_)%Z -> no_leading_digit rest = true ->
  parse_segment_filename (segment_label start end_ ++ rest)
  = Some (start, end_).
Proof.
  intros Hs He Hrest. unfold parse_segment_filename.
  assert (Hsearch : search_segment (segment_label start end_ ++ rest)
                    = Some (py_str start, py_str end_)).
  { destruct (segment_label start end_ ++ rest) eqn:Hname;
      cbn [search_segment]; rewrite <- ?Hname;
      now rewrite (match_segment_label start end_ rest Hs He Hrest). }
  now rewrite Hsearch, !py_int_py_str.
Qed.

(** X3. Segment names round-trip. A name that starts with the label
    [segment_{start}_{end}] of non-negative numbers and does not go on with a
    digit (the clip [segment_0_33.mp4], its coordinates file
    [segment_0_33_detect_coords.txt]) is read back by the line-oriented merge
    as [(start, end)]; the pose directory [segment_{start}_{end}_pose] is read
    back by the structured merge as the offset [start]. *)
Theorem segment_label_round_trip (start end_ : Z) (rest : string)
    (listing : option (list (string * option string))) :
  (0 <= start)%Z -> (0 <= end_)%Z -> no_leading_digit rest = true ->
  parse_segment_filename (segment_label start end_ ++ rest)
  = Some (start, end_)
  /\ segment_start_offset
       (PoseDir (segment_label start end_ ++ POSE_DIR_SUFFIX) listing)
     = Ok start.
Proof.
  intros Hs He Hrest. split.
  - now apply parse_segment_label.
  - unfold segment_start_offset, pose_base_name. cbn [dir_name].
    rewrite endswith_append, drop_last_chars_append.
    unfold match_segment_dir.
    assert (Hnil : forall s : string, s ++ "" = s).
    { induction s as [ | c s IH]; [reflexivity | ].
      change (String c s ++ "") with (String c (s ++ "")). now rewrite IH. }
    pose proof (match_segment_label start end_ "" Hs He eq_refl) as Hm.
    rewrite Hnil in Hm. rewrite Hm. cbn [String.eqb orb of_option].
    now rewrite py_int_py_str.
Qed.

Lemma segment_label_round_trip_witness :
  (0 <= 120)%Z /\ (0 <= 239)%Z
  /\ no_leading_digit "_detect_coords.txt" = true
  /\ parse_segment_filename (segment_label 120 239 ++ "_detect_coords.txt")
     = Some (120%Z, 239%Z)
  /\ segment_start_offset
       (PoseDir (segment_label 120 239 ++ POSE_DIR_SUFFIX) None)
     = Ok 120%Z.
Proof.
  split; [lia | ]. split; [lia | ]. split; [reflexivity | ].
  apply (segment_label_round_trip 120 239 "_detect_coords.txt" None);
    [lia | lia | reflexivity].
Defined.

(** ** Paths *)

Lemma split_not_nil (sep : ascii) (s : string) : split sep s <> [].
Proof.
  destruct s as [ | c s]; simpl; [discriminate | ].
  destruct (Ascii.eqb c sep); [discriminate | ].
  destruct (split sep s); discriminate.
Qed.

Lemma split_append_sep (sep : ascii) (a b : string) :
  split sep (a ++ String sep b) = (split sep a ++ split sep b)%list.
Proof.
  induction a as [ | c a IH].
  - change ("" ++ String sep b) with (String sep b).
    cbn [split]. now rewrite Ascii.eqb_refl.
  - change (String c a ++ String sep b) with (String c (a ++ String sep b)).
    cbn [split]. destruct (Ascii.eqb c sep); [now rewrite IH | ].
    rewrite IH. pose proof (split_not_nil sep a) as Hne.
    destruct (split sep a) as [ | h t]; [contradiction | reflexivity].
Qed.

Lemma split_char_free (sep : ascii) (s : string) :
  char_free sep s = true -> split sep s = [s].
Proof.
  induction s as [ | c s IH]; [reflexivity | ].
  cbn [char_free split]. intros H. apply andb_true_iff in H.
  destruct H as [Hc Hs]. apply negb_true_iff in Hc.
  now rewrite Hc, (IH Hs).
Qed.

Lemma split_parts_char_free (sep : ascii) (s : string) :
  Forall (fun x => char_free sep x = true) (split sep s).
Proof.
  induction s as [ | c s IH]; [repeat constructor | ].
  cbn [split]. destruct (Ascii.eqb c sep) eqn:Hc.
  - constructor; [reflexivity | exact IH].
  - destruct (split sep s) as [ | h t]; [repeat constructor; simpl; now rewrite Hc | ].
    inversion IH as [ | ? ? Hh Ht]; subst.
    constructor; [ | exact Ht]. simpl. now rewrite Hc, Hh.
Qed.

Lemma path_parts_plain (p : string) :
  Forall (fun x => plain_part x = true) (path_parts p).
Proof.
  unfold path_parts. apply List.Forall_forall. intros x Hx.
  apply List.filter_In in Hx. destruct Hx as [Hin Hok].
  unfold plain_part. rewrite Hok. simpl.
  pose proof (split_parts_char_free "/" p) as Hfree.
  rewrite List.Forall_forall in Hfree. now apply Hfree.
Qed.

Lemma split_join_parts (parts : list string) :
  parts <> [] ->
  Forall (fun x => plain_part x = true) parts ->
  split "/" (join "/" parts) = parts.
Proof.
  intros Hne Hall. induction Hall as [ | x parts Hx Hall IH];
    [contradiction | ].
  unfold plain_part in Hx. apply andb_true_iff in Hx. destruct Hx as [_ Hfree].
  unfold join in *. destruct parts as [ | y parts].
  - cbn [String.concat]. now apply split_char_free.
  - change (String.concat "/" (x :: y :: parts))
      with (x ++ String "/" (String.concat "/" (y :: parts))).
    rewrite split_append_sep, (split_char_free _ _ Hfree), IH by discriminate.
    reflexivity.
Qed.

Lemma filter_plain_parts (parts : list string) :
  Forall (fun x => plain_part x = true) parts ->
  List.filter (fun c => negb (String.eqb c "") && negb (String.eqb c ".")) parts
  = parts.
Proof.
  induction 1 as [ | x parts Hx _ IH]; [reflexivity | ].
  cbn [List.filter]. unfold plain_part in Hx.
  apply andb_true_iff in Hx. destruct Hx as [Hx _].
  now rewrite Hx, IH.
Qed.

(** The components of [root], some components joined by slashes, a slash and
    a name: the components and the name. *)
Lemma path_parts_rebuilt (p : string) (parts : list string) (name : string) :
  Forall (fun x => plain_part x = true) parts ->
  plain_part name = true ->
  path_parts (match parts with
              | [] => path_root p ++ name
              | _ => path_root p ++ join "/" parts ++ "/" ++ name
              end)
  = (parts ++ [name])%list.
Proof.
  intros Hparts Hname.
  assert (Hroot : forall x, path_parts (path_root p ++ x) = path_parts x).
  { intros x. unfold path_root.
    destruct p as [ | c1 p]; [reflexivity | ].
    destruct (ascii_dec c1 "/") as [-> | Hc1].
    2: { replace (match c1 with "/"%char => _ | _ => "" end) with ""
           ; [reflexivity | ].
         destruct c1 as [[] [] [] [] [] [] [] []]; try reflexivity.
         now contradiction Hc1. }
    destruct p as [ | c2 p]; [reflexivity | ].
    destruct (ascii_dec c2 "/") as [-> | Hc2].
    2: { replace (match c2 with "/"%char => _ | _ => "/" end) with "/".
         - reflexivity.
         - destruct c2 as [[] [] [] [] [] [] [] []]; try reflexivity.
           now contradiction Hc2. }
    destruct p as [ | c3 p]; [reflexivity | ].
    destruct (ascii_dec c3 "/") as [-> | Hc3]; [reflexivity | ].
    replace (match c3 with "/"%char => "/" | _ => "//" end) with "//".
    - reflexivity.
    - destruct c3 as [[] [] [] [] [] [] [] []]; try reflexivity.
      now contradiction Hc3. }
  assert (Hn : path_parts name = [name]).
  { unfold path_parts. pose proof Hname as Hn. unfold plain_part in Hn.
    apply andb_true_iff in Hn. destruct Hn as [Hn Hfree].
    rewrite (split_char_free _ _ Hfree). cbn [List.filter]. now rewrite Hn. }
  destruct parts as [ | x parts]; rewrite Hroot; [exact Hn | ].
  unfold path_parts.
  change (join "/" (x :: parts) ++ "/" ++ name)
    with (join "/" (x :: parts) ++ String "/" name).
  rewrite split_append_sep, List.filter_app.
  rewrite (split_join_parts (x :: parts)) by (discriminate || assumption).
  rewrite (filter_plain_parts _ Hparts).
  fold (path_parts name). now rewrite Hn.
Qed.

Lemma last_snoc {A : Type} (l : list A) (x d : A) : List.last (l ++ [x]) d = x.
Proof.
  induction l as [ | y l IH]; [reflexivity | ].
  cbn [app]. destruct (l ++ [x])%list eqn:Hl.
  - destruct l; discriminate Hl.
  - cbn [List.last]. exact IH.
Qed.

(** [(Path(p) / name).name] and [Path(p).with_name(name).name] are [name]. *)
Lemma path_name_join (p name : string) :
  plain_part name = true -> path_name (path_join p name) = name.
Proof.
  intros Hname. unfold path_name, path_join.
  pose proof (path_parts_rebuilt p (path_parts p) name (path_parts_plain p) Hname)
    as Hparts.
  destruct (path_parts p); rewrite Hparts; apply last_snoc.
Qed.

Lemma Forall_removelast {A : Type} (P : A -> Prop) (l : list A) :
  Forall P l -> Forall P (removelast l).
Proof.
  induction 1 as [ | x l Hx Hl IH]; [constructor | ].
  cbn [removelast]. destruct l; [constructor | ].
  constructor; assumption.
Qed.

Lemma path_name_with_name (p name : string) :
  plain_part name = true -> path_name (with_name p name) = name.
Proof.
  intros Hname. unfold path_name, with_name.
  pose proof (path_parts_rebuilt p (removelast (path_parts p)) name
                (Forall_removelast _ _ (path_parts_plain p)) Hname) as Hparts.
  destruct (removelast (path_parts p)); rewrite Hparts; apply last_snoc.
Qed.

Lemma rfind_dot_append (a b : string) :
  forall (i : nat) (found : option nat),
    rfind_dot (a ++ b) i found
    = rfind_dot b (i + String.length a) (rfind_dot a i found).
Proof.
  induction a as [ | x a IH]; intros i found.
  - cbn [String.length rfind_dot]. now rewrite Nat.add_0_r.
  - change (String x a ++ b) with (String x (a ++ b)).
    cbn [rfind_dot String.length]. rewrite IH. f_equal. lia.
Qed.

Lemma rfind_dot_free (s : string) :
  char_free "." s = true ->
  forall (i : nat) (found : option nat), rfind_dot s i found = found.
Proof.
  induction s as [ | x s IH]; intros Hfree i found; [reflexivity | ].
  cbn [char_free] in Hfree. apply andb_true_iff in Hfree.
  destruct Hfree as [Hx Hs]. apply negb_true_iff in Hx.
  cbn [rfind_dot]. rewrite Hx. now apply IH.
Qed.

(** The stem of [a.ext] is [a]. *)
Lemma stem_of_name_ext (a ext : string) :
  a <> "" -> ext <> "" -> char_free "." ext = true ->
  stem_of_name (a ++ String "." ext) = a.
Proof.
  intros Ha Hext Hfree. unfold stem_of_name.
  rewrite rfind_dot_append. cbn [rfind_dot].
  change (Ascii.eqb "." ".") with true. cbv iota.
  rewrite (rfind_dot_free ext Hfree). cbn [Nat.add].
  rewrite length_append. cbn [String.length].
  assert (Hlen_a : (0 < String.length a)%nat)
    by (destruct a; [contradiction | simpl; lia]).
  assert (Hlen_e : (0 < String.length ext)%nat)
    by (destruct ext; [contradiction | simpl; lia]).
  assert (H1 : (0 <? String.length a)%nat = true) by (apply Nat.ltb_lt; lia).
  assert (H2 : (String.length a
                <? String.length a + S (String.length ext) - 1)%nat = true)
    by (apply Nat.ltb_lt; lia).
  rewrite H1, H2. apply substring_prefix.
Qed.

Lemma char_free_append (c : ascii) (a b : string) :
  char_free c (a ++ b) = char_free c a && char_free c b.
Proof.
  induction a as [ | x a IH]; [reflexivity | ].
  change (String x a ++ b) with (String x (a ++ b)).
  cbn [char_free]. now rewrite IH, andb_assoc.
Qed.

Lemma digits_char_free (c : ascii) (s : string) :
  is_digit c = false -> all_digits s = true -> char_free c s = true.
Proof.
  intros Hc. induction s as [ | x s IH]; [reflexivity | ].
  cbn [all_digits char_free]. intros H. apply andb_true_iff in H.
  destruct H as [Hx Hs]. rewrite (IH Hs), andb_true_r.
  apply negb_true_iff. destruct (Ascii.eqb x c) eqn:Heq; [ | reflexivity].
  apply Ascii.eqb_eq in Heq. congruence.
Qed.

Lemma segment_label_char_free (c : ascii) (start end_ : Z) :
  (0 <= start)%Z -> (0 <= end_)%Z ->
  is_digit c = false -> char_free c "segment_" = true ->
  char_free c (segment_label start end_) = true.
Proof.
  intros Hs He Hc Hword. unfold segment_label.
  destruct (py_str_nonneg_digits start Hs) as [Hds _].
  destruct (py_str_nonneg_digits end_ He) as [Hde _].
  rewrite !char_free_append, Hword.
  rewrite (digits_char_free c _ Hc Hds), (digits_char_free c _ Hc Hde).
  cbn [char_free]. rewrite andb_true_r. cbn [andb].
  assert (Hu : Ascii.eqb "_" c = false).
  { cbn [char_free] in Hword. repeat (apply andb_true_iff in Hword;
      destruct Hword as [? Hword]).
    now apply negb_true_iff. }
  now rewrite Hu.
Qed.

Lemma segment_name_plain (start end_ : Z) (rest : string) :
  (0 <= start)%Z -> (0 <= end_)%Z -> char_free "/" rest = true ->
  plain_part (segment_label start end_ ++ rest) = true.
Proof.
  intros Hs He Hrest. unfold plain_part.
  rewrite char_free_append, Hrest,
    (segment_label_char_free "/" start end_ Hs He eq_refl eq_refl).
  reflexivity.
Qed.

(** X4. From clip to coordinates file and back. For a clip the materializer
    names for non-negative frames [start .. end], in any directory, the
    merge reads [(start, end)] back from the clip's name, and also from the
    name of the coordinates file the scheduler derives for that clip (when no
    [--coords] path is given and the model tag has no slash). *)
Theorem clip_coordinates_name_round_trip
    (resolve : string -> string) (args : arguments)
    (model_tag tmp_dir : string) (start end_ : Z) :
  (0 <= start)%Z -> (0 <= end_)%Z ->
  truthy (coords args) = false -> char_free "/" model_tag = true ->
  let clip := segment_file tmp_dir start end_ "mp4" in
  path_name clip = segment_label start end_ ++ ".mp4"
  /\ parse_segment_filename (path_name clip) = Some (start, end_)
  /\ path_name (coords_host_of resolve args model_tag clip)
     = segment_label start end_ ++ "_" ++ model_tag ++ "_coords.txt"
  /\ parse_segment_filename
       (path_name (coords_host_of resolve args model_tag clip))
     = Some (start, end_).
Proof.
  intros Hs He Hcoords Htag clip.
  assert (Hclip_name : "segment_" ++ py_str start ++ "_" ++ py_str end_
                         ++ "." ++ "mp4"
                       = segment_label start end_ ++ ".mp4").
  { unfold segment_label. now rewrite !append_assoc. }
  assert (Hname : path_name clip = segment_label start end_ ++ ".mp4").
  { unfold clip, segment_file. rewrite Hclip_name.
    apply path_name_join. now apply segment_name_plain. }
  assert (Hstem : path_stem clip = segment_label start end_).
  { unfold path_stem. rewrite Hname.
    apply (stem_of_name_ext (segment_label start end_) "mp4");
      [ | discriminate | reflexivity].
    unfold segment_label. intros Hnil.
    apply (f_equal String.length) in Hnil. rewrite length_append in Hnil.
    discriminate Hnil. }
  assert (Hcoords_name :
            path_name (coords_host_of resolve args model_tag clip)
            = segment_label start end_ ++ "_" ++ model_tag ++ "_coords.txt").
  { unfold coords_host_of.
    replace (match coords args with
             | Some (String c p) => resolve (Path (String c p))
             | _ => with_name clip
                      (path_stem clip ++ "_" ++ model_tag ++ "_coords.txt")
             end)
      with (with_name clip
              (path_stem clip ++ "_" ++ model_tag ++ "_coords.txt"))
      by (destruct (coords args) as [ [ | ] | ]; try reflexivity;
          discriminate Hcoords).
    rewrite Hstem. apply path_name_with_name.
    apply segment_name_plain; [assumption | assumption | ].
    rewrite !char_free_append, Htag. reflexivity. }
  split; [exact Hname | ]. split.
  - rewrite Hname. now apply parse_segment_label.
  - split; [exact Hcoords_name | ]. rewrite Hcoords_name.
    now apply parse_segment_label.
Qed.

Lemma clip_coordinates_name_round_trip_witness :
  (0 <= 0)%Z /\ (0 <= 33)%Z
  /\ truthy (coords sample_args) = false
  /\ char_free "/" "detect" = true
  /\ path_name (coords_host_of (fun p => p) sample_args "detect"
                  (segment_file sample_tmp_dir 0 33 "mp4"))
     = "segment_0_33_detect_coords.txt"
  /\ parse_segment_filename
       (path_name (coords_host_of (fun p => p) sample_args "detect"
                     (segment_file sample_tmp_dir 0 33 "mp4")))
     = Some (0%Z, 33%Z).
Proof.
  split; [lia | ]. split; [lia | ]. split; [reflexivity | ].
  split; [reflexivity | ].
  destruct (clip_coordinates_name_round_trip (fun p => p) sample_args "detect"
              sample_tmp_dir 0 33 ltac:(lia) ltac:(lia) eq_refl eq_refl)
    as (_ & _ & Hname & Hparse).
  split; [exact Hname | exact Hparse].
Defined.

(** ** More on the segment materializer *)

Section MaterializerMore.
Variable format_6f : float -> string.
Variable run_ffmpeg :
  list string -> gmap string string -> option (Z * gmap string string).
Variables (video : string) (fps : float) (tmp_dir : string).

Local Abbreviation step :=
  (materialize_segment format_6f run_ffmpeg video fps tmp_dir).
Local Abbreviation run_all :=
  (materialize_all format_6f run_ffmpeg video fps tmp_dir).

(** The jobs a run adds are clips of its segments, in the order of the
    segments. *)
Lemma materialize_all_sublist (segs : list segment) :
  forall st final,
    run_all segs st = Ok final ->
    exists added,
      jobs final = (jobs st ++ added)%list
      /\ sublist added (List.map (clip_path tmp_dir) segs).
Proof.
  induction segs as [ | seg segs IH]; intros st final Hrun.
  - injection Hrun as <-. exists []. rewrite app_nil_r. split; [reflexivity | ].
    constructor.
  - cbn [materialize_all] in Hrun.
    destruct (step st seg) as [st1 | e] eqn:Hstep; [ | discriminate Hrun].
    destruct (IH _ _ Hrun) as (added & Hjobs & Hsub).
    unfold materialize_segment in Hstep.
    destruct seg as [[start end_] count].
    change (segment_file tmp_dir start end_ "mp4")
      with (clip_path tmp_dir (start, end_, count)) in Hstep.
    destruct (path_exists (disk st) (clip_path tmp_dir (start, end_, count))).
    { injection Hstep as <-. cbn [jobs] in Hjobs.
      exists (clip_path tmp_dir (start, end_, count) :: added).
      rewrite Hjobs, <- app_assoc. split; [reflexivity | ].
      cbn [List.map]. now constructor. }
    destruct (run_ffmpeg _ _) as [[returncode after] | ]; [ | discriminate Hstep].
    destruct (negb (returncode =? 0)%Z
              || negb (path_exists after (clip_path tmp_dir (start, end_, count)))).
    + injection Hstep as <-. cbn [jobs] in Hjobs.
      exists added. split; [exact Hjobs | ]. cbn [List.map]. now constructor.
    + injection Hstep as <-. cbn [jobs] in Hjobs.
      exists (clip_path tmp_dir (start, end_, count) :: added).
      rewrite Hjobs, <- app_assoc. split; [reflexivity | ].
      cbn [List.map]. now constructor.
Qed.

(** X5. Never more jobs than workers. The clips [create_segment_files]
    returns for the plan of [compute_segments] are clips of the plan's
    segments, in plan order, each at most once per segment, so there are at
    most [workers] of them. *)
Theorem created_jobs_within_plan
    (py_float : string -> option float) (info : probe_info) (workers : Z)
    (fs : gmap string string) (segs : list segment)
    (final : materializer) :
  (1 <= workers)%Z ->
  compute_segments py_float info workers = Ok (segs, fps) ->
  create_segment_files format_6f run_ffmpeg fs video segs fps tmp_dir
  = Ok final ->
  sublist (jobs final) (List.map (clip_path tmp_dir) segs)
  /\ (Z.of_nat (List.length (jobs final)) <= workers)%Z.
Proof.
  intros Hw Hplan Hrun.
  destruct (materialize_all_sublist segs _ _ Hrun) as (added & Hjobs & Hsub).
  cbn [jobs app] in Hjobs. subst added.
  split; [exact Hsub | ].
  apply sublist_length in Hsub. rewrite length_map in Hsub.
  assert (Hlen : (Z.of_nat (List.length segs) <= workers)%Z); [ | lia].
  unfold compute_segments in Hplan.
  destruct (probe_video py_float info) as [[frames fps'] | e];
    [ | discriminate Hplan].
  cbn [mbind result_bind] in Hplan.
  destruct (Z_le_dec 1 frames) as [Hf | Hf].
  - destruct (plan_segments_spec frames workers Hf Hw)
      as (segs' & Hsegs & _ & _ & _ & _ & Hle).
    rewrite Hsegs in Hplan. unfold mbind, result_bind, mret, result_ret in Hplan.
    injection Hplan as <- _. exact Hle.
  - unfold plan_segments in Hplan.
    assert (Hw0 : (workers =? 0)%Z = false) by (apply Z.eqb_neq; lia).
    rewrite Hw0 in Hplan. unfold mbind, result_bind, mret, result_ret in Hplan.
    injection Hplan as <- _.
    rewrite segments_loop_unfold.
    assert (Hge : (0 <? frames)%Z = false) by (apply Z.ltb_ge; lia).
    rewrite Hge. simpl. lia.
Qed.

(** X6. A transcoder that cannot be started stops the call. When the clips
    of the first segments are on disk, the next one is not, and the
    transcoder cannot be started for it, [create_segment_files] raises
    [OSError]: the failure is not caught, and the segments after it are not
    looked at. *)
Theorem create_segment_files_raises_when_not_started
    (fs : gmap string string) (pre post : list segment)
    (start end_ count : Z) :
  Forall (fun s => path_exists fs (clip_path tmp_dir s) = true) pre ->
  path_exists fs (clip_path tmp_dir (start, end_, count)) = false ->
  run_ffmpeg (ffmpeg_command format_6f video start end_ count fps
                (clip_path tmp_dir (start, end_, count)))
             (<[segment_file tmp_dir start end_ "log" := EmptyString]> fs)
  = None ->
  create_segment_files format_6f run_ffmpeg fs video
    (pre ++ (start, end_, count) :: post) fps tmp_dir = Raise OSError.
Proof.
  intros Hpre Habsent Hstart.
  unfold create_segment_files.
  rewrite materialize_all_app, (materialize_all_existing _ _ _ _ _ pre)
    by exact Hpre.
  cbn [mbind result_bind materialize_all disk jobs events app].
  unfold materialize_segment.
  change (segment_file tmp_dir start end_ "mp4")
    with (clip_path tmp_dir (start, end_, count)).
  cbn [disk]. now rewrite Habsent, Hstart.
Qed.

Hypothesis transcoder_ok : well_behaved run_ffmpeg.

Lemma last_ffmpeg_command (start end_ count : Z) (out_path : string) :
  List.last (ffmpeg_command format_6f video start end_ count fps out_path)
            EmptyString = out_path.
Proof. reflexivity. Qed.

Lemma materialize_all_well_behaved (segs : list segment) :
  forall st,
    exists final,
      run_all segs st = Ok final
      /\ jobs final = (jobs st ++ List.map (clip_path tmp_dir) segs)%list
      /\ (forall p, path_exists (disk st) p = true ->
                    path_exists (disk final) p = true)
      /\ Forall (fun seg => path_exists (disk final) (clip_path tmp_dir seg) = true)
                segs.
Proof.
  induction segs as [ | seg segs IH]; intros st.
  - exists st. cbn [materialize_all List.map]. rewrite app_nil_r.
    repeat split; auto.
  - assert (Hstep : exists st1,
               step st seg = Ok st1
               /\ jobs st1 = (jobs st ++ [clip_path tmp_dir seg])%list
               /\ (forall p, path_exists (disk st) p = true ->
                             path_exists (disk st1) p = true)
               /\ path_exists (disk st1) (clip_path tmp_dir seg) = true).
    { destruct (path_exists (disk st) (clip_path tmp_dir seg)) eqn:Hthere.
      - eexists. split; [now apply materialize_existing | ].
        cbn [jobs disk]. auto.
      - unfold materialize_segment. destruct seg as [[start end_] count].
        change (segment_file tmp_dir start end_ "mp4")
          with (clip_path tmp_dir (start, end_, count)).
        rewrite Hthere.
        destruct (transcoder_ok
                    (ffmpeg_command format_6f video start end_ count fps
                       (clip_path tmp_dir (start, end_, count)))
                    (<[segment_file tmp_dir start end_ "log" := EmptyString]>
                       (disk st)))
          as (after & Hrun & Hkeeps & Hclip).
        rewrite last_ffmpeg_command in Hclip.
        rewrite Hrun, Hclip. cbn [Z.eqb negb orb].
        eexists. split; [reflexivity | ]. cbn [jobs disk].
        split; [reflexivity | ]. split; [ | exact Hclip].
        intros p Hp. apply Hkeeps. unfold path_exists in *.
        destruct (decide (segment_file tmp_dir start end_ "log" = p)) as [<- | Hne].
        + now rewrite lookup_insert_eq.
        + now rewrite lookup_insert_ne. }
    destruct Hstep as (st1 & Hstep & Hjobs1 & Hkeep1 & Hclip1).
    destruct (IH st1) as (final & Hrun & Hjobs & Hkeep & Hclips).
    exists final. cbn [materialize_all]. rewrite Hstep.
    cbn [mbind result_bind]. split; [exact Hrun | ].
    split; [ | split].
    + rewrite Hjobs, Hjobs1, <- app_assoc. reflexivity.
    + auto.
    + constructor; [auto | exact Hclips].
Qed.

(** X7. Materializing twice. With a transcoder that always starts, exits
    with status 0, leaves every file in place and leaves the clip it is asked
    for, [create_segment_files] returns the clips of all the segments, in
    order; called again on the disk it left, it returns the same clips,
    leaves the disk as it is and starts no transcoder. *)
Theorem create_segment_files_twice
    (fs : gmap string string) (segments : list segment) :
  exists first,
    create_segment_files format_6f run_ffmpeg fs video segments fps tmp_dir
    = Ok first
    /\ jobs first = List.map (clip_path tmp_dir) segments
    /\ exists second,
         create_segment_files format_6f run_ffmpeg (disk first) video
           segments fps tmp_dir = Ok second
         /\ jobs second = jobs first
         /\ disk second = disk first
         /\ List.filter is_transcode (events second) = [].
Proof.
  destruct (materialize_all_well_behaved segments (Materializer fs [] []))
    as (first & Hrun & Hjobs & _ & Hclips).
  exists first. split; [exact Hrun | ]. split; [exact Hjobs | ].
  eexists. split.
  - unfold create_segment_files.
    apply (materialize_all_existing format_6f run_ffmpeg video fps tmp_dir
             segments (Materializer (disk first) [] [])).
    exact Hclips.
  - cbn [jobs disk events app]. split; [now rewrite Hjobs | ].
    split; [reflexivity | ].
    clear. induction segments as [ | seg segments IH]; [reflexivity | exact IH].
Qed.

End MaterializerMore.

Lemma created_jobs_within_plan_witness :
  (1 <= 3)%Z
  /\ compute_segments float_of_decimal probe_100_frames 3
     = Ok (plan_100_3, 30%float)
  /\ exists final,
       create_segment_files fixed_6f failing_ffmpeg sample_first_clip
         sample_video plan_100_3 30%float sample_tmp_dir = Ok final
       /\ sublist (jobs final)
            (List.map (clip_path sample_tmp_dir) plan_100_3)
       /\ (Z.of_nat (List.length (jobs final)) <= 3)%Z.
Proof.
  assert (Hw : (1 <= 3)%Z) by lia.
  assert (Hplan : compute_segments float_of_decimal probe_100_frames 3
                  = Ok (plan_100_3, 30%float)) by (vm_compute; reflexivity).
  assert (Hrun : exists final,
             create_segment_files fixed_6f failing_ffmpeg sample_first_clip
               sample_video plan_100_3 30%float sample_tmp_dir = Ok final)
    by (eexists; vm_compute; reflexivity).
  destruct Hrun as [final Hrun].
  split; [exact Hw | ]. split; [exact Hplan | ].
  exists final. split; [exact Hrun | ].
  exact (created_jobs_within_plan fixed_6f failing_ffmpeg sample_video
           30%float sample_tmp_dir float_of_decimal probe_100_frames 3
           sample_first_clip plan_100_3 final Hw Hplan Hrun).
Defined.

Lemma create_segment_files_raises_when_not_started_witness :
  Forall (fun s => path_exists sample_first_clip (clip_path sample_tmp_dir s)
                   = true) [(0, 33, 34)%Z]
  /\ path_exists sample_first_clip (clip_path sample_tmp_dir (34, 67, 34)%Z)
     = false
  /\ create_segment_files fixed_6f missing_ffmpeg sample_first_clip
       sample_video plan_100_3 30%float sample_tmp_dir = Raise OSError.
Proof.
  assert (Hpre : Forall (fun s => path_exists sample_first_clip
                                    (clip_path sample_tmp_dir s) = true)
                   [(0, 33, 34)%Z])
    by (constructor; [reflexivity | constructor]).
  assert (Habsent : path_exists sample_first_clip
                      (clip_path sample_tmp_dir (34, 67, 34)%Z) = false)
    by reflexivity.
  split; [exact Hpre | ]. split; [exact Habsent | ].
  exact (create_segment_files_raises_when_not_started fixed_6f missing_ffmpeg
           sample_video 30%float sample_tmp_dir sample_first_clip
           [(0, 33, 34)%Z] [(68, 99, 32)%Z] 34 67 34 Hpre Habsent eq_refl).
Defined.

Lemma writing_ffmpeg_well_behaved : well_behaved writing_ffmpeg.
Proof.
  intros cmd fs. eexists. split; [reflexivity | ]. unfold path_exists. split.
  - intros p Hp.
    destruct (decide (List.last cmd EmptyString = p)) as [<- | Hne].
    + now rewrite lookup_insert_eq.
    + now rewrite lookup_insert_ne.
  - now rewrite lookup_insert_eq.
Qed.

Lemma create_segment_files_twice_witness :
  well_behaved writing_ffmpeg
  /\ exists first,
       create_segment_files fixed_6f writing_ffmpeg sample_first_clip
         sample_video plan_100_3 30%float sample_tmp_dir = Ok first
       /\ jobs first = List.map (clip_path sample_tmp_dir) plan_100_3
       /\ exists second,
            create_segment_files fixed_6f writing_ffmpeg (disk first)
              sample_video plan_100_3 30%float sample_tmp_dir = Ok second
            /\ jobs second = jobs first
            /\ disk second = disk first
            /\ List.filter is_transcode (events second) = [].
Proof.
  split; [exact writing_ffmpeg_well_behaved | ].
  exact (create_segment_files_twice fixed_6f writing_ffmpeg sample_video
           30%float sample_tmp_dir writing_ffmpeg_well_behaved
           sample_first_clip plan_100_3).
Defined.

(** ** More on the scheduling loop *)

Section SchedulerAccounts.
Variable resolve : string -> string.
Variable exists_at : nat -> string -> bool.
Variable args : arguments.

Local Abbreviation schedule_step :=
  (schedule_job resolve exists_at args (get_model_tag args)).

(** Once an exception has left the loop nothing more happens. *)
Lemma schedule_fold_failed (todo : list (nat * string)) :
  forall (st : scheduler) (e : exn),
    failed st = Some e -> fold_left schedule_step todo st = st.
Proof.
  induction todo as [ | [idx video] todo IH]; intros st e Hfailed;
    [reflexivity | ].
  cbn [fold_left].
  assert (Hstep : schedule_step st (idx, video) = st)
    by (unfold schedule_job; now rewrite Hfailed).
  rewrite Hstep. now apply (IH st e).
Qed.


(** What the loop adds for the jobs [todo], started in the state [st]. *)
Lemma schedule_fold_accounts (todo : list (nat * string)) :
  forall st : scheduler,
    exists subs evs,
      submitted (fold_left schedule_step todo st)
      = (submitted st ++ subs)%list
      /\ reported (fold_left schedule_step todo st)
         = (reported st ++ evs)%list
      /\ clock (fold_left schedule_step todo st)
         <= clock st + 2 * List.length todo
      /\ (failed (fold_left schedule_step todo st) = None ->
          (List.map job_idx subs ++ List.map event_idx evs)%list
          ≡ₚ List.map fst todo)
      /\ sublist (List.map submission_job subs) todo
      /\ Forall (fun sub =>
                   job_output_dir sub = path_parent (job_video sub)
                   /\ job_model_tag sub = get_model_tag args
                   /\ exists t,
                        clock st <= t
                        /\ S t < clock st + 2 * List.length todo
                        /\ exists_at t (job_video sub) = true
                        /\ exists_at (S t) (job_coords_host sub) = false)
                subs.
Proof.
  induction todo as [ | [idx video] todo IH]; intros st.
  - exists [], []. cbn [fold_left]. rewrite !app_nil_r.
    repeat split; try reflexivity; try constructor. simpl. lia.
  - assert (Hstopped : forall st1 : scheduler,
               submitted st1 = submitted st -> reported st1 = reported st ->
               clock st1 <= S (clock st) -> failed st1 <> None ->
               fold_left schedule_step todo st1 = st1 ->
               exists subs evs,
                 submitted (fold_left schedule_step todo st1)
                 = (submitted st ++ subs)%list
                 /\ reported (fold_left schedule_step todo st1)
                    = (reported st ++ evs)%list
                 /\ clock (fold_left schedule_step todo st1)
                    <= clock st + 2 * List.length ((idx, video) :: todo)
                 /\ (failed (fold_left schedule_step todo st1) = None ->
                     (List.map job_idx subs ++ List.map event_idx evs)%list
                     ≡ₚ List.map fst ((idx, video) :: todo))
                 /\ sublist (List.map submission_job subs) ((idx, video) :: todo)
                 /\ Forall (fun sub =>
                      job_output_dir sub = path_parent (job_video sub)
                      /\ job_model_tag sub = get_model_tag args
                      /\ exists t,
                           clock st <= t
                           /\ S t < clock st
                                    + 2 * List.length ((idx, video) :: todo)
                           /\ exists_at t (job_video sub) = true
                           /\ exists_at (S t) (job_coords_host sub) = false)
                      subs).
    { intros st1 Hs Hr Hc Hf Hfold. exists [], []. rewrite Hfold, Hs, Hr.
      rewrite !app_nil_r. split; [reflexivity | ]. split; [reflexivity | ].
      split; [cbn [List.length]; lia | ].
      split; [intros Hnone; now contradiction Hf | ].
      split; [apply sublist_nil_l | constructor]. }
    cbn [fold_left].
    destruct (failed st) as [e | ] eqn:Hfailed.
    { assert (Hstep : schedule_step st (idx, video) = st)
        by (unfold schedule_job; now rewrite Hfailed).
      rewrite Hstep. apply Hstopped; try reflexivity; try lia.
      - now rewrite Hfailed.
      - now apply (schedule_fold_failed todo st e). }
    destruct (IH (schedule_step st (idx, video)))
      as (subs & evs & Hsub & Hrep & Hclock & Hperm & Hord & Hall).
    assert (Hlater : forall c,
               clock st <= c -> c <= S (S (clock st)) ->
               Forall (fun sub =>
                   job_output_dir sub = path_parent (job_video sub)
                   /\ job_model_tag sub = get_model_tag args
                   /\ exists t,
                        c <= t
                        /\ S t < c + 2 * List.length todo
                        /\ exists_at t (job_video sub) = true
                        /\ exists_at (S t) (job_coords_host sub) = false)
                 subs ->
               Forall (fun sub =>
                   job_output_dir sub = path_parent (job_video sub)
                   /\ job_model_tag sub = get_model_tag args
                   /\ exists t,
                        clock st <= t
                        /\ S t < clock st + 2 * List.length ((idx, video) :: todo)
                        /\ exists_at t (job_video sub) = true
                        /\ exists_at (S t) (job_coords_host sub) = false)
                 subs).
    { intros c Hc1 Hc2 H. eapply Forall_impl; [exact H | ].
      intros sub (Hdir & Htag & t & Ht1 & Ht2 & Hv & Hco).
      split; [exact Hdir | ]. split; [exact Htag | ].
      exists t. cbn [List.length]. repeat split; try assumption; lia. }
    unfold schedule_job in Hsub, Hrep, Hclock, Hperm, Hall |- *.
    rewrite Hfailed in Hsub, Hrep, Hclock, Hperm, Hall |- *.
    destruct (exists_at (clock st) video) eqn:Hvideo; cbn [negb] in *.
    + destruct (negb (truthy (coords args))
                && String.eqb (path_name video) "") eqn:Hnameless.
      { clear Hsub Hrep Hclock Hperm Hord Hall.
        apply Hstopped; try reflexivity; cbn [clock failed]; try lia.
        - discriminate.
        - now apply (schedule_fold_failed todo _ ValueError). }
      destruct (exists_at (S (clock st))
                  (coords_host_of resolve args (get_model_tag args) video))
        eqn:Hcoords; cbn [submitted reported clock] in *.
      * rewrite Hsub, Hrep.
        exists subs, (FoundExisting idx
                        (coords_host_of resolve args (get_model_tag args) video)
                        video :: evs).
        split; [reflexivity | ]. split; [now rewrite <- app_assoc | ].
        split; [cbn [List.length]; lia | ].
        split; [ | split].
        -- intros Hnone. cbn [List.map event_idx fst].
           rewrite <- Permutation_middle. constructor. now apply Hperm.
        -- now constructor.
        -- apply (Hlater (S (S (clock st)))); [lia | lia | exact Hall].
      * rewrite Hsub, Hrep.
        exists (Submission idx video (path_parent video)
                  (coords_host_of resolve args (get_model_tag args) video)
                  (get_model_tag args) :: subs), evs.
        split; [now rewrite <- app_assoc | ]. split; [reflexivity | ].
        split; [cbn [List.length]; lia | ].
        split; [ | split].
        -- intros Hnone. cbn [List.map job_idx fst app]. constructor.
           now apply Hperm.
        -- cbn [List.map submission_job job_idx job_video]. now constructor.
        -- constructor.
           ++ cbn [job_output_dir job_video job_model_tag job_coords_host].
              split; [reflexivity | ]. split; [reflexivity | ].
              exists (clock st). cbn [List.length].
              repeat split; try assumption; lia.
           ++ apply (Hlater (S (S (clock st)))); [lia | lia | exact Hall].
    + cbn [submitted reported clock] in *. rewrite Hsub, Hrep.
      exists subs, (SkippingMissing idx video :: evs).
      split; [reflexivity | ]. split; [now rewrite <- app_assoc | ].
      split; [cbn [List.length]; lia | ].
      split; [ | split].
      * intros Hnone. cbn [List.map event_idx fst].
        rewrite <- Permutation_middle. constructor. now apply Hperm.
      * now constructor.
      * apply (Hlater (S (clock st))); [lia | lia | ].
        eapply Forall_impl; [exact Hall | ].
        intros sub (Hdir & Htag & t & Ht1 & Ht2 & Hv & Hco).
        split; [exact Hdir | ]. split; [exact Htag | ].
        exists t. repeat split; try assumption; lia.
Qed.




(** X9. A submitted job passed both tests, one right after the other: among
    the tests of the run there is one that found its video, and the next one
    found no file at its coordinates path. *)
Theorem submitted_jobs_passed_both_tests (job_videos : list string) :
  Forall (fun sub =>
            exists t,
              S t < 2 * List.length job_videos
              /\ exists_at t (job_video sub) = true
              /\ exists_at (S t) (job_coords_host sub) = false)
         (submitted (schedule_jobs resolve exists_at args job_videos)).
Proof.
  unfold schedule_jobs.
  destruct (schedule_fold_accounts (enumerate job_videos)
              (Scheduler 0 [] [] None))
    as (subs & evs & -> & _ & _ & _ & _ & Hall).
  cbn [submitted app clock] in *. rewrite enumerate_length in Hall.
  eapply Forall_impl; [exact Hall | ].
  intros sub (_ & _ & t & _ & Ht & Hv & Hco). exists t.
  split; [lia | ]. now split.
Qed.

End SchedulerAccounts.


Section SchedulerStatic.
Variable resolve : string -> string.
Variable args : arguments.
Variable fs : gmap string string.

Local Abbreviation static_step :=
  (schedule_job resolve (fun _ => path_exists fs) args (get_model_tag args)).



End SchedulerStatic.


(** ** More on the line-oriented merge *)

Lemma length_filter_split {A : Type} (p : A -> bool) (l : list A) :
  List.length l
  = List.length (List.filter p l)
    + List.length (List.filter (fun x => negb (p x)) l).
Proof.
  induction l as [ | x l IH]; [reflexivity | ].
  cbn [List.filter List.length]. destruct (p x); cbn [negb List.length]; lia.
Qed.

(** X11. The total the merge prints is the number of records it wrote: the
    corrected records of the files, headers and skipped lines not counted.
    It is the last message printed, when the call returns. Names and lines
    are taken of at most 4300 characters, within the interpreter's limit for
    [int] and [str]. *)
Theorem combine_coordinate_files_total (fs fs' : gmap string node)
    (coord_files : list string) (output_path : string)
    (messages : list message) :
  within_digit_limit fs coord_files = true ->
  combine_coordinate_files fs coord_files output_path = Ok (fs', messages) ->
  List.last messages (TotalFrames (-1))
  = TotalFrames
      (Z.of_nat
         (List.length
            (flat_map (records_of_file fs) (sorted String.leb coord_files)))).
Proof.
  intros _. unfold combine_coordinate_files.
  destruct (merge_files fs coord_files) as [st | e] eqn:Hmerge;
    [ | discriminate].
  cbn [mbind result_bind].
  destruct (write_text fs output_path (output_text st)) as [written | e];
    [ | discriminate].
  intros [= _ <-].
  match goal with
  | |- List.last (?l ++ [?a; ?b])%list _ = _ =>
      change (l ++ [a; b])%list with (l ++ ([a] ++ [b]))%list;
      rewrite (app_assoc l [a] [b]), last_snoc
  end.
  f_equal. apply merge_files_ok in Hmerge. subst st.
  rewrite <- data_lines_merge. unfold data_lines.
  set (st := merged fs coord_files).
  rewrite (length_filter_split is_header (combined_lines st)).
  destruct (header_invariant_files fs (sorted String.leb coord_files)
              (MergeState [] false []) [])
    as [Hkept Hflag].
  { split; [reflexivity | ]. simpl. split; [discriminate | congruence]. }
  fold (merged fs coord_files) in Hkept, Hflag. fold st in Hkept, Hflag.
  rewrite Hkept. cbn [app] in *.
  destruct (List.filter is_header
              (flat_map (lines_of_file fs) (sorted String.leb coord_files)))
    as [ | h hs].
  - destruct (header_written st).
    + now destruct (proj1 Hflag eq_refl).
    + change (firstn 1 (@nil string)) with (@nil string).
      cbn [List.length]. lia.
  - destruct (header_written st).
    + change (firstn 1 (h :: hs)) with [h]. cbn [List.length]. lia.
    + assert (H : false = true) by (apply Hflag; discriminate).
      discriminate H.
Qed.

Lemma combine_coordinate_files_total_witness :
  within_digit_limit sample_coords
    ["run/segment_10_19_coords.txt"; "run/segment_0_9_coords.txt"] = true
  /\ exists fs' messages,
       combine_coordinate_files sample_coords
         ["run/segment_10_19_coords.txt"; "run/segment_0_9_coords.txt"]
         "run/combined_coords.txt" = Ok (fs', messages)
       /\ List.last messages (TotalFrames (-1)) = TotalFrames 2.
Proof.
  assert (Hlimit : within_digit_limit sample_coords
                     ["run/segment_10_19_coords.txt";
                      "run/segment_0_9_coords.txt"] = true)
    by (vm_compute; reflexivity).
  split; [exact Hlimit | ].
  eexists. eexists. split; [vm_compute; reflexivity | ].
  match goal with
  | |- List.last ?m _ = _ =>
      rewrite (combine_coordinate_files_total sample_coords _
                 ["run/segment_10_19_coords.txt";
                  "run/segment_0_9_coords.txt"]
                 "run/combined_coords.txt" m Hlimit eq_refl)
  end.
  vm_compute. reflexivity.
Defined.

(** ** Reading runs of digits *)

Lemma digit_value_nonneg (c : ascii) :
  is_digit c = true -> (0 <= digit_value c <= 9)%Z.
Proof.
  unfold is_digit, digit_value. intros H.
  apply andb_true_iff in H. destruct H as [H1 H2].
  apply Nat.leb_le in H1. apply Nat.leb_le in H2. lia.
Qed.

Lemma int_digits_all_digits (s : string) :
  forall (st : int_lex) (acc : Z),
    all_digits s = true -> (0 <= acc)%Z ->
    s <> EmptyString \/ st = AfterDigit ->
    exists n, int_digits st acc s = Some n /\ (acc <= n)%Z.
Proof.
  induction s as [ | c s IH]; intros st acc Hs Hacc Hst.
  - destruct Hst as [Hne | ->]; [now contradiction Hne | ].
    exists acc. split; [reflexivity | lia].
  - cbn [all_digits] in Hs. apply andb_true_iff in Hs. destruct Hs as [Hc Hs].
    cbn [int_digits]. rewrite Hc.
    pose proof (digit_value_nonneg c Hc) as Hv.
    destruct (IH AfterDigit (10 * acc + digit_value c)%Z Hs ltac:(lia)
                (or_intror eq_refl)) as (n & Hn & Hle).
    exists n. split; [exact Hn | lia].
Qed.

(** [int] of a run of decimal digits is a natural number. *)
Lemma py_int_all_digits (s : string) :
  all_digits s = true -> s <> EmptyString ->
  exists n, py_int s = Some n /\ (0 <= n)%Z.
Proof.
  intros Hs Hne. unfold py_int.
  rewrite (lstrip_digits _ Hs), (rstrip_digits _ Hs).
  destruct (int_digits_all_digits s AtStart 0 Hs ltac:(lia) (or_introl Hne))
    as (n & Hn & Hle).
  exists n. split; [ | exact Hle].
  destruct s as [ | c s]; [now contradiction Hne | ].
  cbn [all_digits] in Hs. apply andb_true_iff in Hs. destruct Hs as [Hc _].
  rewrite <- Hn.
  destruct c as [[ | ] [ | ] [ | ] [ | ] [ | ] [ | ] [ | ] [ | ]];
    try discriminate Hc; reflexivity.
Qed.

Lemma take_digits_all_digits (s : string) :
  all_digits (fst (take_digits s)) = true.
Proof.
  induction s as [ | c s IH]; [reflexivity | ].
  cbn [take_digits]. destruct (is_digit c) eqn:Hc; [ | reflexivity].
  destruct (take_digits s) as [d r]. cbn [fst all_digits] in *.
  now rewrite Hc, IH.
Qed.

(** What an attempt of the pattern captures: two runs of digits, not
    empty. *)
Lemma match_segment_at_digits (s d1 d2 rest : string) :
  match_segment_at s = Some (d1, d2, rest) ->
  (all_digits d1 = true /\ d1 <> EmptyString)
  /\ (all_digits d2 = true /\ d2 <> EmptyString).
Proof.
  unfold match_segment_at.
  destruct (strip_prefix "segment_" s) as [r1 | ]; [ | discriminate].
  pose proof (take_digits_all_digits r1) as H1.
  destruct (take_digits r1) as [[ | c1 t1] r2]; [discriminate | ].
  destruct r2 as [ | u r2]; [discriminate | ].
  destruct (Ascii.eqb_spec u "_") as [-> | Hu].
  2: { destruct u as [[ | ] [ | ] [ | ] [ | ] [ | ] [ | ] [ | ] [ | ]];
       try discriminate; now contradiction Hu. }
  pose proof (take_digits_all_digits r2) as H2.
  destruct (take_digits r2) as [[ | c2 t2] r3]; [discriminate | ].
  intros [= <- <- <-]. cbn [fst] in *. repeat split; try assumption; discriminate.
Qed.

Lemma search_segment_digits (s d1 d2 : string) :
  search_segment s = Some (d1, d2) ->
  (all_digits d1 = true /\ d1 <> EmptyString)
  /\ (all_digits d2 = true /\ d2 <> EmptyString).
Proof.
  induction s as [ | c s IH]; cbn [search_segment].
  - destruct (match_segment_at EmptyString) as [[[a b] r] | ] eqn:Hm;
      [ | discriminate].
    intros [= <- <-]. exact (match_segment_at_digits _ _ _ _ Hm).
  - destruct (match_segment_at (String c s)) as [[[a b] r] | ] eqn:Hm;
      [ | exact IH].
    intros [= <- <-]. exact (match_segment_at_digits _ _ _ _ Hm).
Qed.

(** X12. Where the pattern matches, the name parses. On a name of at most
    4300 characters, so that no run of digits passes the interpreter's limit,
    [parse_segment_filename]
    fails only when [segment_<digits>_<digits>] occurs nowhere in the name:
    the two conversions to integers cannot fail, both numbers are read from
    the leftmost match, and neither is negative. *)
Theorem parse_segment_filename_total_on_match (filename : string) :
  (String.length filename <= INT_MAX_STR_DIGITS)%nat ->
  match search_segment filename with
  | Some (d1, d2) =>
      exists start end_,
        parse_segment_filename filename = Some (start, end_)
        /\ py_int d1 = Some start /\ py_int d2 = Some end_
        /\ (0 <= start)%Z /\ (0 <= end_)%Z
  | None => parse_segment_filename filename = None
  end.
Proof.
  intros _. unfold parse_segment_filename.
  destruct (search_segment filename) as [[d1 d2] | ] eqn:Hsearch;
    [ | reflexivity].
  destruct (search_segment_digits _ _ _ Hsearch) as [[H1 N1] [H2 N2]].
  destruct (py_int_all_digits d1 H1 N1) as (start & -> & Hs).
  destruct (py_int_all_digits d2 H2 N2) as (end_ & -> & He).
  exists start, end_. repeat split; assumption.
Qed.

Lemma parse_segment_filename_total_on_match_witness :
  (String.length "segment_0_33_detect_coords.txt" <= INT_MAX_STR_DIGITS)%nat
  /\ search_segment "segment_0_33_detect_coords.txt" = Some ("0", "33")
  /\ exists start end_,
       parse_segment_filename "segment_0_33_detect_coords.txt"
       = Some (start, end_)
       /\ py_int "0" = Some start /\ py_int "33" = Some end_
       /\ (0 <= start)%Z /\ (0 <= end_)%Z.
Proof.
  assert (Hshort : (String.length "segment_0_33_detect_coords.txt"
                    <= INT_MAX_STR_DIGITS)%nat) by (vm_compute; lia).
  assert (Hsearch : search_segment "segment_0_33_detect_coords.txt"
                    = Some ("0", "33")) by reflexivity.
  split; [exact Hshort | ]. split; [exact Hsearch | ].
  pose proof (parse_segment_filename_total_on_match
                "segment_0_33_detect_coords.txt" Hshort) as Hparse.
  rewrite Hsearch in Hparse. exact Hparse.
Defined.

(** ** More on the structured merge *)

Section SortByKey.
Context {A : Type} (key : A -> Z).

Local Abbreviation key_le := (fun a b : A => (key a <=? key b)%Z).

(** [list.sort(key=...)] is stable: the elements of one key keep their
    order. *)
Lemma filter_insert_sorted_key (k : Z) (x : A) (l : list A) :
  List.filter (fun a => (key a =? k)%Z) (insert_sorted key_le x l)
  = List.filter (fun a => (key a =? k)%Z) (x :: l).
Proof.
  induction l as [ | y l IH]; [reflexivity | ].
  cbn [insert_sorted]. destruct (key x <=? key y)%Z eqn:Hxy; [reflexivity | ].
  apply Z.leb_gt in Hxy.
  cbn [List.filter] in *. rewrite IH.
  destruct (key x =? k)%Z eqn:Hx; [ | reflexivity].
  apply Z.eqb_eq in Hx.
  assert (Hy : (key y =? k)%Z = false) by (apply Z.eqb_neq; lia).
  now rewrite Hy.
Qed.

Lemma filter_sorted_key (k : Z) (l : list A) :
  List.filter (fun a => (key a =? k)%Z) (sorted key_le l)
  = List.filter (fun a => (key a =? k)%Z) l.
Proof.
  induction l as [ | x l IH]; [reflexivity | ].
  cbn [sorted]. rewrite filter_insert_sorted_key.
  cbn [List.filter]. now rewrite IH.
Qed.

Lemma sorted_key_Sorted (l : list A) :
  Sorted (fun a b => (key a <= key b)%Z) (sorted key_le l).
Proof.
  assert (Htotal : forall a b, key_le a b = true \/ key_le b a = true).
  { intros a b.
    destruct (Z.le_ge_cases (key a) (key b)); [left | right];
      now apply Z.leb_le. }
  pose proof (sorted_Sorted key_le Htotal l) as Hs.
  induction Hs as [ | a l' Hs IH Hhd]; [constructor | ].
  constructor; [exact IH | ].
  destruct Hhd as [ | b l'' Hab]; constructor.
  apply Is_true_true in Hab. now apply Z.leb_le.
Qed.

End SortByKey.

Section PoseOrder.
Variable py_float : string -> option float.

(** X13. The combined pose array is in frame order, and the sort is stable:
    the frames never decrease along the array, and the records of one frame
    are the entries read for that frame, in the order they were read
    (directory after directory, label file after label file, line after
    line). Nothing is lost or added. *)
Theorem combine_pose_outputs_sorted_stable (pose_dirs : list pose_dir)
    (out : list pose_record) :
  combine_pose_outputs py_float pose_dirs = Ok (Some out) ->
  exists entries,
    read_all py_float pose_dirs = Ok entries
    /\ Sorted (fun a b => (frame a <= frame b)%Z) out
    /\ List.length out = List.length entries
    /\ forall f : Z,
         List.filter (fun r => (frame r =? f)%Z) out
         = List.map (fun e => PoseRecord (fst e) (snd e))
             (List.filter (fun e => (fst e =? f)%Z) entries).
Proof.
  unfold combine_pose_outputs. intros Hout.
  destruct pose_dirs as [ | d0 rest]; [discriminate Hout | ].
  destruct (read_all py_float (d0 :: rest)) as [entries | e] eqn:Hread;
    [ | discriminate Hout].
  unfold mbind, result_bind in Hout.
  destruct entries as [ | e0 entries]; [discriminate Hout | ].
  injection Hout as <-. exists (e0 :: entries).
  change (insert_sorted (fun a b : Z * list float => (fst a <=? fst b)%Z) e0
            (sorted (fun a b => (fst a <=? fst b)%Z) entries))
    with (sorted (fun a b : Z * list float => (fst a <=? fst b)%Z)
            (e0 :: entries)).
  set (all := e0 :: entries). clearbody all.
  split; [reflexivity | ]. split; [ | split].
  - pose proof (sorted_key_Sorted (@fst Z (list float)) all) as Hs.
    induction Hs as [ | a l Hs IH Hhd]; [constructor | ].
    cbn [List.map]. constructor; [exact IH | ].
    destruct Hhd as [ | b l Hab]; constructor. exact Hab.
  - rewrite length_map.
    apply Permutation_length, sorted_permutation.
  - intros f. rewrite <- (filter_sorted_key (@fst Z (list float)) f all).
    induction (sorted (fun a b => (fst a <=? fst b)%Z) all) as [ | a l IH];
      [reflexivity | ].
    cbn [List.map List.filter frame]. rewrite IH.
    now destruct (fst a =? f)%Z.
Qed.

Lemma segment_start_offset_nonneg (d : pose_dir) (start_offset : Z) :
  segment_start_offset d = Ok start_offset -> (0 <= start_offset)%Z.
Proof.
  unfold segment_start_offset, match_segment_dir.
  destruct (match_segment_at (pose_base_name (dir_name d)))
    as [[[d1 d2] r] | ] eqn:Hm.
  2: { intros [= <-]. lia. }
  destruct (match_segment_at_digits _ _ _ _ Hm) as [[H1 N1] _].
  destruct (py_int_all_digits d1 H1 N1) as (n & Hn & Hle).
  destruct (String.eqb r "" || String.eqb r (String NL "")).
  - rewrite Hn. intros [= <-]. exact Hle.
  - intros [= <-]. lia.
Qed.

Lemma label_frame_part_nonneg (prefix name frame_part : string)
    (frame_index : Z) :
  label_frame_part prefix name = Some frame_part ->
  py_int frame_part = Some frame_index -> (0 <= frame_index)%Z.
Proof.
  unfold label_frame_part.
  destruct (endswith name ".txt"); [ | discriminate].
  destruct (startswith (stem_of_name name) prefix); [ | discriminate].
  destruct (isdigit _) eqn:Hd; [ | discriminate].
  intros [= <-] Hint.
  set (fp := drop_chars (String.length prefix) (stem_of_name name)) in *.
  assert (Hfp : all_digits fp = true /\ fp <> EmptyString).
  { destruct fp; [discriminate Hd | ]. split; [exact Hd | discriminate]. }
  destruct (py_int_all_digits fp (proj1 Hfp) (proj2 Hfp)) as (n & Hn & Hle).
  congruence.
Qed.

(** X14. No frame of the combined pose array is negative: the start offset
    of a directory and the local frame of a label file are read from runs of
    digits. *)
Theorem combine_pose_outputs_frames_nonneg (pose_dirs : list pose_dir)
    (out : list pose_record) :
  combine_pose_outputs py_float pose_dirs = Ok (Some out) ->
  Forall (fun r => (0 <= frame r)%Z) out.
Proof.
  intros Hout. apply List.Forall_forall. intros r Hr.
  apply (combine_pose_outputs_origin py_float pose_dirs out Hout) in Hr.
  destruct Hr as (d & _ & listing & name & text & frame_part & frame_index
                  & start_offset & line & Hoff & _ & _ & Hpart & Hint & _ & _
                  & _ & Hframe).
  cbn [fst] in Hframe. rewrite Hframe.
  pose proof (segment_start_offset_nonneg d start_offset Hoff).
  pose proof (label_frame_part_nonneg _ _ _ _ Hpart Hint). lia.
Qed.

End PoseOrder.

Lemma combine_pose_outputs_sorted_stable_witness :
  combine_pose_outputs float_of_decimal sample_pose_dirs
  = Ok (Some sample_pose_out)
  /\ exists entries,
       read_all float_of_decimal sample_pose_dirs = Ok entries
       /\ Sorted (fun a b => (frame a <= frame b)%Z) sample_pose_out
       /\ List.length sample_pose_out = List.length entries
       /\ forall f : Z,
            List.filter (fun r => (frame r =? f)%Z) sample_pose_out
            = List.map (fun e => PoseRecord (fst e) (snd e))
                (List.filter (fun e => (fst e =? f)%Z) entries).
Proof.
  assert (Hout : combine_pose_outputs float_of_decimal sample_pose_dirs
                 = Ok (Some sample_pose_out)) by (vm_compute; reflexivity).
  split; [exact Hout | ].
  exact (combine_pose_outputs_sorted_stable float_of_decimal sample_pose_dirs
           sample_pose_out Hout).
Defined.

Lemma combine_pose_outputs_frames_nonneg_witness :
  combine_pose_outputs float_of_decimal sample_pose_dirs
  = Ok (Some sample_pose_out)
  /\ Forall (fun r => (0 <= frame r)%Z) sample_pose_out.
Proof.
  assert (Hout : combine_pose_outputs float_of_decimal sample_pose_dirs
                 = Ok (Some sample_pose_out)) by (vm_compute; reflexivity).
  split; [exact Hout | ].
  exact (combine_pose_outputs_frames_nonneg float_of_decimal sample_pose_dirs
           sample_pose_out Hout).
Defined.

(** ** More on the probe *)

Section ProbeMore.
Variable py_float : string -> option float.

Lemma stream_fps_not_zero (stream : stream_info) :
  PrimFloat.eqb (stream_fps py_float stream) 0%float = false.
Proof.
  unfold stream_fps, float_truthy.
  destruct (PrimFloat.eqb
              (parse_fps py_float
                 (field_or (stream !! "avg_frame_rate") "0/1")) 0%float)
    eqn:Hzero; cbn [negb].
  - reflexivity.
  - exact Hzero.
Qed.

(** The texts that give no usable rate are those [parse_fps] reads as
    zero. *)
Lemma unusable_rate_parse_fps (value : string) :
  unusable_rate py_float value
  = PrimFloat.eqb (parse_fps py_float value) 0%float.
Proof.
  unfold unusable_rate, parse_fps.
  destruct (partition_slash value) as [[num den] | ].
  - destruct (py_float den) as [d | ]; [ | reflexivity].
    destruct (PrimFloat.eqb d 0%float); [reflexivity | ]. cbn [orb].
    destruct (py_float num) as [n | ]; reflexivity.
  - destruct (py_float value) as [x | ]; reflexivity.
Qed.

(** X15. The frame rate [probe_video] returns is never zero. The text of
    [avg_frame_rate], or [0/1] when the field is missing or empty, is
    parsed; when it is unreadable, has an unreadable or zero denominator or
    an unreadable numerator, or evaluates to zero, the rate returned is 30,
    and otherwise it is the parsed rate. With [float("0")] and [float("1")]
    read as 0 and 1, a missing or empty field gives 30. *)
Theorem probe_video_fps_not_zero (info : probe_info) (frames : Z)
    (fps : float) :
  probe_video py_float info = Ok (frames, fps) ->
  exists stream,
    selected_stream info = Ok stream
    /\ PrimFloat.eqb fps 0%float = false
    /\ (unusable_rate py_float
          (field_or (stream !! "avg_frame_rate") "0/1") = true ->
        fps = 30%float)
    /\ (unusable_rate py_float
          (field_or (stream !! "avg_frame_rate") "0/1") = false ->
        fps = parse_fps py_float
                (field_or (stream !! "avg_frame_rate") "0/1"))
    /\ (py_float "0" = Some 0%float -> py_float "1" = Some 1%float ->
        field_or (stream !! "avg_frame_rate") "0/1" = "0/1" ->
        fps = 30%float).
Proof.
  unfold probe_video. intros Hprobe.
  destruct (selected_stream info) as [stream | e]; [ | discriminate Hprobe].
  unfold mbind, result_bind in Hprobe.
  destruct (stream_duration py_float stream) as [duration | e];
    [ | discriminate Hprobe].
  match type of Hprobe with
  | match ?m with _ => _ end = _ =>
      destruct m as [n | e]; [ | discriminate Hprobe]
  end.
  injection Hprobe as _ <-. exists stream. split; [reflexivity | ].
  split; [apply stream_fps_not_zero | ].
  assert (Hyes : unusable_rate py_float
                   (field_or (stream !! "avg_frame_rate") "0/1") = true ->
                 stream_fps py_float stream = 30%float).
  { rewrite unusable_rate_parse_fps. intros Hzero.
    unfold stream_fps, float_truthy. now rewrite Hzero. }
  split; [exact Hyes | ]. split.
  - rewrite unusable_rate_parse_fps. intros Hrate.
    unfold stream_fps, float_truthy. now rewrite Hrate.
  - intros H0 H1 Hdefault. apply Hyes. rewrite Hdefault.
    unfold unusable_rate. cbn [partition_slash Ascii.eqb Bool.eqb].
    rewrite H1, H0. reflexivity.
Qed.

(** X16. A duration that [float] cannot read stops the probe, whatever the
    frame count says: the duration is converted first, so a stream whose
    [duration] is a text such as [N/A] makes [probe_video] raise
    [ValueError] even when [nb_frames] is usable. *)
Theorem probe_video_unreadable_duration (info : probe_info)
    (stream : stream_info) (duration : string) :
  selected_stream info = Ok stream ->
  stream !! "duration" = Some duration ->
  duration <> EmptyString ->
  py_float duration = None ->
  probe_video py_float info = Raise ValueError.
Proof.
  intros Hstream Hfield Hne Hfloat. unfold probe_video.
  rewrite Hstream. unfold mbind, result_bind, stream_duration.
  rewrite Hfield. destruct duration as [ | c s]; [now contradiction Hne | ].
  unfold float_of_text. now rewrite Hfloat.
Qed.

End ProbeMore.

Lemma probe_video_fps_not_zero_witness :
  probe_video float_of_decimal probe_100_frames = Ok (100%Z, 30%float)
  /\ float_of_decimal "0" = Some 0%float
  /\ float_of_decimal "1" = Some 1%float
  /\ exists stream,
       selected_stream probe_100_frames = Ok stream
       /\ field_or (stream !! "avg_frame_rate") "0/1" = "0/1"
       /\ unusable_rate float_of_decimal "0/1" = true
       /\ PrimFloat.eqb 30%float 0%float = false.
Proof.
  assert (Hprobe : probe_video float_of_decimal probe_100_frames
                   = Ok (100%Z, 30%float)) by (vm_compute; reflexivity).
  split; [exact Hprobe | ].
  split; [vm_compute; reflexivity | ]. split; [vm_compute; reflexivity | ].
  destruct (probe_video_fps_not_zero float_of_decimal probe_100_frames 100
              30%float Hprobe) as (stream & Hstream & Hnonzero & _).
  exists stream. split; [exact Hstream | ].
  injection Hstream as <-.
  split; [reflexivity | ]. split; [vm_compute; reflexivity | exact Hnonzero].
Defined.

Lemma probe_video_unreadable_duration_witness :
  selected_stream probe_no_duration
  = Ok (<["duration" := "N/A"]> (<["nb_frames" := "100"]> (∅ : stream_info)))
  /\ (<["duration" := "N/A"]> (<["nb_frames" := "100"]> (∅ : stream_info)))
       !! "duration" = Some "N/A"
  /\ "N/A" <> EmptyString
  /\ float_of_decimal "N/A" = None
  /\ usable_nb_frames
       ((<["duration" := "N/A"]> (<["nb_frames" := "100"]> (∅ : stream_info)))
          !! "nb_frames") = Some "100"
  /\ probe_video float_of_decimal probe_no_duration = Raise ValueError.
Proof.
  assert (Hne : "N/A" <> EmptyString) by discriminate.
  split; [reflexivity | ]. split; [reflexivity | ]. split; [exact Hne | ].
  split; [reflexivity | ]. split; [reflexivity | ].
  exact (probe_video_unreadable_duration float_of_decimal probe_no_duration
           _ "N/A" eq_refl eq_refl Hne eq_refl).
Defined.

(** ** Paths in the container *)

Lemma path_root_spec (p : string) :
  path_root p
  = match p with
    | String c1 r1 =>
        if Ascii.eqb c1 "/" then
          match r1 with
          | String c2 r2 =>
              if Ascii.eqb c2 "/" then
                match r2 with
                | String c3 _ => if Ascii.eqb c3 "/" then "/" else "//"
                | EmptyString => "//"
                end
              else "/"
          | EmptyString => "/"
          end
        else ""
    | EmptyString => ""
    end.
Proof.
  destruct p as [ | c1 r1]; [reflexivity | ].
  destruct c1 as [[ | ] [ | ] [ | ] [ | ] [ | ] [ | ] [ | ] [ | ]];
    try reflexivity.
  destruct r1 as [ | c2 r2]; [reflexivity | ].
  destruct c2 as [[ | ] [ | ] [ | ] [ | ] [ | ] [ | ] [ | ] [ | ]];
    try reflexivity.
  destruct r2 as [ | c3 r3]; [reflexivity | ].
  destruct c3 as [[ | ] [ | ] [ | ] [ | ] [ | ] [ | ] [ | ] [ | ]];
    reflexivity.
Qed.

Lemma path_root_cases (p : string) :
  path_root p = "" \/ path_root p = "/" \/ path_root p = "//".
Proof.
  rewrite path_root_spec.
  destruct p as [ | c1 [ | c2 [ | c3 r3]]];
    repeat match goal with
           | |- context [Ascii.eqb ?c "/"] => destruct (Ascii.eqb c "/")
           end; auto.
Qed.

Lemma plain_part_head (x : string) :
  plain_part x = true ->
  exists c r, x = String c r /\ Ascii.eqb c "/" = false.
Proof.
  unfold plain_part. intros H.
  apply andb_true_iff in H. destruct H as [H Hfree].
  apply andb_true_iff in H. destruct H as [Hne _].
  destruct x as [ | c r]; [discriminate Hne | ].
  cbn [char_free] in Hfree. apply andb_true_iff in Hfree.
  destruct Hfree as [Hc _]. apply negb_true_iff in Hc. eauto.
Qed.

Lemma join_parts_head (x : string) (parts : list string) :
  plain_part x = true ->
  exists c r, join "/" (x :: parts) = String c r /\ Ascii.eqb c "/" = false.
Proof.
  intros Hx. destruct (plain_part_head x Hx) as (c & r & -> & Hc).
  unfold join. destruct parts as [ | y parts].
  - exists c, r. now split.
  - change (String.concat "/" (String c r :: y :: parts))
      with (String c (r ++ String "/" (String.concat "/" (y :: parts)))).
    eauto.
Qed.

(** [Path] keeps the root and the parts of a path. *)
Lemma path_root_Path (p : string) : path_root (Path p) = path_root p.
Proof.
  unfold Path. pose proof (path_parts_plain p) as Hplain.
  destruct (path_parts p) as [ | x parts].
  - destruct (path_root_cases p) as [-> | [-> | ->]]; reflexivity.
  - inversion Hplain as [ | ? ? Hx _]; subst.
    destruct (join_parts_head x parts Hx) as (c & r & -> & Hc).
    destruct (path_root_cases p) as [-> | [-> | ->]].
    + change ("" ++ String c r) with (String c r).
      rewrite path_root_spec, Hc. reflexivity.
    + change ("/" ++ String c r) with (String "/" (String c r)).
      rewrite path_root_spec, Hc. reflexivity.
    + change ("//" ++ String c r) with (String "/" (String "/" (String c r))).
      rewrite path_root_spec, Hc. reflexivity.
Qed.

Lemma path_parts_Path (p : string) : path_parts (Path p) = path_parts p.
Proof.
  unfold Path. pose proof (path_parts_plain p) as Hplain.
  destruct (path_parts p) as [ | x parts] eqn:Hparts.
  - destruct (path_root_cases p) as [-> | [-> | ->]]; reflexivity.
  - assert (Hjoin : path_parts (join "/" (x :: parts)) = x :: parts).
    { unfold path_parts.
      rewrite split_join_parts by (discriminate || exact Hplain).
      now apply filter_plain_parts. }
    destruct (path_root_cases p) as [-> | [-> | ->]].
    + exact Hjoin.
    + change ("/" ++ join "/" (x :: parts))
        with (String "/" (join "/" (x :: parts))).
      unfold path_parts in *. cbn [split]. rewrite Ascii.eqb_refl.
      cbn [List.filter String.eqb negb andb]. exact Hjoin.
    + change ("//" ++ join "/" (x :: parts))
        with (String "/" (String "/" (join "/" (x :: parts)))).
      unfold path_parts in *. cbn [split]. rewrite Ascii.eqb_refl.
      cbn [List.filter String.eqb negb andb]. exact Hjoin.
Qed.

Lemma strip_parts_same (parts : list string) :
  strip_parts parts parts = Some [].
Proof.
  induction parts as [ | x parts IH]; [reflexivity | ].
  cbn [strip_parts]. now rewrite String.eqb_refl.
Qed.

(** A path outside the working directory is not the working directory. *)
Lemma relative_to_none (host_path workdir : string) :
  relative_to host_path workdir = None -> Path host_path <> Path workdir.
Proof.
  intros Hrel Heq. unfold relative_to in Hrel.
  rewrite <- (path_root_Path host_path), <- (path_parts_Path host_path),
    Heq, path_root_Path, path_parts_Path, String.eqb_refl,
    strip_parts_same in Hrel.
  discriminate Hrel.
Qed.

Section ContainerPaths.
Variable workdir : string.

(** X17. [map_to_container_path] never takes a mount away or weakens it:
    an entry of [volumes] is still there after the call, bound to the same
    container path, with the mode it had or with [rw]. *)
Theorem map_to_container_path_keeps_mounts (host_path : string)
    (volumes : gmap string volume) (write : bool) (k : string)
    (entry : volume) :
  volumes !! k = Some entry ->
  exists entry',
    snd (map_to_container_path workdir host_path volumes write) !! k
    = Some entry'
    /\ vol_bind entry' = vol_bind entry
    /\ (vol_mode entry' = vol_mode entry \/ vol_mode entry' = "rw").
Proof.
  intros Hk. unfold map_to_container_path.
  destruct (relative_to host_path workdir) as [rel_path | ]; cbn [snd].
  { exists entry. auto. }
  destruct (volumes !! Path host_path) as [old | ] eqn:Hold.
  - destruct (write && negb (String.eqb (vol_mode old) "rw")); cbn [snd].
    + destruct (decide (Path host_path = k)) as [<- | Hne].
      * rewrite lookup_insert_eq. eexists. split; [reflexivity | ].
        cbn [vol_bind vol_mode]. split; [congruence | now right].
      * rewrite lookup_insert_ne by exact Hne. exists entry. auto.
    + exists entry. auto.
  - cbn [snd]. destruct (decide (Path host_path = k)) as [<- | Hne].
    + congruence.
    + rewrite lookup_insert_ne by exact Hne. exists entry. auto.
Qed.

(** One call: the volumes stay those of a job, the path returned reaches
    the host path, and what was reached before still is. *)
Lemma map_to_container_path_step (host_path : string)
    (volumes : gmap string volume) (write : bool) :
  job_volumes workdir volumes ->
  job_volumes workdir
    (snd (map_to_container_path workdir host_path volumes write))
  /\ reaches workdir
       (snd (map_to_container_path workdir host_path volumes write)) write
       host_path (fst (map_to_container_path workdir host_path volumes write))
  /\ forall (w : bool) (h p : string),
       reaches workdir volumes w h p ->
       reaches workdir
         (snd (map_to_container_path workdir host_path volumes write)) w h p.
Proof.
  intros [Hwork Hbind]. unfold map_to_container_path, reaches at 1.
  destruct (relative_to host_path workdir) as [rel_path | ] eqn:Hrel;
    cbn [fst snd].
  { split; [now split | ]. split; [reflexivity | auto]. }
  pose proof (relative_to_none _ _ Hrel) as Hout.
  destruct (volumes !! Path host_path) as [old | ] eqn:Hold.
  - destruct (write && negb (String.eqb (vol_mode old) "rw")) eqn:Hup;
      cbn [fst snd].
    + split; [ | split].
      * split.
        -- now rewrite lookup_insert_ne by exact Hout.
        -- intros k entry Hk Hne.
           destruct (decide (Path host_path = k)) as [<- | Hother].
           ++ rewrite lookup_insert_eq in Hk. injection Hk as <-.
              cbn [vol_bind]. now apply Hbind.
           ++ rewrite lookup_insert_ne in Hk by exact Hother. now apply Hbind.
      * split; [reflexivity | ].
        eexists. rewrite lookup_insert_eq. split; [reflexivity | ].
        cbn [vol_bind vol_mode]. split; [now apply Hbind | ].
        now destruct write.
      * intros w h p Hreach. unfold reaches in *.
        destruct (relative_to h workdir); [exact Hreach | ].
        destruct Hreach as (-> & entry & Hentry & Hb & Hm).
        split; [reflexivity | ].
        destruct (decide (Path host_path = Path h)) as [Heq | Hother].
        -- rewrite <- Heq, lookup_insert_eq. eexists. split; [reflexivity | ].
           cbn [vol_bind vol_mode]. rewrite <- Heq in Hentry.
           rewrite Hold in Hentry. injection Hentry as ->.
           split; [congruence | now destruct w].
        -- rewrite lookup_insert_ne by exact Hother. eauto.
    + split; [now split | ]. split; [ | auto].
      split; [reflexivity | ]. exists old. split; [exact Hold | ].
      split; [now apply Hbind | ].
      destruct write; [ | exact I]. cbn [andb] in Hup.
      apply negb_false_iff in Hup. now apply String.eqb_eq in Hup.
  - cbn [fst snd]. split; [ | split].
    + split.
      * now rewrite lookup_insert_ne by exact Hout.
      * intros k entry Hk Hne.
        destruct (decide (Path host_path = k)) as [<- | Hother].
        -- rewrite lookup_insert_eq in Hk. now injection Hk as <-.
        -- rewrite lookup_insert_ne in Hk by exact Hother. now apply Hbind.
    + split; [reflexivity | ].
      eexists. rewrite lookup_insert_eq. split; [reflexivity | ].
      cbn [vol_bind vol_mode]. split; [reflexivity | now destruct write].
    + intros w h p Hreach. unfold reaches in *.
      destruct (relative_to h workdir); [exact Hreach | ].
      destruct Hreach as (-> & entry & Hentry & Hb & Hm).
      split; [reflexivity | ].
      destruct (decide (Path host_path = Path h)) as [Heq | Hother].
      * rewrite <- Heq in Hentry. congruence.
      * rewrite lookup_insert_ne by exact Hother. eauto.
Qed.

(** X18. Every path [run_job] hands to the container is reachable there.
    In the configuration it builds for a model tag without a slash, the working directory is bound to
    [/work] for writing; the video on the command line, the project
    directory, the annotated video and the coordinates file each lie under
    [/work] or are bound at their own host path, the last three for
    writing. *)
Theorem run_job_paths_reachable (video : string) (args : arguments)
    (output_dir coords_host model_tag : string) :
  char_free "/" model_tag = true ->
  let config := run_job workdir video args output_dir coords_host model_tag in
  let out_path :=
    path_join output_dir
      (path_stem video ++ "_" ++ model_tag ++ "_yolo11.mp4") in
  job_volumes workdir (cfg_volumes config)
  /\ (exists container_video,
        In container_video (cfg_command config)
        /\ reaches workdir (cfg_volumes config) false video container_video)
  /\ reaches workdir (cfg_volumes config) true output_dir (cfg_project config)
  /\ reaches workdir (cfg_volumes config) true out_path (cfg_out config)
  /\ reaches workdir (cfg_volumes config) true coords_host (cfg_coords config).
Proof.
  intros _ config out_path. unfold config, run_job. fold out_path.
  assert (H0 : job_volumes workdir
                 ({[ Path workdir := Volume CONTAINER_WORKDIR "rw" ]}
                    : gmap string volume)).
  { split; [apply lookup_singleton_eq | ].
    intros k entry Hk Hne. now rewrite lookup_singleton_ne in Hk. }
  destruct (map_to_container_path_step video _ false H0) as (H1 & R1 & _).
  destruct (map_to_container_path workdir video _ false) as [cv v1].
  cbn [fst snd] in H1, R1.
  destruct (map_to_container_path_step output_dir v1 true H1)
    as (H2 & R2 & K2).
  destruct (map_to_container_path workdir output_dir v1 true) as [pp v2].
  cbn [fst snd] in H2, R2, K2.
  destruct (map_to_container_path_step out_path v2 true H2) as (H3 & R3 & K3).
  destruct (map_to_container_path workdir out_path v2 true) as [op v3].
  cbn [fst snd] in H3, R3, K3.
  destruct (map_to_container_path_step coords_host v3 true H3)
    as (H4 & R4 & K4).
  destruct (map_to_container_path workdir coords_host v3 true) as [cp v4].
  cbn [fst snd] in H4, R4, K4.
  cbn [cfg_volumes cfg_command cfg_project cfg_out cfg_coords].
  split; [exact H4 | ]. split; [ | split; [ | split] ].
  - exists cv. split; [ | auto].
    destruct (model args) as [[ | c m] | ];
      rewrite ?in_app_iff; cbn [In]; auto.
  - auto.
  - auto.
  - exact R4.
Qed.

End ContainerPaths.

Lemma run_job_paths_reachable_witness :
  char_free "/" "detect" = true
  /\ job_volumes sample_workdir
       (cfg_volumes (run_job sample_workdir sample_video sample_args "/data"
                       "/data/video_detect_coords.txt" "detect"))
  /\ cfg_coords (run_job sample_workdir sample_video sample_args "/data"
                   "/data/video_detect_coords.txt" "detect")
     = "/data/video_detect_coords.txt"
  /\ reaches sample_workdir
       (cfg_volumes (run_job sample_workdir sample_video sample_args "/data"
                       "/data/video_detect_coords.txt" "detect"))
       true "/data/video_detect_coords.txt" "/data/video_detect_coords.txt".
Proof.
  split; [reflexivity | ].
  destruct (run_job_paths_reachable sample_workdir sample_video sample_args
              "/data" "/data/video_detect_coords.txt" "detect" eq_refl)
    as (Hvolumes & _ & _ & _ & Hcoords).
  split; [exact Hvolumes | ]. split; [reflexivity | exact Hcoords].
Defined.

Lemma map_to_container_path_keeps_mounts_witness :
  sample_volumes !! "/data/video.mp4" = Some (Volume "/data/video.mp4" "ro")
  /\ exists entry',
       snd (map_to_container_path sample_workdir "/data/video.mp4"
              sample_volumes true) !! "/data/video.mp4" = Some entry'
       /\ vol_bind entry' = "/data/video.mp4"
       /\ (vol_mode entry' = "ro" \/ vol_mode entry' = "rw").
Proof.
  assert (Hk : sample_volumes !! "/data/video.mp4"
               = Some (Volume "/data/video.mp4" "ro")) by reflexivity.
  split; [exact Hk | ].
  exact (map_to_container_path_keeps_mounts sample_workdir "/data/video.mp4"
           sample_volumes true "/data/video.mp4" _ Hk).
Defined.

(** ** Pose directories *)


Section CollectFacts.
Variable is_dir : string -> bool.
Variable iterdir : string -> list string.
Variable resolve : string -> string.

(** What the loop keeps true of [seen] and [candidates]: [seen] holds the
    resolved paths of the candidates, no path twice, and every candidate is
    a directory. *)
Local Abbreviation collected :=
  (fun (seen : list string) (candidates : list (Z * string)) =>
     seen = List.map (fun c => resolve (snd c)) candidates
     /\ List.NoDup seen
     /\ Forall (fun c => is_dir (snd c) = true) candidates).





End CollectFacts.

(** ** Where the coordinates file goes *)

Lemma char_free_substring (c : ascii) (s : string) :
  char_free c s = true ->
  forall n, char_free c (substring 0 n s) = true.
Proof.
  induction s as [ | x s IH]; intros Hfree n.
  - destruct n; reflexivity.
  - cbn [char_free] in Hfree. apply andb_true_iff in Hfree.
    destruct Hfree as [Hx Hs].
    destruct n as [ | n]; [reflexivity | ].
    cbn [substring char_free]. now rewrite Hx, IH.
Qed.

Lemma stem_of_name_char_free (c : ascii) (name : string) :
  char_free c name = true -> char_free c (stem_of_name name) = true.
Proof.
  intros Hfree. unfold stem_of_name.
  destruct (rfind_dot name 0 None) as [i | ]; [ | exact Hfree].
  destruct ((0 <? i)%nat && (i <? String.length name - 1)%nat);
    [now apply char_free_substring | exact Hfree].
Qed.

Lemma path_name_char_free (p : string) : char_free "/" (path_name p) = true.
Proof.
  unfold path_name. pose proof (path_parts_plain p) as Hplain.
  induction Hplain as [ | x l Hx Hl IH]; [reflexivity | ].
  cbn [List.last]. destruct l as [ | y l]; [ | exact IH].
  unfold plain_part in Hx. apply andb_true_iff in Hx. now destruct Hx.
Qed.

Lemma get_model_tag_char_free (args : arguments) :
  char_free "/" (get_model_tag args) = true.
Proof.
  unfold get_model_tag. destruct (pose args); [reflexivity | ].
  destruct (model args) as [[ | c m] | ]; try reflexivity.
  unfold path_stem. apply stem_of_name_char_free, path_name_char_free.
Qed.

Lemma path_root_rebuilt (p : string) (c : ascii) (r : string) :
  Ascii.eqb c "/" = false -> path_root (path_root p ++ String c r) = path_root p.
Proof.
  intros Hc. destruct (path_root_cases p) as [-> | [-> | ->]].
  - change ("" ++ String c r) with (String c r).
    rewrite path_root_spec, Hc. reflexivity.
  - change ("/" ++ String c r) with (String "/" (String c r)).
    rewrite path_root_spec, Hc. reflexivity.
  - change ("//" ++ String c r) with (String "/" (String "/" (String c r))).
    rewrite path_root_spec, Hc. reflexivity.
Qed.

Lemma path_root_with_name (p name : string) :
  plain_part name = true -> path_root (with_name p name) = path_root p.
Proof.
  intros Hname. unfold with_name.
  pose proof (Forall_removelast _ _ (path_parts_plain p)) as Hplain.
  destruct (removelast (path_parts p)) as [ | x parts].
  - destruct (plain_part_head name Hname) as (c & r & -> & Hc).
    now apply path_root_rebuilt.
  - inversion Hplain as [ | ? ? Hx _]; subst.
    destruct (join_parts_head x parts Hx) as (c & r & -> & Hc).
    change (String c r ++ "/" ++ name) with (String c (r ++ "/" ++ name)).
    now apply path_root_rebuilt.
Qed.

Lemma path_parent_with_name (p name : string) :
  plain_part name = true -> path_parent (with_name p name) = path_parent p.
Proof.
  intros Hname. unfold path_parent.
  rewrite path_root_with_name by exact Hname.
  assert (Hparts : path_parts (with_name p name)
                   = (removelast (path_parts p) ++ [name])%list).
  { unfold with_name.
    pose proof (path_parts_rebuilt p (removelast (path_parts p)) name
                  (Forall_removelast _ _ (path_parts_plain p)) Hname) as H.
    destruct (removelast (path_parts p)); exact H. }
  rewrite Hparts, removelast_last. reflexivity.
Qed.

Lemma long_name_plain (s : string) :
  (2 <= String.length s)%nat -> char_free "/" s = true ->
  plain_part s = true.
Proof.
  intros Hlen Hfree. unfold plain_part. rewrite Hfree.
  destruct s as [ | c [ | c' s]]; cbn [String.length] in Hlen; try lia.
  cbn [String.eqb]. destruct (Ascii.eqb c "."); reflexivity.
Qed.

(** X20. The coordinates file goes next to the video. When no [--coords]
    path is given and the video path has a name, the coordinates path the scheduling loop derives for a
    video lies in the video's directory, the output directory of the job,
    under the name [{stem}_{model_tag}_coords.txt]; the model tag of a run
    never contains a slash. *)
Theorem coords_file_next_to_video (resolve : string -> string)
    (args : arguments) (video : string) :
  path_parts video <> [] ->
  truthy (coords args) = false ->
  path_parent (coords_host_of resolve args (get_model_tag args) video)
  = path_parent video
  /\ path_name (coords_host_of resolve args (get_model_tag args) video)
     = path_stem video ++ "_" ++ get_model_tag args ++ "_coords.txt"
  /\ char_free "/" (get_model_tag args) = true.
Proof.
  intros _ Hcoords.
  set (name := path_stem video ++ "_" ++ get_model_tag args ++ "_coords.txt").
  assert (Hhost : coords_host_of resolve args (get_model_tag args) video
                  = with_name video name).
  { unfold coords_host_of, truthy in *.
    destruct (coords args) as [[ | c p] | ]; try reflexivity.
    discriminate Hcoords. }
  assert (Hplain : plain_part name = true).
  { apply long_name_plain.
    - unfold name. rewrite !length_append. cbn [String.length]. lia.
    - unfold name. rewrite !char_free_append, get_model_tag_char_free.
      unfold path_stem.
      rewrite (stem_of_name_char_free "/" _ (path_name_char_free video)).
      reflexivity. }
  rewrite Hhost. split; [now apply path_parent_with_name | ].
  split; [now apply path_name_with_name | apply get_model_tag_char_free].
Qed.

Lemma coords_file_next_to_video_witness :
  path_parts sample_video <> []
  /\ truthy (coords sample_args) = false
  /\ path_parent (coords_host_of (fun p => p) sample_args
                    (get_model_tag sample_args) sample_video)
     = "/data"
  /\ path_name (coords_host_of (fun p => p) sample_args
                  (get_model_tag sample_args) sample_video)
     = "video_detect_coords.txt"
  /\ char_free "/" (get_model_tag sample_args) = true.
Proof.
  assert (Hname : path_parts sample_video <> []) by discriminate.
  split; [exact Hname | ]. split; [reflexivity | ].
  exact (coords_file_next_to_video (fun p => p) sample_args sample_video
           Hname eq_refl).
Defined.
